(** * Favicon resolution engine of theca: a shallow embedding

    The development follows [internal/utils/parsers/favicon.go] and the
    bookmark import parser of the same package.  Go packages that are not
    part of the repository (net/url, net/http, x/net/html, regexp, the
    Unicode-aware part of strings) are taken as parameters; everything the
    repository itself implements is a definition below. *)

From Stdlib Require Import ZArith Ascii String List Permutation Sorted Lia.
From Stdlib Require Import DecimalString DecimalPos DecimalN DecimalZ.
From stdpp Require Import base option list gmap strings.

Set Warnings "-register-all".
Open Scope string_scope.
Open Scope list_scope.
Open Scope Z_scope.

(** ** Package strings (byte-exact functions) *)

Definition strings_HasPrefix (s prefix : string) : bool := String.prefix prefix s.

Fixpoint strings_Contains (s substr : string) : bool :=
  strings_HasPrefix s substr ||
  match s with
  | EmptyString => false
  | String _ t => strings_Contains t substr
  end.

(** [domain[4:]] *)
Definition slice_from (n : nat) (s : string) : string :=
  String.substring n (String.length s - n) s.

(** ** Package encoding/base64: [StdEncoding.EncodeToString] *)

Definition encodeStd : string :=
  "ABCDEFGHIJKLMNOPQRSTUVWXYZabcdefghijklmnopqrstuvwxyz0123456789+/".

Definition b64digit (n : N) : ascii :=
  match String.get (N.to_nat n) encodeStd with
  | Some c => c
  | None => "="%char
  end.

Fixpoint base64_EncodeToString (src : string) : string :=
  match src with
  | EmptyString => EmptyString
  | String a EmptyString =>
      let x := N_of_ascii a in
      String (b64digit (x / 4)) (String (b64digit ((x mod 4) * 16)) "==")
  | String a (String b EmptyString) =>
      let x := N_of_ascii a in
      let y := N_of_ascii b in
      String (b64digit (x / 4))
        (String (b64digit ((x mod 4) * 16 + y / 16))
           (String (b64digit ((y mod 16) * 4)) "="))
  | String a (String b (String c rest)) =>
      let x := N_of_ascii a in
      let y := N_of_ascii b in
      let z := N_of_ascii c in
      String (b64digit (x / 4))
        (String (b64digit ((x mod 4) * 16 + y / 16))
           (String (b64digit ((y mod 16) * 4 + z / 64))
              (String (b64digit (z mod 64)) (base64_EncodeToString rest))))
  end%N.

(** ** Package net/url: the parts of [url.URL] the resolver reads *)

Module net_url.
Record URL : Type := mkURL {
  Scheme : string;
  Host : string;
  Path : string;
  RawQuery : string;
  Fragment : string
}.
End net_url.

(** ** Package x/net/html: parsed documents *)

Module html.
Inductive NodeType : Type :=
| ErrorNode | TextNode | DocumentNode | ElementNode | CommentNode | DoctypeNode.

Record Attribute : Type := mkAttr { Key : string; Val : string }.

(** [FirstChild]/[NextSibling] chains are the list of children. *)
Inductive Node : Type :=
| mkNode (Type_ : NodeType) (Data : string) (Attr : list Attribute)
         (children : list Node).

Definition is_link (n : Node) : bool :=
  match n with
  | mkNode ElementNode d _ _ => String.eqb d "link"
  | _ => false
  end.
End html.

(** ** Library parameters

    The functions of Go's standard library and of x/net that the resolver
    calls and whose implementation is outside the repository. [url_Parse]
    returns [None] where Go returns a non-nil error. *)

Record GoLibs : Type := mkGoLibs {
  strings_ToLower : string -> string;
  strings_TrimSpace : string -> string;
  url_Parse : string -> option net_url.URL;
  URL_String : net_url.URL -> string;
  URL_ResolveReference : net_url.URL -> net_url.URL -> net_url.URL;
  html_Parse : string -> option html.Node;
  regexp_FindStringSubmatch : string -> string -> list string
}.

(** ** favicon.go: pure part *)

Record IconCandidate : Type := mkIconCandidate {
  URL : string;
  Priority : Z
}.

(** First statement of [normalizeURL] and of [FetchFaviconBase64] after the
    cache check: the scheme is assumed to be https when none is given. *)
Definition withScheme (resourceURL : string) : string :=
  if negb (strings_HasPrefix resourceURL "http://")
     && negb (strings_HasPrefix resourceURL "https://")
  then "https://" +:+ resourceURL
  else resourceURL.

Definition relPriorities : gmap string Z :=
  list_to_map
    [ ("icon", 1); ("shortcut icon", 2); ("apple-touch-icon", 3);
      ("apple-touch-icon-precomposed", 4); ("fluid-icon", 5);
      ("mask-icon", 6); ("alternate icon", 7) ].

Definition knownServices : gmap string string :=
  list_to_map
    [ ("gmail.com", "https://ssl.gstatic.com/ui/v1/icons/mail/rfr/gmail.ico");
      ("mail.google.com", "https://ssl.gstatic.com/ui/v1/icons/mail/rfr/gmail.ico");
      ("google.com", "https://www.google.com/favicon.ico");
      ("youtube.com", "https://www.youtube.com/favicon.ico");
      ("github.com", "https://github.com/favicon.ico");
      ("stackoverflow.com", "https://cdn.sstatic.net/Sites/stackoverflow/Img/favicon.ico");
      ("twitter.com", "https://abs.twimg.com/favicons/twitter.ico");
      ("facebook.com", "https://static.xx.fbcdn.net/rsrc.php/yV/r/hzMapiNYYpW.ico");
      ("linkedin.com", "https://static.licdn.com/sc/h/1bt1uwq5akv756knzdj4l6cdc") ].

(** The sort at the end of [findIconCandidates], on the slice itself:
    [candidates[i], candidates[j] = candidates[j], candidates[i]] when
    [candidates[i].Priority > candidates[j].Priority].  The loops keep both
    indices in range; out of range the model leaves the slice alone. *)
Definition swapIfGreater (i j : nat) (candidates : list IconCandidate)
  : list IconCandidate :=
  match candidates !! i, candidates !! j with
  | Some ci, Some cj =>
      if Priority ci >? Priority cj
      then <[j := ci]> (<[i := cj]> candidates)
      else candidates
  | _, _ => candidates
  end.

(** [for j := i + 1; j < len(candidates); j++]: [n] iterations are left. *)
Fixpoint innerLoop (i j n : nat) (candidates : list IconCandidate)
  : list IconCandidate :=
  match n with
  | O => candidates
  | S n' => innerLoop i (S j) n' (swapIfGreater i j candidates)
  end.

(** [for i := range len(candidates) - 1]: [n] iterations are left. *)
Fixpoint outerLoop (i n : nat) (candidates : list IconCandidate)
  : list IconCandidate :=
  match n with
  | O => candidates
  | S n' =>
      outerLoop (S i) n'
        (innerLoop i (S i) (length candidates - S i) candidates)
  end.

Definition sortCandidates (candidates : list IconCandidate) : list IconCandidate :=
  outerLoop 0 (length candidates - 1) candidates.

Section Pure.
Context (L : GoLibs).

(** [normalizeURL] *)
Definition normalizeURL (resourceURL : string) : string :=
  let resourceURL := withScheme resourceURL in
  match url_Parse L resourceURL with
  | None => resourceURL
  | Some u => net_url.Scheme u +:+ "://" +:+ net_url.Host u
  end.

(** [getKnownServiceFavicon] *)
Definition getKnownServiceFavicon (resourceURL : string) : string :=
  match url_Parse L resourceURL with
  | None => ""
  | Some u =>
      let domain := strings_ToLower L (net_url.Host u) in
      let domain :=
        if strings_HasPrefix domain "www." then slice_from 4 domain else domain in
      match knownServices !! domain with
      | Some faviconURL => faviconURL
      | None => ""
      end
  end.

(** The attribute loop of [traverse]: later attributes overwrite earlier
    ones with the same key. *)
Definition readAttrs (attrs : list html.Attribute) : string * string * string :=
  fold_left
    (fun '(rel, href, sizes) attr =>
       if String.eqb (html.Key attr) "rel"
       then (strings_ToLower L (strings_TrimSpace L (html.Val attr)), href, sizes)
       else if String.eqb (html.Key attr) "href"
       then (rel, strings_TrimSpace L (html.Val attr), sizes)
       else if String.eqb (html.Key attr) "sizes"
       then (rel, href, strings_TrimSpace L (html.Val attr))
       else (rel, href, sizes))
    attrs ("", "", "").

Definition largeSize (sizes : string) : bool :=
  negb (String.eqb sizes "")
  && (strings_Contains sizes "32x32" || strings_Contains sizes "64x64"
      || strings_Contains sizes "128x128").

(** What one [<link>] element contributes to [candidates]. *)
Definition linkCandidate (baseURL : net_url.URL) (attrs : list html.Attribute)
  : list IconCandidate :=
  let '(rel, href, sizes) := readAttrs attrs in
  match relPriorities !! rel with
  | Some priority =>
      if negb (String.eqb href "") then
        match url_Parse L href with
        | Some iconURL =>
            let absoluteURL :=
              URL_String L (URL_ResolveReference L baseURL iconURL) in
            let priority := if largeSize sizes then priority - 1 else priority in
            [ mkIconCandidate absoluteURL priority ]
        | None => []
        end
      else []
  | None => []
  end.

(** The closure [traverse]; the captured slice is threaded through. *)
Fixpoint traverse (baseURL : net_url.URL) (n : html.Node)
         (candidates : list IconCandidate) : list IconCandidate :=
  match n with
  | html.mkNode ty data attrs children =>
      let candidates :=
        if html.is_link n
        then candidates ++ linkCandidate baseURL attrs
        else candidates in
      (fix siblings (cs : list html.Node) (acc : list IconCandidate) :=
         match cs with
         | [] => acc
         | c :: cs' => siblings cs' (traverse baseURL c acc)
         end) children candidates
  end.

(** [findIconCandidates] *)
Definition findIconCandidates (doc : html.Node) (baseURL : net_url.URL)
  : list IconCandidate :=
  sortCandidates (traverse baseURL doc []).
End Pure.

(** ** The world the resolver runs in

    A resolution talks to the network and to the Redis cache.  Both are
    outside the program: the network is an oracle that answers a request
    given everything that happened before it, and every call the resolver
    makes is recorded in a trace (newest event first). *)

Inductive Stage : Type :=
| KnownService | Standard | HTML | Regex | DefaultIcon.

Inductive Event : Type :=
| EvStage (s : Stage)                              (* a cascade state is entered *)
| EvCacheGet (resourceURL : string)                (* cacheRepo.GetFaviconBase64 *)
| EvCacheStore (resourceURL faviconBase64 : string) (* cacheRepo.StoreFaviconBase64 *)
| EvPageFetch (url : string)                       (* client.Do of the page client *)
| EvHead (url : string)                            (* client.Head of the prober *)
| EvDownload (url : string).                       (* client.Get of the downloader *)

Module http.
(** What the resolver reads of an [*http.Response]: the status code, the
    values of [Header.Get] for the two headers it asks for (the empty
    string when the header has no value), the outcome of [io.ReadAll] on
    the body ([None] for a read error) and [Request.URL.String()]. *)
Record Response : Type := mkResponse {
  StatusCode : Z;
  Location : string;
  ContentType : string;
  Body : option string;
  RequestURL : string
}.
Definition StatusOK : Z := 200.
End http.

(** ** The Redis server

    The Redis server is outside the repository.  The commands the
    repository sends are modelled as Redis documents them: a key holds a
    string and possibly a time at which it expires; an expired key
    behaves as a missing one.  Time is counted in seconds.  A round trip
    to the server may fail; the [tape] of the server says which of the
    coming round trips do (when it is used up they succeed), and a failed
    round trip changes nothing. *)

Definition Hour : Z := 3600.
Definition PasswordResetTokenTTL : Z := Hour.
Definition EmailVerificationCodeTTL : Z := Hour * 24.
Definition FaviconCacheTTL : Z := Hour * 24 * 7.

Module redis.
Record Entry : Type := mkEntry {
  value : string;
  expireAt : option Z
}.

Record Server : Type := mkServer {
  db : gmap string Entry;
  clock : Z;
  tape : list bool
}.

Inductive Error : Type :=
| ConnError          (* the round trip failed *)
| NotInteger         (* the answer of INCR to a value that is no integer *)
| SyntaxError.       (* [strconv] could not read the value *)

(** The answer to GET: a value, [redis.Nil], or another error. *)
Inductive Reply : Type :=
| Value (v : string)
| Nil
| Failed (e : Error).

(** The entry of a key that has not expired. *)
Definition live (s : Server) (key : string) : option Entry :=
  match db s !! key with
  | Some e =>
      match expireAt e with
      | Some t => if clock s <? t then Some e else None
      | None => Some e
      end
  | None => None
  end.

Definition roundTrip (s : Server) : bool * Server :=
  match tape s with
  | [] => (true, s)
  | ok :: rest => (ok, mkServer (db s) (clock s) rest)
  end.

(** GET key *)
Definition Get (key : string) (s : Server) : Reply * Server :=
  let '(ok, s) := roundTrip s in
  if ok
  then (match live s key with Some e => Value (value e) | None => Nil end, s)
  else (Failed ConnError, s).

(** SET key val EX ttl *)
Definition Set_ (key val : string) (ttl : Z) (s : Server) : option Error * Server :=
  let '(ok, s) := roundTrip s in
  if ok
  then (None, mkServer (<[key := mkEntry val (Some (clock s + ttl))]> (db s))
                       (clock s) (tape s))
  else (Some ConnError, s).

(** DEL key *)
Definition Del (key : string) (s : Server) : option Error * Server :=
  let '(ok, s) := roundTrip s in
  if ok
  then (None, mkServer (delete key (db s)) (clock s) (tape s))
  else (Some ConnError, s).

(** The integer a value stands for, when INCR accepts it: the decimal
    form without sign or zeros in front, within 64 bits. *)
Definition integer (v : string) : option Z :=
  match option_map Z.of_int (NilZero.int_of_string v) with
  | Some n =>
      if String.eqb (NilZero.string_of_int (Z.to_int n)) v
         && (- 2 ^ 63 <=? n) && (n <? 2 ^ 63)
      then Some n else None
  | None => None
  end.

(** INCR key on the keys of [s]. *)
Definition incr (key : string) (s : Server) : option Error * gmap string Entry :=
  match live s key with
  | None => (None, <[key := mkEntry "1" None]> (db s))
  | Some e =>
      match integer (value e) with
      | Some n =>
          if n <? 2 ^ 63 - 1
          then (None, <[key := mkEntry (NilZero.string_of_int (Z.to_int (n + 1)))
                                       (expireAt e)]> (db s))
          else (Some NotInteger, db s)
      | None => (Some NotInteger, db s)
      end
  end.

(** EXPIRE key ttl on the keys of [s]. *)
Definition expire (key : string) (ttl : Z) (s : Server) : gmap string Entry :=
  match live s key with
  | Some e => <[key := mkEntry (value e) (Some (clock s + ttl))]> (db s)
  | None => db s
  end.

(** The pipeline [Incr(key); Expire(key, ttl)] and its [Exec]: one round
    trip; the second command runs whatever the first answered, and
    [Exec] reports the first error. *)
Definition IncrExpire (key : string) (ttl : Z) (s : Server) : option Error * Server :=
  let '(ok, s) := roundTrip s in
  if ok
  then
    let '(err, d) := incr key s in
    let s1 := mkServer d (clock s) (tape s) in
    (err, mkServer (expire key ttl s1) (clock s) (tape s))
  else (Some ConnError, s).
End redis.

(** [None] is a non-nil error of the client call. *)
Record Network : Type := mkNetwork {
  client_Do : list Event -> string -> option http.Response;
  client_Head : list Event -> string -> option http.Response;
  client_Get : list Event -> string -> option http.Response;
  redis_up : list Event -> bool;
  (** the clock of the Redis server when the next command reaches it *)
  redis_time : list Event -> Z
}.

Record World : Type := mkWorld {
  redis : gmap string redis.Entry;
  trace : list Event
}.

Inductive error : Type :=
| ErrRedis
| ErrCreateRequest
| ErrFetchURL
| ErrNon200 (code : Z)
| ErrParseURL
| ErrReadBody
| ErrParseHTML
| ErrNoFavicon
| ErrBaseDomain
| ErrDownload
| ErrReadImage
| ErrEmptyImage.

(** State monad over the world. *)
Definition M (A : Type) : Type := World -> A * World.

#[global] Instance M_ret : MRet M := fun A a w => (a, w).
#[global] Instance M_bind : MBind M :=
  fun A B f m w => let '(a, w') := m w in f a w'.

Definition emit (e : Event) : M unit :=
  fun w => (tt, mkWorld (redis w) (e :: trace w)).

Definition nonEmpty (s : string) : bool := negb (String.eqb s "").

(** [or_else a k]: the repeated shape
    [if v, ok := a(); ok { return v, nil }; k()]. *)
Definition or_else (a : M (option string)) (k : M (string * option error))
  : M (string * option error) :=
  r ← a;
  match r with
  | Some v => mret (v, None)
  | None => k
  end.

(** ** cache-repository.go: the favicon part of [redisRepository] *)

Definition getFaviconBase64Key (resourceURL : string) : string :=
  "favicon_base64:" +:+ resourceURL.

Section Resolver.
Context (L : GoLibs) (N : Network).

(** The Redis server as the next command finds it: the keys of the world
    at the time the network gives. *)
Definition serverNow (w : World) : redis.Server :=
  redis.mkServer (redis w) (redis_time N (trace w)) [].

(** [redisRepository.StoreFaviconBase64], a [Set] with [FaviconCacheTTL];
    [Some ErrRedis] when [Set] fails. *)
Definition StoreFaviconBase64 (resourceURL faviconBase64 : string)
  : M (option error) :=
  fun w =>
    let t := EvCacheStore resourceURL faviconBase64 :: trace w in
    if redis_up N (trace w)
    then (None,
          mkWorld (<[getFaviconBase64Key resourceURL :=
                       redis.mkEntry faviconBase64
                         (Some (redis_time N (trace w) + FaviconCacheTTL))]> (redis w)) t)
    else (Some ErrRedis, mkWorld (redis w) t).

(** [redisRepository.GetFaviconBase64]: a missing or expired key
    ([redis.Nil]) is the empty string without an error. *)
Definition GetFaviconBase64 (resourceURL : string) : M (string * option error) :=
  fun w =>
    let t := EvCacheGet resourceURL :: trace w in
    if redis_up N (trace w)
    then (match redis.live (serverNow w) (getFaviconBase64Key resourceURL) with
          | Some e => (redis.value e, None)
          | None => ("", None)
          end, mkWorld (redis w) t)
    else (("", Some ErrRedis), mkWorld (redis w) t).

Definition page_Do (url : string) : M (option http.Response) :=
  fun w => (client_Do N (trace w) url, mkWorld (redis w) (EvPageFetch url :: trace w)).

Definition probe_Head (url : string) : M (option http.Response) :=
  fun w => (client_Head N (trace w) url, mkWorld (redis w) (EvHead url :: trace w)).

Definition download_Get (url : string) : M (option http.Response) :=
  fun w => (client_Get N (trace w) url, mkWorld (redis w) (EvDownload url :: trace w)).

(** [downloadAndEncodeToBase64] *)
Definition downloadAndEncodeToBase64 (imageURL : string)
  : M (string * option error) :=
  resp ← download_Get imageURL;
  match resp with
  | None => mret ("", Some ErrDownload)
  | Some resp =>
      if negb (http.StatusCode resp =? http.StatusOK)
      then mret ("", Some (ErrNon200 (http.StatusCode resp)))
      else
        match http.Body resp with
        | None => mret ("", Some ErrReadImage)
        | Some imageData =>
            if Nat.eqb (String.length imageData) 0
            then mret ("", Some ErrEmptyImage)
            else
              let contentType := http.ContentType resp in
              let contentType :=
                if String.eqb contentType "" then "image/x-icon" else contentType in
              let base64Data := base64_EncodeToString imageData in
              mret ("data:" +:+ contentType +:+ ";base64," +:+ base64Data, None)
        end
  end.

Definition standardPaths : list string :=
  [ "/favicon.ico"; "/apple-touch-icon.png"; "/apple-touch-icon-120x120.png";
    "/apple-touch-icon-152x152.png"; "/apple-touch-icon-180x180.png";
    "/apple-touch-icon-precomposed.png"; "/apple-icon.png";
    "/android-chrome-192x192.png"; "/icon-192x192.png"; "/icon.png";
    "/favicon.png"; "/favicon-32x32.png"; "/favicon-16x16.png" ].

(** The loop of [checkStandardFaviconLocations]. *)
Fixpoint probePaths (baseURL : net_url.URL) (paths : list string) : M string :=
  match paths with
  | [] => mret ""
  | path :: rest =>
      let iconURL := net_url.Scheme baseURL +:+ "://" +:+ net_url.Host baseURL +:+ path in
      resp ← probe_Head iconURL;
      match resp with
      | None => probePaths baseURL rest
      | Some resp =>
          if http.StatusCode resp =? http.StatusOK
          then mret iconURL
          else probePaths baseURL rest
      end
  end.

Definition checkStandardFaviconLocations (baseURL : net_url.URL) : M string :=
  probePaths baseURL standardPaths.

(** The block that follows every candidate URL of the cascade:
    download it; when that gives a non-empty payload without error, store
    it under the normalized URL (if there is a cache) and report it. *)
Definition downloadAndStore (cacheRepo : bool) (normalizedURL imageURL : string)
  : M (option string) :=
  '(faviconBase64, err) ← downloadAndEncodeToBase64 imageURL;
  match err with
  | None =>
      if nonEmpty faviconBase64 then
        (if cacheRepo
         then _ ← StoreFaviconBase64 normalizedURL faviconBase64; mret (Some faviconBase64)
         else mret (Some faviconBase64))
      else mret None
  | Some _ => mret None
  end.

(** A candidate URL that may be the empty string (nothing found). *)
Definition downloadIfFound (cacheRepo : bool) (normalizedURL imageURL : string)
  : M (option string) :=
  if nonEmpty imageURL
  then downloadAndStore cacheRepo normalizedURL imageURL
  else mret None.

(** [tryFaviconFromBaseDomain] *)
Definition tryFaviconFromBaseDomain (cacheRepo : bool) (normalizedURL : string)
           (baseURL : net_url.URL) : M (string * option error) :=
  or_else (_ ← emit (EvStage KnownService);
           downloadIfFound cacheRepo normalizedURL
             (getKnownServiceFavicon L (URL_String L baseURL)))
  (or_else (_ ← emit (EvStage Standard);
            standardIconURL ← checkStandardFaviconLocations baseURL;
            downloadIfFound cacheRepo normalizedURL standardIconURL)
  (mret ("", Some ErrBaseDomain))).

(** The [range candidates] loop of [FetchFaviconBase64]. *)
Fixpoint tryCandidates (cacheRepo : bool) (normalizedURL : string)
         (candidates : list IconCandidate) : M (option string) :=
  match candidates with
  | [] => mret None
  | candidate :: rest =>
      r ← downloadAndStore cacheRepo normalizedURL (URL candidate);
      match r with
      | Some v => mret (Some v)
      | None => tryCandidates cacheRepo normalizedURL rest
      end
  end.

Definition dq : string := String (ascii_of_nat 34) EmptyString.
(** The character classes ["'] and [^"'] of the patterns. *)
Definition q : string := "[" +:+ dq +:+ "']".
Definition nq : string := "[^" +:+ dq +:+ "']".
Definition cap : string := "(" +:+ nq +:+ "+)".

Definition patterns : list string :=
  [ "<link[^>]*rel=" +:+ q +:+ "(?:shortcut\s+)?icon" +:+ q +:+ "[^>]*href=" +:+ q +:+ cap +:+ q;
    "<link[^>]*href=" +:+ q +:+ cap +:+ q +:+ "[^>]*rel=" +:+ q +:+ "(?:shortcut\s+)?icon" +:+ q;
    "<link[^>]*rel=" +:+ q +:+ "apple-touch-icon" +:+ nq +:+ "*" +:+ q +:+ "[^>]*href=" +:+ q +:+ cap +:+ q;
    "<link[^>]*href=" +:+ q +:+ cap +:+ q +:+ "[^>]*rel=" +:+ q +:+ "apple-touch-icon" +:+ nq +:+ "*" +:+ q;
    "<meta[^>]*property=" +:+ q +:+ "og:image" +:+ q +:+ "[^>]*content=" +:+ q +:+ cap +:+ q;
    "<meta[^>]*content=" +:+ q +:+ cap +:+ q +:+ "[^>]*property=" +:+ q +:+ "og:image" +:+ q;
    "<meta[^>]*name=" +:+ q +:+ "twitter:image" +:+ q +:+ "[^>]*content=" +:+ q +:+ cap +:+ q;
    "<meta[^>]*content=" +:+ q +:+ cap +:+ q +:+ "[^>]*name=" +:+ q +:+ "twitter:image" +:+ q ].

(** The loop of [findIconWithRegex]. *)
Fixpoint scanPatterns (html : string) (baseURL : net_url.URL) (ps : list string)
  : string :=
  match ps with
  | [] => ""
  | pattern :: rest =>
      match regexp_FindStringSubmatch L ("(?i)" +:+ pattern) html with
      | _ :: m1 :: _ =>
          match url_Parse L m1 with
          | None => scanPatterns html baseURL rest
          | Some iconURL =>
              let iconURL :=
                if String.eqb (net_url.Scheme iconURL) ""   (* !iconURL.IsAbs() *)
                then URL_ResolveReference L baseURL iconURL
                else iconURL in
              URL_String L iconURL
          end
      | _ => scanPatterns html baseURL rest
      end
  end.

Definition findIconWithRegex (html : string) (baseURL : net_url.URL) : string :=
  scanPatterns html baseURL patterns.

Definition authLocation (location : string) : bool :=
  strings_Contains location "login" || strings_Contains location "signin"
  || strings_Contains location "auth".

(** [FetchFaviconBase64] from the page request on, for a response with
    status 200. *)
Definition discoverFromPage (cacheRepo : bool) (normalizedURL : string)
           (resp : http.Response) : M (string * option error) :=
  let finalURL := http.RequestURL resp in
  match url_Parse L finalURL with
  | None => mret ("", Some ErrParseURL)
  | Some baseURL =>
      match http.Body resp with
      | None => mret ("", Some ErrReadBody)
      | Some body =>
          or_else (_ ← emit (EvStage Standard);
                   standardIconURL ← checkStandardFaviconLocations baseURL;
                   downloadIfFound cacheRepo normalizedURL standardIconURL)
          (_ ← emit (EvStage HTML);
           match html_Parse L body with
           | None => mret ("", Some ErrParseHTML)
           | Some doc =>
               or_else (tryCandidates cacheRepo normalizedURL
                          (findIconCandidates L doc baseURL))
               (or_else (_ ← emit (EvStage Regex);
                         downloadIfFound cacheRepo normalizedURL
                           (findIconWithRegex body baseURL))
               (or_else (_ ← emit (EvStage DefaultIcon);
                         downloadAndStore cacheRepo normalizedURL
                           (net_url.Scheme baseURL +:+ "://" +:+ net_url.Host baseURL
                            +:+ "/favicon.ico"))
               (mret ("", Some ErrNoFavicon))))
           end)
      end
  end.

(** [FetchFaviconBase64] after the request has been sent: the two
    short-circuits to the base domain, then discovery from the page. *)
Definition afterPageFetch (cacheRepo : bool) (normalizedURL resourceURL : string)
           (resp : http.Response) : M (string * option error) :=
  let nonOK :=
    if negb (http.StatusCode resp =? http.StatusOK) then
      match url_Parse L resourceURL with
      | Some baseURL => tryFaviconFromBaseDomain cacheRepo normalizedURL baseURL
      | None => mret ("", Some (ErrNon200 (http.StatusCode resp)))
      end
    else discoverFromPage cacheRepo normalizedURL resp in
  if (300 <=? http.StatusCode resp) && (http.StatusCode resp <? 400)
     && authLocation (http.Location resp)
  then
    match url_Parse L resourceURL with
    | Some baseURL => tryFaviconFromBaseDomain cacheRepo normalizedURL baseURL
    | None => nonOK
    end
  else nonOK.

(** The cache lookup that opens [FetchFaviconBase64]. *)
Definition cacheLookup (cacheRepo : bool) (normalizedURL : string)
  : M (option string) :=
  if cacheRepo then
    '(cachedFaviconBase64, err) ← GetFaviconBase64 normalizedURL;
    match err with
    | None => if nonEmpty cachedFaviconBase64
              then mret (Some cachedFaviconBase64) else mret None
    | Some _ => mret None
    end
  else mret None.

(** [FetchFaviconBase64]. [cacheRepo] is [false] for a nil repository.
    [http.NewRequestWithContext] fails exactly when the URL does not
    parse. *)
Definition FetchFaviconBase64 (cacheRepo : bool) (resourceURL : string)
  : M (string * option error) :=
  let normalizedURL := normalizeURL L resourceURL in
  or_else (cacheLookup cacheRepo normalizedURL)
  (let resourceURL := withScheme resourceURL in
   or_else (_ ← emit (EvStage KnownService);
            downloadIfFound cacheRepo normalizedURL
              (getKnownServiceFavicon L resourceURL))
   (match url_Parse L resourceURL with
    | None => mret ("", Some ErrCreateRequest)
    | Some _ =>
        resp ← page_Do resourceURL;
        match resp with
        | None => mret ("", Some ErrFetchURL)
        | Some resp => afterPageFetch cacheRepo normalizedURL resourceURL resp
        end
    end)).

(** [FetchFavicon] *)
Definition FetchFavicon (cacheRepo : bool) (resourceURL : string)
  : M (string * option error) :=
  '(_, err) ← FetchFaviconBase64 cacheRepo resourceURL;
  match err with
  | Some e => mret ("", Some e)
  | None => mret ("", None)
  end.

(** [BookmarkHTMLParser.getFavicon] *)
Definition getFavicon (faviconCache : bool) (bookmarkURL : string) : M string :=
  if String.eqb bookmarkURL "" then mret ""
  else
    '(favicon, err) ← FetchFaviconBase64 faviconCache bookmarkURL;
    match err with
    | Some _ => mret ""
    | None => mret favicon
    end.
End Resolver.

(** What a GET of [key] is answered with in the world [w]: the value of the
    entry, unless it is missing or has expired. *)
Definition cachedIn (N : Network) (w : World) (key : string) : option string :=
  redis.value <$> redis.live (serverNow N w) key.

(** ** The bookmark import parser: [fetchFaviconsParallel]

    The function starts one goroutine per bookmark with a URL and waits for
    all of them.  Its executions are the runs of a transition system: one
    program counter for the function itself, one per goroutine, the number
    of elements in the buffered channel [semaphore] and the counter of the
    wait group.  Any enabled step may be taken next. *)

Module model.
Record Bookmark : Type := mkBookmark {
  CreatedAt : Z;
  UpdatedAt : Z;
  Title : string;
  URL : string;
  Favicon : string;
  ID : N;
  UserID : N;
  ShowText : bool
}.

(** [b.Favicon = favicon] *)
Definition setFavicon (favicon : string) (b : Bookmark) : Bookmark :=
  mkBookmark (CreatedAt b) (UpdatedAt b) (Title b) (URL b) favicon
             (ID b) (UserID b) (ShowText b).
End model.

(** [make(chan struct{}, 10)] *)
Definition semaphoreCap : nat := 10.

Inductive MainPC : Type :=
| Loop (i : nat)     (* at the head of [for i := range bookmarks] *)
| Wait               (* at [wg.Wait()] *)
| Returned.

Inductive TaskPC : Type :=
| NotSpawned                     (* no goroutine for this index *)
| Acquire                        (* before [semaphore <- struct{}{}] *)
| Resolve                        (* before [p.getFavicon(ctx, bookmarks[idx].URL)] *)
| WriteBack (favicon : string)   (* before [bookmarks[idx].Favicon = favicon] *)
| Release                        (* deferred [<-semaphore] *)
| WgDone                         (* deferred [wg.Done()] *)
| Exited.

Record Batch : Type := mkBatch {
  mainPC : MainPC;
  tasks : list TaskPC;
  semaphore : nat;
  wg : nat;
  bookmarks : list model.Bookmark;
  (** history of the calls of [getFavicon]: index and argument *)
  resolutions : list (nat * string)
}.

Definition initBatch (bms : list model.Bookmark) : Batch :=
  mkBatch (Loop 0) (replicate (length bms) NotSpawned) 0 0 bms [].

(** A goroutine holds a slot of the semaphore between its send and its
    receive. *)
Definition holdsSlot (t : TaskPC) : bool :=
  match t with
  | Resolve | WriteBack _ | Release => true
  | _ => false
  end.

(** A resolution is in flight while [getFavicon] runs or its result is
    being written. *)
Definition inFlight (t : TaskPC) : bool :=
  match t with
  | Resolve | WriteBack _ => true
  | _ => false
  end.

Definition live (t : TaskPC) : bool :=
  match t with
  | NotSpawned | Exited => false
  | _ => true
  end.

Fixpoint count (f : TaskPC -> bool) (ts : list TaskPC) : nat :=
  match ts with
  | [] => O
  | t :: ts' => ((if f t then 1 else 0) + count f ts')%nat
  end.

Definition countTasks (f : TaskPC -> bool) (s : Batch) : nat := count f (tasks s).

Section Batch.
Context (L : GoLibs) (faviconCache : bool).

(** The network and the cache are shared with every other goroutine and
    with the outside: a call of [getFavicon] runs against some network
    and some world among those the environment [Env] allows. *)
Context (Env : Network -> World -> Prop).

Inductive step : Batch -> Batch -> Prop :=
| step_skip s i b :
    mainPC s = Loop i ->
    bookmarks s !! i = Some b ->
    model.URL b = "" ->
    step s (mkBatch (Loop (S i)) (tasks s) (semaphore s) (wg s)
                    (bookmarks s) (resolutions s))
| step_spawn s i b :
    mainPC s = Loop i ->
    bookmarks s !! i = Some b ->
    model.URL b <> "" ->
    step s (mkBatch (Loop (S i)) (<[i := Acquire]> (tasks s)) (semaphore s)
                    (S (wg s)) (bookmarks s) (resolutions s))
| step_loop_end s i :
    mainPC s = Loop i ->
    bookmarks s !! i = None ->
    step s (mkBatch Wait (tasks s) (semaphore s) (wg s)
                    (bookmarks s) (resolutions s))
| step_wait s :
    mainPC s = Wait ->
    wg s = O ->
    step s (mkBatch Returned (tasks s) (semaphore s) (wg s)
                    (bookmarks s) (resolutions s))
| step_acquire s idx :
    tasks s !! idx = Some Acquire ->
    (semaphore s < semaphoreCap)%nat ->
    step s (mkBatch (mainPC s) (<[idx := Resolve]> (tasks s)) (S (semaphore s))
                    (wg s) (bookmarks s) (resolutions s))
| step_resolve s idx b (N : Network) (w : World) :
    Env N w ->
    tasks s !! idx = Some Resolve ->
    bookmarks s !! idx = Some b ->
    step s (mkBatch (mainPC s)
                    (<[idx := WriteBack (getFavicon L N faviconCache (model.URL b) w).1]>
                       (tasks s))
                    (semaphore s) (wg s) (bookmarks s)
                    ((idx, model.URL b) :: resolutions s))
| step_write s idx favicon b :
    tasks s !! idx = Some (WriteBack favicon) ->
    bookmarks s !! idx = Some b ->
    step s (mkBatch (mainPC s) (<[idx := Release]> (tasks s)) (semaphore s) (wg s)
                    (<[idx := model.setFavicon favicon b]> (bookmarks s))
                    (resolutions s))
| step_release s idx :
    tasks s !! idx = Some Release ->
    step s (mkBatch (mainPC s) (<[idx := WgDone]> (tasks s)) (pred (semaphore s))
                    (wg s) (bookmarks s) (resolutions s))
| step_done s idx :
    tasks s !! idx = Some WgDone ->
    step s (mkBatch (mainPC s) (<[idx := Exited]> (tasks s)) (semaphore s)
                    (pred (wg s)) (bookmarks s) (resolutions s)).

Inductive reachable (bms : list model.Bookmark) : Batch -> Prop :=
| reach_init : reachable bms (initBatch bms)
| reach_step s s' : reachable bms s -> step s s' -> reachable bms s'.
End Batch.

(** ** A reference instance of the library parameters

    Used only to evaluate the definitions on closed inputs.  It covers
    ASCII text and URLs of the shape scheme://host/path?query#fragment
    without user information, port checks or escapes, on which it agrees
    with Go: a URL with a control byte or with a space in its host does not
    parse; a reference with a scheme resolves to itself and an
    absolute-path reference replaces the path of the base. *)

Module Ref.
Definition lowerAscii (c : ascii) : ascii :=
  let n := nat_of_ascii c in
  if (65 <=? n)%nat && (n <=? 90)%nat then ascii_of_nat (n + 32) else c.

Fixpoint ToLower (s : string) : string :=
  match s with
  | EmptyString => EmptyString
  | String c t => String (lowerAscii c) (ToLower t)
  end.

Definition isSpace (c : ascii) : bool :=
  let n := nat_of_ascii c in
  (n =? 32)%nat || ((9 <=? n)%nat && (n <=? 13)%nat).

Fixpoint trimLeft (s : string) : string :=
  match s with
  | String c t => if isSpace c then trimLeft t else s
  | EmptyString => EmptyString
  end.

Fixpoint trimRight (s : string) : string :=
  match s with
  | EmptyString => EmptyString
  | String c t =>
      match trimRight t with
      | EmptyString => if isSpace c then EmptyString else String c EmptyString
      | t' => String c t'
      end
  end.

Definition TrimSpace (s : string) : string := trimRight (trimLeft s).

Definition isCTL (c : ascii) : bool :=
  let n := nat_of_ascii c in (n <? 32)%nat || (n =? 127)%nat.

Fixpoint any (p : ascii -> bool) (s : string) : bool :=
  match s with
  | EmptyString => false
  | String c t => p c || any p t
  end.

(** [strings.Cut s sep] for a one-byte separator. *)
Fixpoint cut (sep : ascii) (s : string) : string * string :=
  match s with
  | EmptyString => (EmptyString, EmptyString)
  | String c t =>
      if Ascii.eqb c sep then (EmptyString, t)
      else let '(a, b) := cut sep t in (String c a, b)
  end.

(** The part of [s] before the first ["/"], and the rest with the slash. *)
Fixpoint splitSlash (s : string) : string * string :=
  match s with
  | EmptyString => (EmptyString, EmptyString)
  | String c t =>
      if Ascii.eqb c "/" then (EmptyString, s)
      else let '(a, b) := splitSlash t in (String c a, b)
  end.

Definition isLetter (c : ascii) : bool :=
  let n := nat_of_ascii (lowerAscii c) in (97 <=? n)%nat && (n <=? 122)%nat.

Definition isSchemeChar (c : ascii) : bool :=
  let n := nat_of_ascii c in
  ((48 <=? n)%nat && (n <=? 57)%nat) || (n =? 43)%nat || (n =? 45)%nat || (n =? 46)%nat.

(** [getScheme]: [None] for a missing protocol scheme. *)
Fixpoint getScheme (first : bool) (acc rest whole : string)
  : option (string * string) :=
  match rest with
  | EmptyString => Some (EmptyString, whole)
  | String c t =>
      if isLetter c then getScheme false (acc +:+ String c EmptyString) t whole
      else if isSchemeChar c then
        (if first then Some (EmptyString, whole)
         else getScheme false (acc +:+ String c EmptyString) t whole)
      else if Ascii.eqb c ":" then
        (if first then None else Some (acc, t))
      else Some (EmptyString, whole)
  end.

Definition Parse (rawURL : string) : option net_url.URL :=
  if any isCTL rawURL then None
  else
    let '(u, frag) := cut "#" rawURL in
    match getScheme true EmptyString u u with
    | None => None
    | Some (scheme, rest) =>
        let '(rest, query) := cut "?" rest in
        if strings_HasPrefix rest "//" then
          let '(authority, path) := splitSlash (slice_from 2 rest) in
          if any (fun c => Ascii.eqb c " ") authority then None
          else Some (net_url.mkURL (ToLower scheme) authority path query frag)
        else Some (net_url.mkURL (ToLower scheme) EmptyString rest query frag)
    end.

Definition URLString (u : net_url.URL) : string :=
  (if String.eqb (net_url.Scheme u) "" then "" else net_url.Scheme u +:+ ":")
  +:+ (if String.eqb (net_url.Host u) "" then "" else "//" +:+ net_url.Host u)
  +:+ net_url.Path u
  +:+ (if String.eqb (net_url.RawQuery u) "" then "" else "?" +:+ net_url.RawQuery u)
  +:+ (if String.eqb (net_url.Fragment u) "" then "" else "#" +:+ net_url.Fragment u).

Definition ResolveReference (base ref : net_url.URL) : net_url.URL :=
  if negb (String.eqb (net_url.Scheme ref) "") then ref
  else if negb (String.eqb (net_url.Host ref) "") then
    net_url.mkURL (net_url.Scheme base) (net_url.Host ref) (net_url.Path ref)
                  (net_url.RawQuery ref) (net_url.Fragment ref)
  else
    net_url.mkURL (net_url.Scheme base) (net_url.Host base) (net_url.Path ref)
                  (net_url.RawQuery ref) (net_url.Fragment ref).

(** The tree x/net/html builds for a page without markup. *)
Definition emptyDocument : html.Node :=
  html.mkNode html.DocumentNode "" []
    [ html.mkNode html.ElementNode "html" []
        [ html.mkNode html.ElementNode "head" [] [];
          html.mkNode html.ElementNode "body" [] [] ] ].

Definition libs : GoLibs :=
  mkGoLibs ToLower TrimSpace Parse URLString ResolveReference
           (fun _ => Some emptyDocument) (fun _ _ => []).
End Ref.

(** ** Vocabulary of the statements *)

(** One pass of the inner loop seen from the element at position [i]: the
    element that ends at [i], and what the pass leaves behind it. *)
Fixpoint sweep (x : IconCandidate) (rest : list IconCandidate)
  : IconCandidate * list IconCandidate :=
  match rest with
  | [] => (x, [])
  | y :: r =>
      if Priority x >? Priority y
      then let '(m, r') := sweep y r in (m, x :: r')
      else let '(m, r') := sweep x r in (m, y :: r')
  end.

Fixpoint selectFrom (n : nat) (l : list IconCandidate) : list IconCandidate :=
  match n, l with
  | S n', x :: rest => let '(m, r') := sweep x rest in m :: selectFrom n' r'
  | _, _ => l
  end.

Definition byPriority (a b : IconCandidate) : Prop := Priority a <= Priority b.

Definition withPriority (p : Z) (l : list IconCandidate) : list IconCandidate :=
  List.filter (fun c => Priority c =? p) l.

(** A sort is stable when the candidates of every priority come out in the
    order in which they went in. *)
Definition stableSort (input output : list IconCandidate) : Prop :=
  forall p, withPriority p output = withPriority p input.

(** The substrings of [sizes] that boost a candidate. *)
Definition advertisesLargeSize (sizes : string) : bool :=
  strings_Contains sizes "32x32" || strings_Contains sizes "64x64"
  || strings_Contains sizes "128x128".

Definition hasHTTPPrefix (s : string) : bool :=
  strings_HasPrefix s "http://" || strings_HasPrefix s "https://".

(** ** Closed inputs *)

Definition linkElement (attrs : list html.Attribute) : html.Node :=
  html.mkNode html.ElementNode "link" attrs [].

Definition link (rel href : string) : html.Node :=
  linkElement [ html.mkAttr "rel" rel; html.mkAttr "href" href ].

(** A document whose head holds the given [<link>] elements. *)
Definition documentWith (links : list html.Node) : html.Node :=
  html.mkNode html.DocumentNode "" []
    [ html.mkNode html.ElementNode "html" []
        [ html.mkNode html.ElementNode "head" [] links;
          html.mkNode html.ElementNode "body" [] [] ] ].

Definition examplePage : net_url.URL :=
  net_url.mkURL "https" "example.com" "/page" "" "".

(** Two icons of equal priority before one of better priority. *)
Definition tiedDocument : html.Node :=
  documentWith [ link "shortcut icon" "/a.png"; link "shortcut icon" "/b.png";
                 link "icon" "/c.png" ].

(** The elements of a document in the order [traverse] visits them. *)
Fixpoint preorder (n : html.Node) : list html.Node :=
  match n with
  | html.mkNode _ _ _ children =>
      n :: (fix all (cs : list html.Node) : list html.Node :=
              match cs with
              | [] => []
              | c :: cs' => preorder c ++ all cs'
              end) children
  end.

Definition attributes (n : html.Node) : list html.Attribute :=
  match n with html.mkNode _ _ attrs _ => attrs end.

Definition relTable : list (string * Z) :=
  [ ("icon", 1); ("shortcut icon", 2); ("apple-touch-icon", 3);
    ("apple-touch-icon-precomposed", 4); ("fluid-icon", 5);
    ("mask-icon", 6); ("alternate icon", 7) ].

(** The data URI the downloader builds from a response and its body. *)
Definition dataURI (resp : http.Response) (body : string) : string :=
  "data:"
  +:+ (if String.eqb (http.ContentType resp) "" then "image/x-icon"
       else http.ContentType resp)
  +:+ ";base64," +:+ base64_EncodeToString body.

Definition noResponse : list Event -> string -> option http.Response :=
  fun _ _ => None.

Definition pngResponse : http.Response :=
  http.mkResponse 200 "" "image/png" (Some "PNG") "".

(** A network on which the GitHub icon can be downloaded and nothing else
    answers. *)
Definition githubOnly : Network :=
  mkNetwork noResponse noResponse
    (fun _ url => if String.eqb url "https://github.com/favicon.ico"
                  then Some pngResponse else None)
    (fun _ => true) (fun _ => 0).

(** The same network with a Redis server that refuses every command. *)
Definition githubRedisDown : Network :=
  mkNetwork noResponse noResponse (client_Get githubOnly) (fun _ => false) (fun _ => 0).

Definition emptyWorld : World := mkWorld ∅ [].

(** *** Classes of events *)

Definition isStore (e : Event) : bool :=
  match e with EvCacheStore _ _ => true | _ => false end.

Definition isPageFetch (e : Event) : bool :=
  match e with EvPageFetch _ => true | _ => false end.

Definition cacheGetEvent (e : Event) : bool :=
  match e with EvCacheGet _ => true | _ => false end.

Definition downloadEvent (e : Event) : bool :=
  match e with EvDownload _ => true | _ => false end.

Definition probeEvent (e : Event) : bool :=
  match e with EvHead _ => true | _ => false end.

(** What the known-service state may do. *)
Definition knownServiceEvent (e : Event) : bool :=
  match e with EvStage KnownService | EvDownload _ => true | _ => false end.

(** What the discovery on the base domain may do, short of a cache write. *)
Definition baseDomainEvent (e : Event) : bool :=
  match e with
  | EvStage KnownService | EvStage Standard | EvHead _ | EvDownload _ => true
  | _ => false
  end.

(** What the discovery from a fetched page may do, short of a cache write. *)
Definition discoveryEvent (e : Event) : bool :=
  match e with
  | EvStage _ | EvHead _ | EvDownload _ => true
  | _ => false
  end.

(** Anything but a cache write. *)
Definition noStore (e : Event) : bool := negb (isStore e).

(** *** Outcomes of a part of the cascade *)

Section Outcomes.
Context (N : Network) (cacheRepo : bool) (normalizedURL : string).

(** From [w] to [w'] only events of class [P] happened and the cache
    holds what it held. *)
Definition quiet (P : Event -> bool) (w w' : World) : Prop :=
  exists new,
    trace w' = new ++ trace w /\ Forall (fun e => P e = true) new /\
    redis w' = redis w.

(** The payload [v] is stored under the normalized URL, if there is a
    cache repository, as the last step from [w1] to [w']. *)
Definition storedAfter (v : string) (w1 w' : World) : Prop :=
  if cacheRepo then
    trace w' = EvCacheStore normalizedURL v :: trace w1 /\
    redis w' = (if redis_up N (trace w1)
                then <[getFaviconBase64Key normalizedURL :=
                         redis.mkEntry v (Some (redis_time N (trace w1) + FaviconCacheTTL))]>
                       (redis w1)
                else redis w1)
  else w' = w1.

Definition found (P : Event -> bool) (v : string) (w w' : World) : Prop :=
  exists w1, quiet P w w1 /\ storedAfter v w1 w'.

(** Outcome of one attempt: a payload found and stored, or nothing. *)
Definition attempted (P : Event -> bool) (w : World) (r : option string)
           (w' : World) : Prop :=
  match r with
  | Some v => v <> "" /\ found P v w w'
  | None => quiet P w w'
  end.

(** Outcome of the rest of a resolution. *)
Definition resolved (P : Event -> bool) (w : World) (r : string * option error)
           (w' : World) : Prop :=
  match r.2 with
  | None => r.1 <> "" /\ found P r.1 w w'
  | Some _ => r.1 = "" /\ quiet P w w'
  end.
End Outcomes.

Definition storeFree (l : list Event) : Prop :=
  Forall (fun e => isStore e = false) l.

(** A world in which the icon of example.com is cached. *)
Definition cachedWorld : World :=
  mkWorld {[ "favicon_base64:https://example.com" :=
               redis.mkEntry "data:image/png;base64,UE5H" (Some FaviconCacheTTL) ]} [].

(** The key of the known-service table: the host, case-folded, without a
    leading "www.". *)
Definition bareDomain (L : GoLibs) (u : net_url.URL) : string :=
  let domain := strings_ToLower L (net_url.Host u) in
  if strings_HasPrefix domain "www." then slice_from 4 domain else domain.

#[global] Instance Stage_eq_dec : EqDecision Stage.
Proof. solve_decision. Defined.

#[global] Instance Event_eq_dec : EqDecision Event.
Proof. solve_decision. Defined.

Definition notFoundResponse : http.Response :=
  http.mkResponse 404 "" "text/html" (Some "") "https://example.com".

(** A site that answers every page request with 404 and has no icon at any
    conventional location. *)
Definition notFoundNet : Network :=
  mkNetwork (fun _ _ => Some notFoundResponse) noResponse noResponse (fun _ => true)
    (fun _ => 0).

(** A site whose page is served but which has no icon anywhere. *)
Definition okResponse : http.Response :=
  http.mkResponse 200 "" "text/html" (Some "") "https://example.com/page".

Definition noIconNet : Network :=
  mkNetwork (fun _ _ => Some okResponse) noResponse noResponse (fun _ => true)
    (fun _ => 0).

(** The same site seven days later on the clock of Redis. *)
Definition noIconAfterAWeek : Network :=
  mkNetwork (fun _ _ => Some okResponse) noResponse noResponse (fun _ => true)
    (fun _ => 604800).

(** *** The invariant of [fetchFaviconsParallel] *)

Section BatchInvariant.
Context (L : GoLibs) (faviconCache : bool) (Env : Network -> World -> Prop).

(** [favicon] is what some call [getFavicon(ctx, b.URL)] returned. *)
Definition resolvedIcon (b : model.Bookmark) (favicon : string) : Prop :=
  exists N w, Env N w /\ favicon = (getFavicon L N faviconCache (model.URL b) w).1.

(** The loop has passed index [i]. *)
Definition visited (s : Batch) (i : nat) : Prop :=
  match mainPC s with
  | Loop k => (i < k)%nat
  | _ => True
  end.

(** The calls of [getFavicon] made for index [i]. *)
Definition callsFor (i : nat) (s : Batch) : list (nat * string) :=
  List.filter (fun c => Nat.eqb c.1 i) (resolutions s).

(** How the record at index [i], given as [b] to the function, its
    goroutine and the calls made for it fit together. *)
Definition slotOK (s : Batch) (i : nat) (b : model.Bookmark) (t : TaskPC)
           (b' : model.Bookmark) : Prop :=
  match t with
  | NotSpawned =>
      b' = b /\ callsFor i s = [] /\ (visited s i -> model.URL b = "")
  | Acquire | Resolve =>
      b' = b /\ callsFor i s = [] /\ model.URL b <> "" /\ visited s i
  | WriteBack favicon =>
      b' = b /\ callsFor i s = [(i, model.URL b)] /\ model.URL b <> "" /\
      visited s i /\ resolvedIcon b favicon
  | Release | WgDone | Exited =>
      callsFor i s = [(i, model.URL b)] /\ model.URL b <> "" /\ visited s i /\
      exists favicon, resolvedIcon b favicon /\ b' = model.setFavicon favicon b
  end.

Record Inv (bms : list model.Bookmark) (s : Batch) : Prop := mkInv {
  inv_tasks : length (tasks s) = length bms;
  inv_bookmarks : length (bookmarks s) = length bms;
  inv_slots : forall i b, bms !! i = Some b ->
              exists t b', tasks s !! i = Some t /\ bookmarks s !! i = Some b' /\
                           slotOK s i b t b';
  inv_calls : forall i u, (i, u) ∈ resolutions s -> (i < length bms)%nat;
  inv_semaphore : semaphore s = countTasks holdsSlot s;
  inv_cap : (semaphore s <= semaphoreCap)%nat;
  inv_wg : wg s = countTasks live s;
  inv_returned : mainPC s = Returned -> countTasks live s = O
}.
End BatchInvariant.

(** *** A scheduler

    One step of the function or of the goroutine [idx], when it is enabled;
    every call of [getFavicon] runs against the network [N0] and the world
    [w0]. *)

Inductive Action : Type :=
| RunMain
| RunTask (idx : nat).

Section Scheduler.
Context (L : GoLibs) (faviconCache : bool) (N0 : Network) (w0 : World).

Definition execMain (s : Batch) : option Batch :=
  match mainPC s with
  | Loop i =>
      match bookmarks s !! i with
      | Some b =>
          if String.eqb (model.URL b) ""
          then Some (mkBatch (Loop (S i)) (tasks s) (semaphore s) (wg s)
                             (bookmarks s) (resolutions s))
          else Some (mkBatch (Loop (S i)) (<[i := Acquire]> (tasks s)) (semaphore s)
                             (S (wg s)) (bookmarks s) (resolutions s))
      | None => Some (mkBatch Wait (tasks s) (semaphore s) (wg s)
                              (bookmarks s) (resolutions s))
      end
  | Wait =>
      if Nat.eqb (wg s) 0
      then Some (mkBatch Returned (tasks s) (semaphore s) (wg s)
                         (bookmarks s) (resolutions s))
      else None
  | Returned => None
  end.

Definition execTask (idx : nat) (s : Batch) : option Batch :=
  match tasks s !! idx with
  | Some Acquire =>
      if Nat.ltb (semaphore s) semaphoreCap
      then Some (mkBatch (mainPC s) (<[idx := Resolve]> (tasks s)) (S (semaphore s))
                         (wg s) (bookmarks s) (resolutions s))
      else None
  | Some Resolve =>
      match bookmarks s !! idx with
      | Some b =>
          Some (mkBatch (mainPC s)
                  (<[idx := WriteBack (getFavicon L N0 faviconCache (model.URL b) w0).1]>
                     (tasks s))
                  (semaphore s) (wg s) (bookmarks s)
                  ((idx, model.URL b) :: resolutions s))
      | None => None
      end
  | Some (WriteBack favicon) =>
      match bookmarks s !! idx with
      | Some b =>
          Some (mkBatch (mainPC s) (<[idx := Release]> (tasks s)) (semaphore s) (wg s)
                        (<[idx := model.setFavicon favicon b]> (bookmarks s))
                        (resolutions s))
      | None => None
      end
  | Some Release =>
      Some (mkBatch (mainPC s) (<[idx := WgDone]> (tasks s)) (pred (semaphore s))
                    (wg s) (bookmarks s) (resolutions s))
  | Some WgDone =>
      Some (mkBatch (mainPC s) (<[idx := Exited]> (tasks s)) (semaphore s)
                    (pred (wg s)) (bookmarks s) (resolutions s))
  | _ => None
  end.

Definition exec (a : Action) (s : Batch) : option Batch :=
  match a with
  | RunMain => execMain s
  | RunTask idx => execTask idx s
  end.

Fixpoint schedule (acts : list Action) (s : Batch) : option Batch :=
  match acts with
  | [] => Some s
  | a :: rest =>
      match exec a s with
      | Some s' => schedule rest s'
      | None => None
      end
  end.
End Scheduler.

(** Two bookmarks, the second without URL and with an icon of its own. *)
Definition twoBookmarks : list model.Bookmark :=
  [ model.mkBookmark 0 0 "GitHub" "github.com/x" "" 1 1 true;
    model.mkBookmark 0 0 "empty" "" "kept" 2 1 true ].

(** The environment in which every resolution sees [githubOnly] and an
    empty cache. *)
Definition githubEnv (N : Network) (w : World) : Prop :=
  N = githubOnly /\ w = emptyWorld.

(** The loop runs to its end, then the one goroutine runs, then
    [wg.Wait()] returns. *)
Definition sequentialRun : list Action :=
  [ RunMain; RunMain; RunMain;
    RunTask 0; RunTask 0; RunTask 0; RunTask 0; RunTask 0;
    RunMain ].

(** *** A measure of the work that is left

    Steps a goroutine has before it, and steps the function has before it,
    counting for every index not yet visited the steps of the goroutine it
    may start. *)

Definition taskSteps (t : TaskPC) : nat :=
  match t with
  | Acquire => 5
  | Resolve => 4
  | WriteBack _ => 3
  | Release => 2
  | WgDone => 1
  | NotSpawned | Exited => 0
  end.

Fixpoint tasksSteps (ts : list TaskPC) : nat :=
  match ts with
  | [] => O
  | t :: ts' => (taskSteps t + tasksSteps ts')%nat
  end.

Definition mainSteps (s : Batch) : nat :=
  match mainPC s with
  | Loop i => (6 * (length (bookmarks s) - i) + 2)%nat
  | Wait => 1
  | Returned => 0
  end.

Definition stepsLeft (s : Batch) : nat := (mainSteps s + tasksSteps (tasks s))%nat.

(** The loop has run, the only goroutine holds a slot and is about to
    resolve. *)
Definition untilInFlight : list Action :=
  [ RunMain; RunMain; RunMain; RunTask 0 ].

(** ** favicon.go: the redirect policy of [createHTTPClient]

    [CheckRedirect] is called with the request about to be made and the
    requests made so far; [via] is [len(via)]. *)

Inductive RedirectDecision : Type :=
| FollowRedirect          (* [return nil] *)
| UseLastResponse         (* [return http.ErrUseLastResponse] *)
| TooManyRedirects.       (* [fmt.Errorf("too many redirects")] *)

Definition authRedirectTarget (reqURL : string) : bool :=
  strings_Contains reqURL "login" || strings_Contains reqURL "signin"
  || strings_Contains reqURL "auth" || strings_Contains reqURL "accounts.google.com".

Definition CheckRedirect (reqURL : string) (via : nat) : RedirectDecision :=
  if (10 <=? via)%nat then TooManyRedirects
  else if authRedirectTarget reqURL then UseLastResponse
  else FollowRedirect.

(** ** Vocabulary of the further statements *)

(** [sub] occurs in [s]. *)
Definition occursIn (sub s : string) : Prop :=
  exists before after, s = before +:+ sub +:+ after.

(** The URL probed for a conventional path. *)
Definition standardURL (baseURL : net_url.URL) (path : string) : string :=
  net_url.Scheme baseURL +:+ "://" +:+ net_url.Host baseURL +:+ path.

(** The trace after the first [i] of [paths] have been probed from [w]. *)
Definition probedSoFar (baseURL : net_url.URL) (paths : list string) (w : World)
           (i : nat) : list Event :=
  rev (map (fun p => EvHead (standardURL baseURL p)) (take i paths)) ++ trace w.

(** The trace after the first [i] of [candidates] have been downloaded
    without success from [w]. *)
Definition triedSoFar (candidates : list IconCandidate) (w : World) (i : nat)
  : list Event :=
  rev (map (fun c => EvDownload (URL c)) (take i candidates)) ++ trace w.

(** What the download of [url] gives after the history [t]: the data URI of
    the image, when the GET is answered with status 200 and a non-empty
    body. *)
Definition answersImage (N : Network) (t : list Event) (url : string)
  : option string :=
  match client_Get N t url with
  | Some resp =>
      match http.Body resp with
      | Some body =>
          if (http.StatusCode resp =? 200) && negb (String.eqb body "")
          then Some (dataURI resp body) else None
      | None => None
      end
  | None => None
  end.

(** The probe of [url] is answered with status 200 after the history [t]. *)
Definition answersOK (N : Network) (t : list Event) (url : string) : bool :=
  match client_Head N t url with
  | Some resp => http.StatusCode resp =? http.StatusOK
  | None => false
  end.

(** What a pattern of [findIconWithRegex] gives on a page: the parsed first
    capture, when there is a match and the capture parses. *)
Definition usableCapture (L : GoLibs) (html pattern : string) : option net_url.URL :=
  match regexp_FindStringSubmatch L ("(?i)" +:+ pattern) html with
  | _ :: m1 :: _ => url_Parse L m1
  | _ => None
  end.

Definition countEv (P : Event -> bool) (l : list Event) : nat :=
  length (List.filter P l).

(** From [w] to [w'] the discovery sent at most [n] HEAD probes, and
    besides them only downloads, stage marks and cache writes happened. *)
Definition probing (n : nat) (w w' : World) : Prop :=
  exists new,
    trace w' = new ++ trace w /\
    Forall (fun e => discoveryEvent e = true \/ isStore e = true) new /\
    (countEv probeEvent new <= n)%nat.

(** [v] is the data URI of an image that a GET of the downloader was
    answered with: status 200 and a non-empty body. *)
Definition downloadedIcon (N : Network) (v : string) : Prop :=
  exists t url resp body,
    client_Get N t url = Some resp /\ http.StatusCode resp = 200 /\
    http.Body resp = Some body /\ body <> "" /\ v = dataURI resp body.

(** The errors a resolution reports. *)
Definition reportedErrors : list error :=
  [ ErrCreateRequest; ErrFetchURL; ErrParseURL; ErrReadBody; ErrParseHTML;
    ErrNoFavicon; ErrBaseDomain ].

(** A result of the cascade past the cache: a downloaded icon, or one of
    the reported errors with an empty payload. *)
Definition iconOrError (N : Network) (r : string * option error) : Prop :=
  match r.2 with
  | None => downloadedIcon N r.1
  | Some e => r.1 = "" /\ e ∈ reportedErrors
  end.

(** ** Runs of the batch *)

(** [run n s s']: [n] transitions lead from [s] to [s']. *)
Inductive run (L : GoLibs) (faviconCache : bool) (Env : Network -> World -> Prop)
  : nat -> Batch -> Batch -> Prop :=
| run_refl s : run L faviconCache Env 0 s s
| run_step n s s1 s2 :
    run L faviconCache Env n s s1 -> step L faviconCache Env s1 s2 ->
    run L faviconCache Env (S n) s s2.

(** ** The import parser: [traverseHTML] and [ParseHTML]

    A [time.Time] field of a bookmark is held as its [Unix()] seconds, the
    one reading the repository takes of it; [zeroTime] is the zero value
    [time.Time{}], January 1 of year 1. *)

Definition zeroTime : Z := -62135596800.

(** [model.Bookmark{Title: title, URL: bookmarkURL}] *)
Definition newBookmark (title bookmarkURL : string) : model.Bookmark :=
  model.mkBookmark zeroTime zeroTime title bookmarkURL "" 0 0 false.

(** The attribute loop of [traverseHTML]: the value of the first attribute
    with key "href" (the loop breaks there), or the empty string. *)
Fixpoint firstHref (attrs : list html.Attribute) : string :=
  match attrs with
  | [] => ""
  | attr :: rest =>
      if String.eqb (html.Key attr) "href" then html.Val attr else firstHref rest
  end.

(** [n.FirstChild.Data] when the first child is a text node. *)
Definition firstText (children : list html.Node) : string :=
  match children with
  | html.mkNode html.TextNode data _ _ :: _ => data
  | _ => ""
  end.

Definition is_anchor (n : html.Node) : bool :=
  match n with
  | html.mkNode html.ElementNode d _ _ => String.eqb d "a"
  | _ => false
  end.

Section ImportParser.
Context (L : GoLibs).

(** What one [<a>] element appends to [*bookmarks]; an href that does not
    parse jumps to [nextNode]. *)
Definition anchorBookmark (attrs : list html.Attribute) (children : list html.Node)
  : list model.Bookmark :=
  let bookmarkURL := firstHref attrs in
  if negb (String.eqb bookmarkURL "") then
    match url_Parse L bookmarkURL with
    | None => []
    | Some _ => [ newBookmark (firstText children) bookmarkURL ]
    end
  else [].

(** [traverseHTML]; the slice behind the pointer is threaded through. *)
Fixpoint traverseHTML (n : html.Node) (bookmarks : list model.Bookmark)
  : list model.Bookmark :=
  match n with
  | html.mkNode ty data attrs children =>
      let bookmarks :=
        if is_anchor n
        then bookmarks ++ anchorBookmark attrs children
        else bookmarks in
      (fix siblings (cs : list html.Node) (acc : list model.Bookmark) :=
         match cs with
         | [] => acc
         | c :: cs' => siblings cs' (traverseHTML c acc)
         end) children bookmarks
  end.

(** [base64.StdEncoding.DecodeString], of Go's library; [None] is its
    error.  The shared network and cache are those of the batch. *)
Context (base64_DecodeString : string -> option string).
Context (faviconCache : bool) (Env : Network -> World -> Prop).

(** [ParseHTML] returns [r]; [None] is a non-nil error.  The slice that
    [traverseHTML] filled is handed to [fetchFaviconsParallel], whose
    goroutines write into it, and returned. *)
Definition ParseHTML (base64Data : string) (r : option (list model.Bookmark)) : Prop :=
  match base64_DecodeString base64Data with
  | None => r = None
  | Some data =>
      match html_Parse L data with
      | None => r = None
      | Some doc =>
          exists s,
            reachable L faviconCache Env (traverseHTML doc []) s /\
            mainPC s = Returned /\ r = Some (bookmarks s)
      end
  end.

(** [ParseBookmarksFromHTML] *)
Definition ParseBookmarksFromHTML (base64Data : string)
           (r : option (list model.Bookmark)) : Prop :=
  ParseHTML base64Data r.
End ImportParser.

(** What an element contributes to the import. *)
Definition children_of (n : html.Node) : list html.Node :=
  match n with html.mkNode _ _ _ children => children end.

Definition importedFrom (L : GoLibs) (n : html.Node) : list model.Bookmark :=
  if is_anchor n then anchorBookmark L (attributes n) (children_of n) else [].

(** ** The bookmark exporter: [sanitizeHTML] and [ExportToHTML] *)

(** The replacement [strings.NewReplacer] makes for one byte: all five
    old strings are single bytes, so every byte of the input is replaced
    on its own and the replacements are not scanned again. *)
Definition escapeByte (c : ascii) : string :=
  if Ascii.eqb c "&"%char then "&amp;"
  else if Ascii.eqb c "<"%char then "&lt;"
  else if Ascii.eqb c ">"%char then "&gt;"
  else if Ascii.eqb c (ascii_of_nat 34) then "&quot;"
  else if Ascii.eqb c "'"%char then "&#39;"
  else String c "".

(** [sanitizeHTML] *)
Fixpoint sanitizeHTML (input : string) : string :=
  match input with
  | EmptyString => ""
  | String c rest => escapeByte c +:+ sanitizeHTML rest
  end.

(** The bytes that open or close markup or an attribute value. *)
Definition markupByte (c : ascii) : bool :=
  Ascii.eqb c "<"%char || Ascii.eqb c ">"%char
  || Ascii.eqb c (ascii_of_nat 34) || Ascii.eqb c "'"%char.

(** The bytes [sanitizeHTML] replaces. *)
Definition specialByte (c : ascii) : bool :=
  Ascii.eqb c "&"%char || markupByte c.

Definition bytes (s : string) : list ascii := list_ascii_of_string s.

Definition nl : string := String (ascii_of_nat 10) EmptyString.

(** [fmt.Sprintf("%d", n)] for an [int64]. *)
Definition fmt_d (n : Z) : string := NilZero.string_of_int (Z.to_int n).

Definition exportHeader : string :=
  "<!DOCTYPE NETSCAPE-Bookmark-file-1>" +:+ nl +:+
  "<!-- This is an automatically generated file." +:+ nl +:+
  "     It will be read and overwritten." +:+ nl +:+
  "     DO NOT EDIT! -->" +:+ nl +:+
  "<META HTTP-EQUIV=" +:+ dq +:+ "Content-Type" +:+ dq +:+ " CONTENT=" +:+ dq
    +:+ "text/html; charset=UTF-8" +:+ dq +:+ ">" +:+ nl +:+
  "<meta http-equiv=" +:+ dq +:+ "Content-Security-Policy" +:+ dq +:+ nl +:+
  "      content=" +:+ dq
    +:+ "default-src 'self'; script-src 'none'; img-src data: *; object-src 'none'"
    +:+ dq +:+ "></meta>" +:+ nl +:+
  "<TITLE>Bookmarks</TITLE>" +:+ nl +:+
  "<H1>Меню закладок</H1>" +:+ nl +:+
  nl +:+
  "<DL><p>" +:+ nl.

(** The folder line; the two arguments are the two readings of
    [time.Now().Unix()]. *)
Definition exportFolder (now1 now2 : Z) : string :=
  "<DT><H3 ADD_DATE=" +:+ dq +:+ fmt_d now1 +:+ dq +:+ " LAST_MODIFIED=" +:+ dq
    +:+ fmt_d now2 +:+ dq +:+ " PERSONAL_TOOLBAR_FOLDER=" +:+ dq +:+ "true" +:+ dq
    +:+ ">Панель закладок</H3>" +:+ nl +:+
  "<DL><p>" +:+ nl.

Definition exportFooter : string :=
  "</DL><p>" +:+ nl +:+ "</DL>" +:+ nl.

(** The text between [<A ...>] and [</A>]. *)
Definition anchorText (bookmark : model.Bookmark) : string :=
  let title := sanitizeHTML (model.Title bookmark) in
  if String.eqb title "" then model.URL bookmark else title.

(** The body of the loop of [ExportToHTML]. *)
Definition exportLine (bookmark : model.Bookmark) : string :=
  let addDate := model.CreatedAt bookmark in
  let lastModified := model.UpdatedAt bookmark in
  let url := model.URL bookmark in
  let favicon := model.Favicon bookmark in
  "<DT><A HREF=" +:+ dq +:+ url +:+ dq +:+ " ADD_DATE=" +:+ dq +:+ fmt_d addDate +:+ dq
    +:+ " LAST_MODIFIED=" +:+ dq +:+ fmt_d lastModified +:+ dq
    +:+ " ICON_URI=" +:+ dq +:+ favicon +:+ dq +:+ ">" +:+ anchorText bookmark
    +:+ "</A>" +:+ nl.

Fixpoint exportLines (bookmarks : list model.Bookmark) : string :=
  match bookmarks with
  | [] => ""
  | bookmark :: rest => exportLine bookmark +:+ exportLines rest
  end.

(** The buffer of [ExportToHTML] before it is encoded. *)
Definition exportDocument (now1 now2 : Z) (bookmarks : list model.Bookmark) : string :=
  exportHeader +:+ exportFolder now1 now2 +:+ exportLines bookmarks +:+ exportFooter.

(** [ExportToHTML]; the error it returns is always nil. *)
Definition ExportToHTML (now1 now2 : Z) (bookmarks : list model.Bookmark)
  : string * option error :=
  (base64_EncodeToString (exportDocument now1 now2 bookmarks), None).

(** [ExportBookmarksToHTML] *)
Definition ExportBookmarksToHTML (now1 now2 : Z) (bookmarks : list model.Bookmark)
  : string * option error :=
  ExportToHTML now1 now2 bookmarks.

(** ** cache-repository.go: the other functions of [redisRepository] *)

(** [strconv.FormatUint(n, 10)] *)
Definition strconv_FormatUint (n : N) : string :=
  NilZero.string_of_uint (N.to_uint n).

(** [strconv.ParseUint(s, 10, 64)]: decimal digits only, at least one,
    and a value below 2^64. *)
Definition strconv_ParseUint (s : string) : option N :=
  match NilZero.uint_of_string s with
  | Some d => if (N.of_uint d <? 2 ^ 64)%N then Some (N.of_uint d) else None
  | None => None
  end.

(** [strconv.Atoi]: an optional sign, decimal digits, a 64-bit result. *)
Definition strconv_Atoi (s : string) : option Z :=
  let parsed :=
    match s with
    | EmptyString => None
    | String c rest =>
        if Ascii.eqb c "+"%char
        then option_map (fun d => Z.of_N (N.of_uint d)) (NilZero.uint_of_string rest)
        else option_map Z.of_int (NilZero.int_of_string s)
    end in
  match parsed with
  | Some n => if (- 2 ^ 63 <=? n) && (n <? 2 ^ 63) then Some n else None
  | None => None
  end.


(** State monad over the server. *)
Definition R (A : Type) : Type := redis.Server -> A * redis.Server.

#[global] Instance R_ret : MRet R := fun A a s => (a, s).
#[global] Instance R_bind : MBind R :=
  fun A B f m s => let '(a, s') := m s in f a s'.

Definition getResetTokenKey (token : string) : string :=
  "password_reset:" +:+ token.

Definition getEmailVerificationCodeKey (userID : N) : string :=
  "email_verification:user:" +:+ strconv_FormatUint userID.

Definition getEmailVerificationUserKey (code : string) : string :=
  "email_verification:code:" +:+ code.

Definition getFaviconKey (resourceURL : string) : string :=
  "favicon:" +:+ resourceURL.

Definition getVerificationAttemptsKey (userID : N) : string :=
  "verification_attempts:user:" +:+ strconv_FormatUint userID.

(** [Get(...).Uint64()] followed by the error handling the two lookups
    of a user ID share. *)
Definition userIDReply (r : redis.Reply) : N * option redis.Error :=
  match r with
  | redis.Value v =>
      match strconv_ParseUint v with
      | Some result => (result, None)
      | None => (0%N, Some redis.SyntaxError)
      end
  | redis.Nil => (0%N, None)
  | redis.Failed e => (0%N, Some e)
  end.

(** [Get(...).Result()] followed by the error handling the lookups of a
    string share. *)
Definition stringReply (r : redis.Reply) : string * option redis.Error :=
  match r with
  | redis.Value v => (v, None)
  | redis.Nil => ("", None)
  | redis.Failed e => ("", Some e)
  end.

(** [StoreResetToken] *)
Definition StoreResetToken (token : string) (userID : N) : R (option redis.Error) :=
  redis.Set_ (getResetTokenKey token) (strconv_FormatUint userID) PasswordResetTokenTTL.

(** [GetUserIDByResetToken] *)
Definition GetUserIDByResetToken (token : string) : R (N * option redis.Error) :=
  r ← redis.Get (getResetTokenKey token); mret (userIDReply r).

(** [DeleteResetToken] *)
Definition DeleteResetToken (token : string) : R (option redis.Error) :=
  redis.Del (getResetTokenKey token).

(** [StoreEmailVerificationCode] *)
Definition StoreEmailVerificationCode (userID : N) (code : string)
  : R (option redis.Error) :=
  err ← redis.Set_ (getEmailVerificationCodeKey userID) code EmailVerificationCodeTTL;
  match err with
  | Some e => mret (Some e)
  | None =>
      redis.Set_ (getEmailVerificationUserKey code) (strconv_FormatUint userID)
                 EmailVerificationCodeTTL
  end.

(** [GetEmailVerificationCode] *)
Definition GetEmailVerificationCode (userID : N) : R (string * option redis.Error) :=
  r ← redis.Get (getEmailVerificationCodeKey userID); mret (stringReply r).

(** [GetUserIDByVerificationCode] *)
Definition GetUserIDByVerificationCode (code : string) : R (N * option redis.Error) :=
  r ← redis.Get (getEmailVerificationUserKey code); mret (userIDReply r).

(** [DeleteEmailVerificationCode] *)
Definition DeleteEmailVerificationCode (userID : N) : R (option redis.Error) :=
  '(code, err) ← GetEmailVerificationCode userID;
  match err with
  | Some e => mret (Some e)
  | None =>
      if String.eqb code "" then mret None
      else
        err ← redis.Del (getEmailVerificationCodeKey userID);
        match err with
        | Some e => mret (Some e)
        | None => redis.Del (getEmailVerificationUserKey code)
        end
  end.

(** [StoreFaviconURL] *)
Definition StoreFaviconURL (resourceURL faviconURL : string) : R (option redis.Error) :=
  redis.Set_ (getFaviconKey resourceURL) faviconURL FaviconCacheTTL.

(** [GetFaviconURL] *)
Definition GetFaviconURL (resourceURL : string) : R (string * option redis.Error) :=
  r ← redis.Get (getFaviconKey resourceURL); mret (stringReply r).

(** [TrackVerificationAttempt] *)
Definition TrackVerificationAttempt (userID : N) : R (option redis.Error) :=
  redis.IncrExpire (getVerificationAttemptsKey userID) Hour.

Definition maxAttempts : Z := 5.

(** [IsVerificationRateLimited] *)
Definition IsVerificationRateLimited (userID : N) : R (bool * option redis.Error) :=
  r ← redis.Get (getVerificationAttemptsKey userID);
  mret match r with
       | redis.Value v =>
           match strconv_Atoi v with
           | Some attempts => (maxAttempts <=? attempts, None)
           | None => (false, Some redis.SyntaxError)
           end
       | redis.Nil => (false, None)
       | redis.Failed e => (false, Some e)
       end.

(** Time passes on the server and nothing else happens. *)
Definition at_time (t : Z) (s : redis.Server) : redis.Server :=
  redis.mkServer (redis.db s) t (redis.tape s).

(** The server answers the coming round trips. *)
Definition answering (s : redis.Server) : Prop := redis.tape s = [].

(** No key of the one family is a key of the other. *)
Definition apart {A B : Type} (f : A -> string) (g : B -> string) : Prop :=
  forall a b, f a <> g b.

(** The verification attempts of a user at the given times, one after
    the other, with nothing else happening on the server. *)
Fixpoint attemptsAt (userID : N) (times : list Z) (s : redis.Server) : redis.Server :=
  match times with
  | [] => s
  | t :: rest => attemptsAt userID rest (TrackVerificationAttempt userID (at_time t s)).2
  end.

(** Each of the times is less than an hour after the one before it,
    starting from [prev]. *)
Fixpoint withinAnHour (prev : Z) (times : list Z) : Prop :=
  match times with
  | [] => True
  | t :: rest => prev <= t < prev + 3600 /\ withinAnHour t rest
  end.

(** ** service.go: the callers of the cache repository

    The user repository (gorm), the token generator and bcrypt are
    outside the files modelled here; they are given as functions of the
    database, of which nothing is assumed.  An error of theirs is a value
    of [OtherError]. *)

Module account.
Record User : Type := mkUser {
  Email : string;
  Username : string;
  PassHash : string;
  ID : N;
  RefreshTokenVersion : N;
  AmountOfBookmarks : N;
  IsVerified : bool;
  IsPremium : bool
}.

(** [user.IsVerified = true] *)
Definition verified (u : User) : User :=
  mkUser (Email u) (Username u) (PassHash u) (ID u) (RefreshTokenVersion u)
         (AmountOfBookmarks u) true (IsPremium u).

(** [user.PassHash = hash; user.RefreshTokenVersion++] on a 64-bit [uint]. *)
Definition rehashed (hash : string) (u : User) : User :=
  mkUser (Email u) (Username u) hash (ID u)
         ((RefreshTokenVersion u + 1) mod 2 ^ 64)%N
         (AmountOfBookmarks u) (IsVerified u) (IsPremium u).
End account.

Record Backing : Type := mkBacking {
  DB : Type;
  OtherError : Type;
  repo_GetUserByID : N -> DB -> OtherError + account.User;
  repo_SaveUser : account.User -> DB -> option OtherError * DB;
  (** [Create] and [Save] of gorm write into the record they are given;
      the record after the call is part of the answer. *)
  repo_AddBookmark : model.Bookmark -> DB -> (OtherError + model.Bookmark) * DB;
  repo_GetBookmarkByID : N -> DB -> OtherError + model.Bookmark;
  repo_UpdateBookmark : model.Bookmark -> DB -> (OtherError + model.Bookmark) * DB;
  jwt_GenerateAccessToken : N -> string -> OtherError + string;
  jwt_GenerateRefreshToken : N -> N -> string -> OtherError + string
}.

Inductive ErrorCode : Type :=
| CodeInternalError
| CodeInvalidRequest
| CodeForbidden
| CodeInvalidVerificationCode
| CodeTooManyRequests.

Section Service.
Context (B : Backing).

(** What the service reaches: the Redis server and the database. *)
Record Backend : Type := mkBackend {
  cache : redis.Server;
  database : DB B
}.

(** The errors the service returns: one of the cache repository, one of
    the user repository or the token generator, or [errors.New(code,
    message)]. *)
Inductive ServiceError : Type :=
| CacheError (e : redis.Error)
| Other (e : OtherError B)
| Coded (code : ErrorCode) (message : string).

Definition Svc (A : Type) : Type := Backend -> A * Backend.

#[global] Instance Svc_ret : MRet Svc := fun A a b => (a, b).
#[global] Instance Svc_bind : MBind Svc :=
  fun A C f m b => let '(a, b') := m b in f a b'.

(** A call of the cache repository. *)
Definition inCache {A : Type} (m : R A) : Svc A :=
  fun b => let '(a, c) := m (cache b) in (a, mkBackend c (database b)).

Definition GetUserByID (id : N) : Svc (OtherError B + account.User) :=
  fun b => (repo_GetUserByID B id (database b), b).

Definition SaveUser (u : account.User) : Svc (option (OtherError B)) :=
  fun b => let '(e, d) := repo_SaveUser B u (database b) in (e, mkBackend (cache b) d).

Definition Session : Type := string * string * option account.User.

(** [return "", "", nil, err] *)
Definition refused (e : ServiceError) : Svc (Session * option ServiceError) :=
  mret (("", "", None), Some e).

(** [VerifyEmail] *)
Definition VerifyEmail (code : string) : Svc (Session * option ServiceError) :=
  '(userID, err) ← inCache (GetUserIDByVerificationCode code);
  match err with
  | Some e => refused (CacheError e)
  | None =>
      if (userID =? 0)%N
      then refused (Coded CodeInvalidVerificationCode "Invalid verification code")
      else
        '(isLimited, err) ← inCache (IsVerificationRateLimited userID);
        if match err with Some _ => false | None => isLimited end
        then refused (Coded CodeTooManyRequests
                        "Too many verification attempts. Please try again later.")
        else
          loaded ← GetUserByID userID;
          match loaded with
          | inl e =>
              _ ← inCache (TrackVerificationAttempt userID);
              refused (Other e)
          | inr user =>
              if account.IsVerified user
              then refused (Coded CodeInvalidRequest "Email already verified")
              else
                let user := account.verified user in
                _ ← inCache (DeleteEmailVerificationCode (account.ID user));
                err ← SaveUser user;
                match err with
                | Some e => refused (Other e)
                | None =>
                    match jwt_GenerateAccessToken B (account.ID user)
                                                  (account.Username user) with
                    | inl e => refused (Other e)
                    | inr accessToken =>
                        match jwt_GenerateRefreshToken B (account.ID user)
                                (account.RefreshTokenVersion user)
                                (account.Username user) with
                        | inl e => refused (Other e)
                        | inr refreshToken =>
                            mret ((accessToken, refreshToken, Some user), None)
                        end
                    end
                end
          end
  end.

(** [ResetPassword]; [hashed] is what [bcrypt.GenerateFromPassword]
    answers for the password, [None] for its error. *)
Definition ResetPassword (token : string) (hashed : option string)
  : Svc (option ServiceError) :=
  '(userID, err) ← inCache (GetUserIDByResetToken token);
  match err with
  | Some _ => mret (Some (Coded CodeInternalError "Failed to process password reset"))
  | None =>
      if (userID =? 0)%N
      then mret (Some (Coded CodeInvalidRequest "Invalid or expired reset token"))
      else
        loaded ← GetUserByID userID;
        match loaded with
        | inl e => mret (Some (Other e))
        | inr user =>
            match hashed with
            | None => mret (Some (Coded CodeInternalError "Failed to reset password"))
            | Some hashPassword =>
                err ← SaveUser (account.rehashed hashPassword user);
                match err with
                | Some e => mret (Some (Other e))
                | None =>
                    _ ← inCache (DeleteResetToken token);
                    mret None
                end
            end
        end
  end.
End Service.

(** The attempt counters of a server. *)
Definition attemptCounter (s : redis.Server) (userID : N) : option redis.Entry :=
  redis.db s !! getVerificationAttemptsKey userID.

(** ** service.go: the callers of the resolver and of the import parser *)

Module api.
Record PatchBookmarkRequest : Type := mkPatch {
  Title : option string;
  URL : option string;
  ShowText : option bool
}.

End api.


Section Bookmarks.
Context (L : GoLibs) (Net : Network) (B : Backing).

(** What the bookmark functions of the service reach: the world of the
    resolver and the database. *)
Definition Site : Type := World * DB B.

(** The icon a caller keeps of a resolution: the error is only logged. *)
Definition iconOf (r : string * option error) : string := r.1.

(** [AddBookmark]; [now1] and [now2] are the two readings of the clock. *)
Definition AddBookmark (now1 now2 : Z) (userID : N) (title url : string)
           (showText : bool) (site : Site)
  : (ServiceError B + model.Bookmark) * Site :=
  let '(w, d) := site in
  let '(resolution, w) := FetchFaviconBase64 L Net true url w in
  let faviconBase64 := iconOf resolution in
  let bookmark := model.mkBookmark now1 now2 title url faviconBase64 0 userID showText in
  match repo_AddBookmark B bookmark d with
  | (inl err, d) => (inl (Other B err), (w, d))
  | (inr bookmark, d) => (inr bookmark, (w, d))
  end.

(** [GetBookmarkByID] of the service: the owner check. *)
Definition GetBookmarkByID (userID bookmarkID : N) (d : DB B)
  : ServiceError B + model.Bookmark :=
  match repo_GetBookmarkByID B bookmarkID d with
  | inl err => inl (Other B err)
  | inr bookmark =>
      if negb (model.UserID bookmark =? userID)%N
      then inl (Coded B CodeForbidden "Bookmark doesn't belong to user")
      else inr bookmark
  end.

Definition setTitle (title : string) (b : model.Bookmark) : model.Bookmark :=
  model.mkBookmark (model.CreatedAt b) (model.UpdatedAt b) title (model.URL b)
                   (model.Favicon b) (model.ID b) (model.UserID b) (model.ShowText b).

Definition setURL (url : string) (b : model.Bookmark) : model.Bookmark :=
  model.mkBookmark (model.CreatedAt b) (model.UpdatedAt b) (model.Title b) url
                   (model.Favicon b) (model.ID b) (model.UserID b) (model.ShowText b).

Definition setShowText (showText : bool) (b : model.Bookmark) : model.Bookmark :=
  model.mkBookmark (model.CreatedAt b) (model.UpdatedAt b) (model.Title b) (model.URL b)
                   (model.Favicon b) (model.ID b) (model.UserID b) showText.

Definition setUpdatedAt (t : Z) (b : model.Bookmark) : model.Bookmark :=
  model.mkBookmark (model.CreatedAt b) t (model.Title b) (model.URL b)
                   (model.Favicon b) (model.ID b) (model.UserID b) (model.ShowText b).

(** [PatchBookmark] *)
Definition PatchBookmark (now : Z) (userID bookmarkID : N)
           (patch : api.PatchBookmarkRequest) (site : Site)
  : (ServiceError B + model.Bookmark) * Site :=
  let '(w, d) := site in
  match GetBookmarkByID userID bookmarkID d with
  | inl err => (inl err, (w, d))
  | inr bookmark =>
      let bookmark :=
        match api.Title patch with
        | Some title => setTitle title bookmark
        | None => bookmark
        end in
      let '(bookmark, w) :=
        match api.URL patch with
        | Some url =>
            let '(resolution, w) := FetchFaviconBase64 L Net true url w in
            (model.setFavicon (iconOf resolution) (setURL url bookmark), w)
        | None => (bookmark, w)
        end in
      let bookmark :=
        match api.ShowText patch with
        | Some showText => setShowText showText bookmark
        | None => bookmark
        end in
      let bookmark := setUpdatedAt now bookmark in
      match repo_UpdateBookmark B bookmark d with
      | (inl err, d) => (inl (Other B err), (w, d))
      | (inr bookmark, d) => (inr bookmark, (w, d))
      end
  end.



End Bookmarks.



Section ImportFile.
Context (L : GoLibs) (base64_DecodeString : string -> option string)
        (Env : Network -> World -> Prop) (B : Backing).


End ImportFile.

(** ** Verification codes (service.go) *)

(** [strconv.Itoa]: the decimal digits of an [int], with a minus sign for a
    negative one. *)
Definition strconv_Itoa (i : Z) : string := NilZero.string_of_int (Z.to_int i).

(** [int(b)] for a byte. *)
Definition int_of_byte (b : Byte.byte) : Z := Z.of_N (Byte.to_N b).

(** [generateSecureVerificationCode], given what [cryptorand.Read] did with
    the slice of three bytes: an error, or the three bytes it filled in.  The
    24-bit number they make is far from the ends of [int], so nothing wraps;
    [%] is Go's truncated remainder. *)
Definition generateSecureVerificationCode {E : Type}
    (cryptorand_Read : E + (Byte.byte * Byte.byte * Byte.byte)) : E + string :=
  match cryptorand_Read with
  | inl err => inl err
  | inr (b0, b1, b2) =>
      let code :=
        Z.lor (Z.lor (Z.shiftl (int_of_byte b0) 16) (Z.shiftl (int_of_byte b1) 8))
              (int_of_byte b2) in
      let code := Z.rem code 900000 + 100000 in
      inr (strconv_Itoa code)
  end.

(** ** service.go: registration and the verification mail *)

(** The arguments of [mailer.SendVerificationEmail]. *)
Record VerificationMail : Type := mkMail {
  mailTo : string;
  mailCode : string;
  mailUsername : string
}.

Record RegisterRequest : Type := mkRegisterRequest {
  reqEmail : string;
  reqUsername : string;
  reqPassword : string
}.

(** What the sender of the verification mail does: a call of the mailer
    with its outcome, or a sleep of the given duration. *)
Inductive MailEvent : Type :=
| Sent (m : VerificationMail) (ok : bool)
| Slept (d : Z).

(** [time.Second], in nanoseconds. *)
Definition Second : Z := 1000000000.

Definition maxRetries : Z := 3.

(** The loop of [sendVerificationEmailAsync] from the round [i] on;
    [outcomes] are the answers of the mailer to the coming calls, the mailer
    succeeding once they are used up.  The loop makes at most [maxRetries]
    rounds, the number given as [rounds]. *)
Fixpoint sendRounds (rounds : nat) (i retryDelay : Z) (m : VerificationMail)
    (outcomes : list bool) : list MailEvent :=
  match rounds with
  | O => []
  | S rounds' =>
      if i <? maxRetries
      then
        let '(ok, rest) :=
          match outcomes with [] => (true, []) | o :: r => (o, r) end in
        if ok
        then [Sent m true]
        else
          if i <? maxRetries - 1
          then Sent m false :: Slept retryDelay
                 :: sendRounds rounds' (i + 1) (retryDelay * 2) m rest
          else Sent m false :: sendRounds rounds' (i + 1) retryDelay m rest
      else []
  end.

(** [sendVerificationEmailAsync]; the user ID is only logged. *)
Definition sendVerificationEmailAsync (email code username : string) (userID : N)
    (outcomes : list bool) : list MailEvent :=
  sendRounds (Z.to_nat maxRetries) 0 (Second * 2) (mkMail email code username) outcomes.

(** The calls of the mailer among the events, and the time slept. *)
Definition sends (evs : list MailEvent) : list (VerificationMail * bool) :=
  flat_map (fun e => match e with Sent m ok => [(m, ok)] | Slept _ => [] end) evs.

Definition slept (evs : list MailEvent) : Z :=
  fold_right (fun e acc => match e with Sent _ _ => acc | Slept d => d + acc end) 0 evs.

Section Registration.
Context (B : Backing) {E : Type}.
(** The two functions of the user repository used here; [Register] of the
    repository writes the new ID into the record it is given. *)
Context (repo_GetUserByEmail : string -> DB B -> OtherError B + account.User).
Context (repo_Register : account.User -> DB B -> (OtherError B + account.User) * DB B).

Definition GetUserByEmail (email : string) : Svc B (OtherError B + account.User) :=
  fun b => (repo_GetUserByEmail email (database B b), b).

Definition RegisterUser (u : account.User) : Svc B (OtherError B + account.User) :=
  fun b => let '(r, d) := repo_Register u (database B b) in (r, mkBackend B (cache B b) d).

(** [Register]; [hashed] is what [bcrypt.GenerateFromPassword] answers for
    the password, [None] for its error, and [rand] what [cryptorand.Read]
    does.  Beside the ID and the error, the result has the mail the goroutine
    [sendVerificationEmailAsync] is started with, if it is started. *)
Definition Register (req : RegisterRequest) (hashed : option string)
    (rand : E + (Byte.byte * Byte.byte * Byte.byte))
  : Svc B (N * option (ServiceError B) * option VerificationMail) :=
  match hashed with
  | None =>
      mret (0%N, Some (Coded B CodeInternalError "failed to process password"), None)
  | Some hashPassword =>
      match generateSecureVerificationCode rand with
      | inl _ =>
          mret (0%N, Some (Coded B CodeInternalError "failed to generate verification code"),
                None)
      | inr verificationCode =>
          let user :=
            account.mkUser (reqEmail req) (reqUsername req) hashPassword
                           0 0 0 false false in
          registered ← RegisterUser user;
          match registered with
          | inl e => mret (0%N, Some (Other B e), None)
          | inr user =>
              _ ← inCache B
                    (StoreEmailVerificationCode (account.ID user) verificationCode);
              mret (account.ID user, None,
                    Some (mkMail (reqEmail req) verificationCode (reqUsername req)))
          end
      end
  end.

(** [SendEmailVerificationCode]; beside the error, the result has the mail
    the goroutine sends, if it is started. *)
Definition SendEmailVerificationCode (email : string)
    (rand : E + (Byte.byte * Byte.byte * Byte.byte))
  : Svc B (option (ServiceError B) * option VerificationMail) :=
  loaded ← GetUserByEmail email;
  match loaded with
  | inl e => mret (Some (Other B e), None)
  | inr user =>
      if account.IsVerified user
      then mret (Some (Coded B CodeInvalidRequest "Email already verified"), None)
      else
        '(code, err) ← inCache B (GetEmailVerificationCode (account.ID user));
        match err with
        | Some e => mret (Some (CacheError B e), None)
        | None =>
            if String.eqb code ""
            then
              match generateSecureVerificationCode rand with
              | inl _ =>
                  mret (Some (Coded B CodeInternalError
                                "failed to generate verification code"), None)
              | inr secureCode =>
                  err ← inCache B
                          (StoreEmailVerificationCode (account.ID user) secureCode);
                  match err with
                  | Some e => mret (Some (CacheError B e), None)
                  | None =>
                      mret (None, Some (mkMail (account.Email user) secureCode
                                               (account.Username user)))
                  end
              end
            else
              mret (None, Some (mkMail (account.Email user) code
                                       (account.Username user)))
        end
  end.
End Registration.

(** * Theorems *)

(** ** Base64 *)

Example base64_Man : base64_EncodeToString "Man" = "TWFu".
Proof. reflexivity. Qed.

Example base64_Ma : base64_EncodeToString "Ma" = "TWE=".
Proof. reflexivity. Qed.

Example base64_M : base64_EncodeToString "M" = "TQ==".
Proof. reflexivity. Qed.

Example base64_hello : base64_EncodeToString "Hello, World!" = "SGVsbG8sIFdvcmxkIQ==".
Proof. reflexivity. Qed.

Example base64_high_bytes :
  base64_EncodeToString
    (String (ascii_of_nat 255) (String (ascii_of_nat 254) (String (ascii_of_nat 253) "")))
  = "//79".
Proof. reflexivity. Qed.

(** ** The sort of [findIconCandidates] *)

Lemma swapIfGreater_middle pre x done y r :
  swapIfGreater (length pre) (S (length pre + length done))
                (pre ++ x :: done ++ y :: r) =
  if Priority x >? Priority y
  then pre ++ y :: done ++ x :: r
  else pre ++ x :: done ++ y :: r.
Proof.
  unfold swapIfGreater.
  rewrite list_lookup_middle by reflexivity.
  assert (Hj : (pre ++ x :: done ++ y :: r) !! S (length pre + length done) = Some y).
  { change (pre ++ x :: done ++ y :: r) with (pre ++ (x :: done) ++ y :: r).
    rewrite app_assoc. apply list_lookup_middle.
    rewrite length_app. simpl. lia. }
  rewrite Hj.
  destruct (Priority x >? Priority y); [|reflexivity].
  replace (length pre) with (length pre + 0)%nat at 2 by lia.
  rewrite insert_app_r. simpl.
  replace (S (length pre + length done)) with (length pre + S (length done))%nat by lia.
  rewrite insert_app_r. simpl. f_equal. f_equal.
  replace (length done) with (length done + 0)%nat by lia.
  rewrite insert_app_r. reflexivity.
Qed.

Lemma innerLoop_sweep rest : forall pre x done,
  innerLoop (length pre) (S (length pre + length done)) (length rest)
            (pre ++ x :: done ++ rest) =
  pre ++ (sweep x rest).1 :: done ++ (sweep x rest).2.
Proof.
  induction rest as [|y r IH]; intros pre x done; simpl.
  - reflexivity.
  - rewrite swapIfGreater_middle.
    destruct (Priority x >? Priority y).
    + specialize (IH pre y (done ++ [x])).
      rewrite length_app in IH. simpl in IH.
      replace (S (length pre + (length done + 1))) with
        (S (S (length pre + length done))) in IH by lia.
      rewrite <- !app_assoc in IH. simpl in IH. rewrite IH.
      destruct (sweep y r); reflexivity.
    + specialize (IH pre x (done ++ [y])).
      rewrite length_app in IH. simpl in IH.
      replace (S (length pre + (length done + 1))) with
        (S (S (length pre + length done))) in IH by lia.
      rewrite <- !app_assoc in IH. simpl in IH. rewrite IH.
      destruct (sweep x r); reflexivity.
Qed.

Lemma sweep_length x rest : length (sweep x rest).2 = length rest.
Proof.
  revert x. induction rest as [|y r IH]; intros x; simpl; [reflexivity|].
  destruct (Priority x >? Priority y).
  - specialize (IH y). destruct (sweep y r). simpl in *. lia.
  - specialize (IH x). destruct (sweep x r). simpl in *. lia.
Qed.

Lemma outerLoop_selectFrom n : forall pre l,
  (n < length l \/ n = 0)%nat ->
  outerLoop (length pre) n (pre ++ l) = pre ++ selectFrom n l.
Proof.
  induction n as [|n IH]; intros pre l Hn; simpl; [reflexivity|].
  destruct l as [|x rest]; [simpl in Hn; lia|].
  rewrite length_app. simpl.
  replace (length pre + S (length rest) - S (length pre))%nat
    with (length rest) by lia.
  pose proof (innerLoop_sweep rest pre x []) as H. simpl in H.
  rewrite Nat.add_0_r in H. rewrite H.
  pose proof (sweep_length x rest) as Hlen.
  destruct (sweep x rest) as [m r']. simpl in *.
  specialize (IH (pre ++ [m]) r').
  rewrite length_app in IH. simpl in IH.
  replace (length pre + 1)%nat with (S (length pre)) in IH by lia.
  rewrite <- !app_assoc in IH. simpl in IH. rewrite IH by lia.
  reflexivity.
Qed.

Lemma sortCandidates_selectFrom l :
  sortCandidates l = selectFrom (length l - 1) l.
Proof.
  unfold sortCandidates.
  apply (outerLoop_selectFrom (length l - 1) [] l).
  destruct l; simpl; lia.
Qed.

Lemma sweep_perm x rest :
  Permutation (x :: rest) ((sweep x rest).1 :: (sweep x rest).2).
Proof.
  revert x. induction rest as [|y r IH]; intros x; simpl; [reflexivity|].
  destruct (Priority x >? Priority y).
  - specialize (IH y). destruct (sweep y r) as [m r']. simpl in *.
    etransitivity; [apply perm_skip, IH | apply perm_swap].
  - specialize (IH x). destruct (sweep x r) as [m r']. simpl in *.
    etransitivity; [apply perm_swap|].
    etransitivity; [apply perm_skip, IH | apply perm_swap].
Qed.

Lemma sweep_min x rest :
  Priority (sweep x rest).1 <= Priority x /\
  Forall (byPriority (sweep x rest).1) (sweep x rest).2.
Proof.
  revert x. induction rest as [|y r IH]; intros x; simpl.
  - split; [lia | constructor].
  - destruct (Z.gtb_spec (Priority x) (Priority y)) as [Hgt|Hle].
    + destruct (IH y) as [H1 H2]. destruct (sweep y r) as [m r']. simpl in *.
      split; [lia|]. constructor; [unfold byPriority; lia | exact H2].
    + destruct (IH x) as [H1 H2]. destruct (sweep x r) as [m r']. simpl in *.
      split; [lia|]. constructor; [unfold byPriority; lia | exact H2].
Qed.

Lemma selectFrom_perm n : forall l, Permutation l (selectFrom n l).
Proof.
  induction n as [|n IH]; intros l; simpl; [reflexivity|].
  destruct l as [|x rest]; [reflexivity|].
  pose proof (sweep_perm x rest) as Hp.
  destruct (sweep x rest) as [m r']. simpl in Hp.
  rewrite Hp. constructor. apply IH.
Qed.

Lemma selectFrom_sorted n : forall l,
  (length l <= S n)%nat -> StronglySorted byPriority (selectFrom n l).
Proof.
  induction n as [|n IH]; intros l Hl; simpl.
  - destruct l as [|x [|y l]]; simpl in Hl; try lia; repeat constructor.
  - destruct l as [|x rest]; [constructor|].
    pose proof (sweep_min x rest) as [_ Hmin].
    pose proof (sweep_length x rest) as Hlen.
    destruct (sweep x rest) as [m r']. simpl in *.
    constructor.
    + apply IH. lia.
    + eapply Permutation_Forall; [apply selectFrom_perm | exact Hmin].
Qed.

Lemma sortCandidates_sorted l : StronglySorted byPriority (sortCandidates l).
Proof.
  rewrite sortCandidates_selectFrom. apply selectFrom_sorted. lia.
Qed.

Lemma sortCandidates_perm l : Permutation l (sortCandidates l).
Proof. rewrite sortCandidates_selectFrom. apply selectFrom_perm. Qed.

Lemma sweep_sorted x rest :
  Forall (byPriority x) rest -> sweep x rest = (x, rest).
Proof.
  induction 1 as [|y r Hy _ IH]; simpl; [reflexivity|].
  unfold byPriority in Hy.
  destruct (Z.gtb_spec (Priority x) (Priority y)); [lia|].
  rewrite IH. reflexivity.
Qed.

Lemma selectFrom_sorted_id n : forall l,
  StronglySorted byPriority l -> selectFrom n l = l.
Proof.
  induction n as [|n IH]; intros l Hl; simpl; [reflexivity|].
  destruct l as [|x rest]; [reflexivity|].
  inversion Hl; subst.
  rewrite sweep_sorted by assumption. rewrite IH by assumption. reflexivity.
Qed.

Example tiedDocument_candidates :
  findIconCandidates Ref.libs tiedDocument examplePage =
  [ mkIconCandidate "https://example.com/c.png" 1;
    mkIconCandidate "https://example.com/b.png" 2;
    mkIconCandidate "https://example.com/a.png" 2 ].
Proof. vm_compute. reflexivity. Qed.

(** C1, as stated, fails: in [tiedDocument] the two "shortcut icon" links
    have equal priority and come out of [findIconCandidates] in the order
    b.png, a.png, the reverse of their order in the document. *)
Lemma findIconCandidates_not_stable :
  ~ stableSort (traverse Ref.libs examplePage tiedDocument [])
               (findIconCandidates Ref.libs tiedDocument examplePage).
Proof.
  intros H. specialize (H 2). vm_compute in H. discriminate H.
Qed.

(** C1 (amended): for every document the candidate list is sorted ascending
    by priority and holds exactly the candidates found in the document (it
    is a permutation of them in document order); when the document already
    lists its candidates in ascending priority their order is kept.  The
    order among equal priorities is not promised otherwise. *)
Theorem findIconCandidates_sorted (L : GoLibs) (doc : html.Node)
        (baseURL : net_url.URL) :
  StronglySorted byPriority (findIconCandidates L doc baseURL) /\
  Permutation (traverse L baseURL doc []) (findIconCandidates L doc baseURL) /\
  (StronglySorted byPriority (traverse L baseURL doc []) ->
   findIconCandidates L doc baseURL = traverse L baseURL doc []).
Proof.
  unfold findIconCandidates. split; [apply sortCandidates_sorted|].
  split; [apply sortCandidates_perm|].
  intros Hs. rewrite sortCandidates_selectFrom.
  apply selectFrom_sorted_id, Hs.
Qed.

Lemma findIconCandidates_sorted_witness :
  findIconCandidates Ref.libs
    (documentWith [ link "icon" "/a.png"; link "icon" "/b.png" ]) examplePage =
  [ mkIconCandidate "https://example.com/a.png" 1;
    mkIconCandidate "https://example.com/b.png" 1 ].
Proof.
  destruct (findIconCandidates_sorted Ref.libs
              (documentWith [ link "icon" "/a.png"; link "icon" "/b.png" ])
              examplePage) as (_ & _ & H).
  rewrite H; [vm_compute; reflexivity|].
  vm_compute. repeat constructor; discriminate.
Defined.

(** ** [normalizeURL] *)

Example normalizeURL_example :
  normalizeURL Ref.libs "example.com/page" = "https://example.com".
Proof. vm_compute. reflexivity. Qed.

(** C5, as stated, fails: "my site.com" has no scheme and does not parse
    (a space in the host); [normalizeURL] returns the string with the
    scheme prepended, not the input. *)
Lemma normalizeURL_parse_failure_not_input :
  url_Parse Ref.libs ("https://" +:+ "my site.com") = None /\
  normalizeURL Ref.libs "my site.com" = "https://my site.com" /\
  normalizeURL Ref.libs "my site.com" <> "my site.com".
Proof. vm_compute. repeat split; discriminate. Qed.

(** C5 (amended): [normalizeURL] prepends "https://" when the input has
    neither an "http://" nor an "https://" prefix and returns
    scheme + "://" + host of the parsed result, so that
    normalize("example.com/page") = "https://example.com"; when parsing
    fails it returns the string it tried to parse, that is the input with
    "https://" prepended unless the input already had a scheme prefix.  It
    is total. *)
Theorem normalizeURL_spec (L : GoLibs) (resourceURL : string) :
  exists candidate,
    candidate = (if hasHTTPPrefix resourceURL then resourceURL
                 else "https://" +:+ resourceURL) /\
    match url_Parse L candidate with
    | Some u => normalizeURL L resourceURL = net_url.Scheme u +:+ "://" +:+ net_url.Host u
    | None => normalizeURL L resourceURL = candidate
    end /\
    normalizeURL Ref.libs "example.com/page" = "https://example.com".
Proof.
  exists (withScheme resourceURL). split.
  - unfold withScheme, hasHTTPPrefix.
    destruct (strings_HasPrefix resourceURL "http://"),
             (strings_HasPrefix resourceURL "https://"); reflexivity.
  - split; [|exact normalizeURL_example].
    unfold normalizeURL. destruct (url_Parse L (withScheme resourceURL)); reflexivity.
Qed.

(** ** The rel table and the size boost *)

Lemma largeSize_advertises sizes : largeSize sizes = advertisesLargeSize sizes.
Proof.
  unfold largeSize, advertisesLargeSize.
  destruct (String.eqb_spec sizes ""); subst; reflexivity.
Qed.

Lemma relPriorities_table rel p :
  relPriorities !! rel = Some p <-> (rel, p) ∈ relTable.
Proof.
  split.
  - intros H. apply elem_of_list_to_map_2 in H. exact H.
  - intros H. unfold relTable in H.
    repeat (apply elem_of_cons in H as [H|H];
            [inversion H; subst; vm_compute; reflexivity|]).
    inversion H.
Qed.

Lemma linkCandidate_ignored L baseURL attrs rel href sizes :
  readAttrs L attrs = (rel, href, sizes) ->
  relPriorities !! rel = None ->
  linkCandidate L baseURL attrs = [].
Proof. intros Ha Hr. unfold linkCandidate. rewrite Ha, Hr. reflexivity. Qed.

Lemma linkCandidate_ranked L baseURL attrs rel href sizes p u :
  readAttrs L attrs = (rel, href, sizes) ->
  relPriorities !! rel = Some p ->
  href <> "" ->
  url_Parse L href = Some u ->
  linkCandidate L baseURL attrs =
  [ mkIconCandidate (URL_String L (URL_ResolveReference L baseURL u))
                    (if advertisesLargeSize sizes then p - 1 else p) ].
Proof.
  intros Ha Hr Hh Hu. unfold linkCandidate. rewrite Ha, Hr.
  apply String.eqb_neq in Hh. rewrite Hh. simpl. rewrite Hu.
  rewrite largeSize_advertises. reflexivity.
Qed.

Lemma linkCandidate_no_target L baseURL attrs rel href sizes :
  readAttrs L attrs = (rel, href, sizes) ->
  href = "" \/ url_Parse L href = None ->
  linkCandidate L baseURL attrs = [].
Proof.
  intros Ha H. unfold linkCandidate. rewrite Ha.
  destruct (relPriorities !! rel); [|reflexivity].
  destruct H as [-> | H]; [reflexivity|].
  destruct (negb (href =? "")%string); [rewrite H|]; reflexivity.
Qed.

(** Induction on documents: a property of every child gives the property
    of the parent. *)
Lemma Node_children_ind (P : html.Node -> Prop)
      (H : forall ty data attrs children,
          Forall P children -> P (html.mkNode ty data attrs children)) :
  forall n, P n.
Proof.
  fix ind 1. intros [ty data attrs children]. apply H.
  induction children as [|c cs IH]; constructor; [apply ind | exact IH].
Qed.

(** [traverse] visits every node once, parents before children and
    siblings left to right, and appends what each [<link>] contributes. *)
Lemma traverse_preorder L baseURL n : forall acc,
  traverse L baseURL n acc =
  acc ++ flat_map (fun m => if html.is_link m
                            then linkCandidate L baseURL (attributes m) else [])
                  (preorder n).
Proof.
  induction n as [ty data attrs children IH] using Node_children_ind.
  intros acc. cbn [traverse preorder flat_map attributes].
  set (here := if html.is_link (html.mkNode ty data attrs children)
               then linkCandidate L baseURL attrs else []).
  assert (Hacc : (if html.is_link (html.mkNode ty data attrs children)
                  then acc ++ linkCandidate L baseURL attrs else acc) = acc ++ here).
  { subst here. destruct (html.is_link _); [reflexivity | rewrite app_nil_r; reflexivity]. }
  rewrite Hacc. rewrite app_assoc. generalize (acc ++ here). clear Hacc here.
  induction IH as [|c cs Hc _ IHcs]; intros acc'.
  - simpl. rewrite app_nil_r. reflexivity.
  - rewrite Hc. rewrite IHcs. rewrite flat_map_app. rewrite app_assoc. reflexivity.
Qed.

Lemma three_links_order L baseURL a1 a2 a3 h1 h2 h3 s1 s2 s3 u1 u2 u3 :
  readAttrs L a1 = ("alternate icon", h1, s1) ->
  readAttrs L a2 = ("icon", h2, s2) ->
  readAttrs L a3 = ("apple-touch-icon", h3, s3) ->
  h1 <> "" -> h2 <> "" -> h3 <> "" ->
  url_Parse L h1 = Some u1 -> url_Parse L h2 = Some u2 -> url_Parse L h3 = Some u3 ->
  map URL (findIconCandidates L
             (documentWith [ linkElement a1; linkElement a2; linkElement a3 ])
             baseURL) =
  [ URL_String L (URL_ResolveReference L baseURL u2);
    URL_String L (URL_ResolveReference L baseURL u3);
    URL_String L (URL_ResolveReference L baseURL u1) ].
Proof.
  intros A1 A2 A3 N1 N2 N3 P1 P2 P3.
  unfold findIconCandidates. rewrite traverse_preorder.
  cbn [documentWith preorder flat_map app html.is_link linkElement attributes
       String.eqb Ascii.eqb Bool.eqb].
  rewrite (linkCandidate_ranked L baseURL a1 _ _ _ 7 u1 A1) by
    (try assumption; vm_compute; reflexivity).
  rewrite (linkCandidate_ranked L baseURL a2 _ _ _ 1 u2 A2) by
    (try assumption; vm_compute; reflexivity).
  rewrite (linkCandidate_ranked L baseURL a3 _ _ _ 3 u3 A3) by
    (try assumption; vm_compute; reflexivity).
  destruct (advertisesLargeSize s1), (advertisesLargeSize s2),
           (advertisesLargeSize s3); reflexivity.
Qed.

(** ** The asset downloader *)

(** The outcome of one download. *)
Lemma download_outcome (N : Network) (imageURL : string) (w : World) :
  let r := (downloadAndEncodeToBase64 N imageURL w).1 in
  let w' := (downloadAndEncodeToBase64 N imageURL w).2 in
  (r.2 = None <->
   exists resp body,
     client_Get N (trace w) imageURL = Some resp /\
     http.StatusCode resp = 200 /\ http.Body resp = Some body /\ body <> "") /\
  (forall resp body,
      client_Get N (trace w) imageURL = Some resp ->
      http.StatusCode resp = 200 -> http.Body resp = Some body -> body <> "" ->
      r = ("data:"
           +:+ (if String.eqb (http.ContentType resp) "" then "image/x-icon"
                else http.ContentType resp)
           +:+ ";base64," +:+ base64_EncodeToString body, None)) /\
  (r.2 <> None -> r.1 = "") /\
  trace w' = EvDownload imageURL :: trace w /\ redis w' = redis w.
Proof.
  cbv zeta. unfold downloadAndEncodeToBase64, download_Get, mbind, M_bind, mret, M_ret.
  destruct (client_Get N (trace w) imageURL) as [resp|] eqn:Hget; simpl.
  2:{ repeat split; try discriminate; try reflexivity.
      intros (resp & body & H & _); discriminate. }
  unfold http.StatusOK.
  destruct (Z.eqb_spec (http.StatusCode resp) 200) as [Hs|Hs]; simpl.
  2:{ repeat split; try discriminate; try reflexivity.
      - intros (resp' & body & H & Hs' & _). inversion H; subst. contradiction.
      - intros resp' body H Hs'. inversion H; subst. contradiction. }
  destruct (http.Body resp) as [imageData|] eqn:Hb; simpl.
  2:{ repeat split; try discriminate; try reflexivity.
      - intros (resp' & body & H & _ & Hb' & _). inversion H; subst. congruence.
      - intros resp' body H _ Hb'. inversion H; subst. congruence. }
  destruct imageData as [|c rest]; simpl.
  - split; [|split; [|split; [|split]]]; try reflexivity; try discriminate.
    + split; [discriminate|].
      intros (resp' & body & H & _ & Hb' & Hne). inversion H; subst.
      rewrite Hb in Hb'. inversion Hb'; subst. contradiction.
    + intros resp' body H _ Hb' Hne. inversion H; subst.
      rewrite Hb in Hb'. inversion Hb'; subst. contradiction.
  - split; [|split; [|split; [|split]]]; try reflexivity.
    + split; [|reflexivity].
      intros _. exists resp, (String c rest). repeat split; auto.
    + intros resp' body H _ Hb' _. inversion H; subst.
      rewrite Hb in Hb'. inversion Hb'; subst. reflexivity.
    + intros H. contradiction H. reflexivity.
Qed.

(** C3: [downloadAndEncodeToBase64] issues one GET (the client does not
    follow redirects, so the response it inspects is the answer to that
    request) and succeeds if and only if the response has status 200 and a
    non-empty body; on success the result is
    "data:" + contentType + ";base64," + base64(body), where contentType is
    the Content-Type header or "image/x-icon" when [Header.Get] reports no
    value; every other outcome is a failure with an empty payload, and the
    cache is not touched. *)
Theorem downloadAndEncodeToBase64_spec (N : Network) (imageURL : string) (w : World) :
  let r := (downloadAndEncodeToBase64 N imageURL w).1 in
  let w' := (downloadAndEncodeToBase64 N imageURL w).2 in
  (r.2 = None <->
   exists resp body,
     client_Get N (trace w) imageURL = Some resp /\
     http.StatusCode resp = 200 /\ http.Body resp = Some body /\ body <> "") /\
  (forall resp body,
      client_Get N (trace w) imageURL = Some resp ->
      http.StatusCode resp = 200 -> http.Body resp = Some body -> body <> "" ->
      r = ("data:"
           +:+ (if String.eqb (http.ContentType resp) "" then "image/x-icon"
                else http.ContentType resp)
           +:+ ";base64," +:+ base64_EncodeToString body, None)) /\
  (r.2 <> None -> r.1 = "") /\
  trace w' = EvDownload imageURL :: trace w /\ redis w' = redis w.
Proof. exact (download_outcome N imageURL w). Qed.

Lemma downloadAndEncodeToBase64_spec_witness :
  (downloadAndEncodeToBase64 githubOnly "https://github.com/favicon.ico" emptyWorld).1
  = ("data:image/png;base64,UE5H", None).
Proof.
  destruct (downloadAndEncodeToBase64_spec githubOnly "https://github.com/favicon.ico"
              emptyWorld) as (_ & H & _).
  apply (H pngResponse "PNG"); first [ reflexivity | discriminate ].
Defined.

Example download_without_content_type :
  dataURI (http.mkResponse 200 "" "" (Some "PNG") "") "PNG"
  = "data:image/x-icon;base64,UE5H".
Proof. reflexivity. Qed.

(** ** The exported wrapper *)

(** C10: [FetchFavicon] returns the empty string as its payload whatever
    the resolution gives; its error and its effects are those of
    [FetchFaviconBase64].  On the network [githubOnly] the resolution of
    "github.com/x" succeeds with a data URI and the wrapper still returns
    the empty string. *)
Theorem FetchFavicon_drops_payload (L : GoLibs) (N : Network) (cacheRepo : bool)
        (resourceURL : string) (w : World) :
  (FetchFavicon L N cacheRepo resourceURL w).1.1 = "" /\
  (FetchFavicon L N cacheRepo resourceURL w).1.2
  = (FetchFaviconBase64 L N cacheRepo resourceURL w).1.2 /\
  (FetchFavicon L N cacheRepo resourceURL w).2
  = (FetchFaviconBase64 L N cacheRepo resourceURL w).2 /\
  (FetchFaviconBase64 Ref.libs githubOnly true "github.com/x" emptyWorld).1
  = ("data:image/png;base64,UE5H", None) /\
  (FetchFavicon Ref.libs githubOnly true "github.com/x" emptyWorld).1 = ("", None).
Proof.
  unfold FetchFavicon, mbind, M_bind, mret, M_ret.
  destruct (FetchFaviconBase64 L N cacheRepo resourceURL w) as [[v [e|]] w'];
    simpl; repeat split; vm_compute; reflexivity.
Qed.

(** ** The cascade: what a resolution does to the trace and the cache *)

Ltac class_incl :=
  let e := fresh "e" in
  intros e; destruct e as [[]| | | | |]; unfold noStore; simpl; congruence.

Section CascadeFacts.
Context (L : GoLibs) (N : Network) (cacheRepo : bool) (normalizedURL : string).

Lemma quiet_refl P w : quiet P w w.
Proof. exists []. repeat split. constructor. Qed.

Lemma quiet_trans P w w1 w2 : quiet P w w1 -> quiet P w1 w2 -> quiet P w w2.
Proof.
  intros (n1 & T1 & F1 & R1) (n2 & T2 & F2 & R2).
  exists (n2 ++ n1). rewrite T2, T1, R2, R1, app_assoc.
  repeat split. apply Forall_app; split; assumption.
Qed.

Lemma quiet_mono (P Q : Event -> bool) w w' :
  (forall e, P e = true -> Q e = true) -> quiet P w w' -> quiet Q w w'.
Proof.
  intros HPQ (n & T & F & R). exists n. repeat split; try assumption.
  eapply Forall_impl; [exact F | exact HPQ].
Qed.

Lemma quiet_event (P : Event -> bool) e w :
  P e = true -> quiet P w (mkWorld (redis w) (e :: trace w)).
Proof. intros He. exists [e]. repeat split. repeat constructor. exact He. Qed.

Lemma found_after P v w w1 w' :
  quiet P w w1 -> found N cacheRepo normalizedURL P v w1 w' ->
  found N cacheRepo normalizedURL P v w w'.
Proof.
  intros Hq (w2 & Hq2 & Hs). exists w2. split; [|exact Hs].
  eapply quiet_trans; eassumption.
Qed.

Lemma found_mono (P Q : Event -> bool) v w w' :
  (forall e, P e = true -> Q e = true) ->
  found N cacheRepo normalizedURL P v w w' -> found N cacheRepo normalizedURL Q v w w'.
Proof.
  intros HPQ (w1 & Hq & Hs). exists w1. split; [|exact Hs].
  eapply quiet_mono; eassumption.
Qed.

Lemma attempted_after P w w1 r w' :
  quiet P w w1 -> attempted N cacheRepo normalizedURL P w1 r w' ->
  attempted N cacheRepo normalizedURL P w r w'.
Proof.
  intros Hq. destruct r as [v|]; simpl.
  - intros [Hv Hf]. split; [exact Hv|]. eapply found_after; eassumption.
  - intros Hq2. eapply quiet_trans; eassumption.
Qed.

Lemma attempted_mono (P Q : Event -> bool) w r w' :
  (forall e, P e = true -> Q e = true) ->
  attempted N cacheRepo normalizedURL P w r w' ->
  attempted N cacheRepo normalizedURL Q w r w'.
Proof.
  intros HPQ. destruct r as [v|]; simpl.
  - intros [Hv Hf]. split; [exact Hv|]. eapply found_mono; eassumption.
  - apply quiet_mono, HPQ.
Qed.

Lemma resolved_after P w w1 r w' :
  quiet P w w1 -> resolved N cacheRepo normalizedURL P w1 r w' ->
  resolved N cacheRepo normalizedURL P w r w'.
Proof.
  intros Hq. unfold resolved. destruct (r.2).
  - intros [Hv Hq2]. split; [exact Hv|]. eapply quiet_trans; eassumption.
  - intros [Hv Hf]. split; [exact Hv|]. eapply found_after; eassumption.
Qed.

Lemma resolved_mono (P Q : Event -> bool) w r w' :
  (forall e, P e = true -> Q e = true) ->
  resolved N cacheRepo normalizedURL P w r w' ->
  resolved N cacheRepo normalizedURL Q w r w'.
Proof.
  intros HPQ. unfold resolved. destruct (r.2).
  - intros [Hv Hq]. split; [exact Hv|]. eapply quiet_mono; eassumption.
  - intros [Hv Hf]. split; [exact Hv|]. eapply found_mono; eassumption.
Qed.

Lemma resolved_error P w e w' :
  quiet P w w' -> resolved N cacheRepo normalizedURL P w ("", Some e) w'.
Proof. intros Hq. split; [reflexivity | exact Hq]. Qed.

(** [or_else]: the first attempt decides, or the continuation does. *)
Lemma or_else_resolved P (a : M (option string)) (k : M (string * option error)) :
  (forall w, attempted N cacheRepo normalizedURL P w (a w).1 (a w).2) ->
  (forall w, resolved N cacheRepo normalizedURL P w (k w).1 (k w).2) ->
  forall w, resolved N cacheRepo normalizedURL P w (or_else a k w).1 (or_else a k w).2.
Proof.
  intros Ha Hk w. unfold or_else, mbind, M_bind. specialize (Ha w).
  destruct (a w) as [[v|] w1]; simpl in *.
  - exact Ha.
  - eapply resolved_after; [exact Ha | apply Hk].
Qed.

Lemma download_quiet imageURL w :
  quiet downloadEvent w (downloadAndEncodeToBase64 N imageURL w).2.
Proof.
  destruct (download_outcome N imageURL w) as (_ & _ & _ & Ht & Hr).
  exists [EvDownload imageURL]. repeat split; try assumption.
  repeat constructor.
Qed.

Lemma downloadAndStore_attempted imageURL w :
  attempted N cacheRepo normalizedURL downloadEvent w
            (downloadAndStore N cacheRepo normalizedURL imageURL w).1
            (downloadAndStore N cacheRepo normalizedURL imageURL w).2.
Proof.
  pose proof (download_quiet imageURL w) as Hq.
  unfold downloadAndStore, mbind, M_bind, mret, M_ret.
  destruct (downloadAndEncodeToBase64 N imageURL w) as [[v [e|]] w1]; simpl in *.
  - exact Hq.
  - unfold nonEmpty. destruct (String.eqb_spec v ""); simpl; [exact Hq|].
    destruct cacheRepo; simpl.
    + unfold StoreFaviconBase64.
      destruct (redis_up N (trace w1)) eqn:Hup; simpl;
        (split; [assumption|]); exists w1; (split; [exact Hq|]);
        unfold storedAfter; rewrite Hup; split; reflexivity.
    + split; [assumption|]. exists w1. split; [exact Hq|]. reflexivity.
Qed.

Lemma downloadIfFound_attempted imageURL w :
  attempted N cacheRepo normalizedURL downloadEvent w
            (downloadIfFound N cacheRepo normalizedURL imageURL w).1
            (downloadIfFound N cacheRepo normalizedURL imageURL w).2.
Proof.
  unfold downloadIfFound. destruct (nonEmpty imageURL).
  - apply downloadAndStore_attempted.
  - apply quiet_refl.
Qed.

Lemma probePaths_quiet baseURL paths : forall w,
  quiet probeEvent w (probePaths N baseURL paths w).2.
Proof.
  induction paths as [|path rest IH]; intros w; simpl.
  - apply quiet_refl.
  - unfold mbind, M_bind, probe_Head.
    set (w1 := mkWorld (redis w) (EvHead _ :: trace w)).
    assert (Hq : quiet probeEvent w w1) by (apply quiet_event; reflexivity).
    destruct (client_Head N (trace w) _) as [resp|].
    + destruct (http.StatusCode resp =? http.StatusOK); [exact Hq|].
      eapply quiet_trans; [exact Hq | apply IH].
    + eapply quiet_trans; [exact Hq | apply IH].
Qed.

Lemma tryCandidates_attempted candidates : forall w,
  attempted N cacheRepo normalizedURL downloadEvent w
            (tryCandidates N cacheRepo normalizedURL candidates w).1
            (tryCandidates N cacheRepo normalizedURL candidates w).2.
Proof.
  induction candidates as [|c rest IH]; intros w; simpl.
  - apply quiet_refl.
  - unfold mbind, M_bind.
    pose proof (downloadAndStore_attempted (URL c) w) as Hd.
    destruct (downloadAndStore N cacheRepo normalizedURL (URL c) w) as [[v|] w1];
      simpl in *.
    + exact Hd.
    + eapply attempted_after; [exact Hd | apply IH].
Qed.

(** A stage: its mark, the search for a URL, the download. *)
Lemma standard_stage_attempted baseURL w :
  let m := (_ ← emit (EvStage Standard);
            standardIconURL ← checkStandardFaviconLocations N baseURL;
            downloadIfFound N cacheRepo normalizedURL standardIconURL) in
  attempted N cacheRepo normalizedURL baseDomainEvent w (m w).1 (m w).2.
Proof.
  cbv zeta. unfold mbind, M_bind, emit, checkStandardFaviconLocations.
  set (w1 := mkWorld (redis w) (EvStage Standard :: trace w)).
  pose proof (probePaths_quiet baseURL standardPaths w1) as Hp.
  destruct (probePaths N baseURL standardPaths w1) as [u w2]. simpl in Hp.
  eapply attempted_after.
  - eapply quiet_trans; [apply (quiet_event baseDomainEvent (EvStage Standard)); reflexivity|].
    eapply quiet_mono; [|exact Hp]. class_incl.
  - eapply attempted_mono; [|apply downloadIfFound_attempted]. class_incl.
Qed.

Lemma known_stage_attempted faviconURL w :
  let m := (_ ← emit (EvStage KnownService);
            downloadIfFound N cacheRepo normalizedURL faviconURL) in
  attempted N cacheRepo normalizedURL knownServiceEvent w (m w).1 (m w).2.
Proof.
  cbv zeta. unfold mbind, M_bind, emit.
  eapply attempted_after.
  - apply (quiet_event knownServiceEvent (EvStage KnownService)). reflexivity.
  - eapply attempted_mono; [|apply downloadIfFound_attempted]. class_incl.
Qed.

Lemma tryFaviconFromBaseDomain_resolved baseURL w :
  resolved N cacheRepo normalizedURL baseDomainEvent w
           (tryFaviconFromBaseDomain L N cacheRepo normalizedURL baseURL w).1
           (tryFaviconFromBaseDomain L N cacheRepo normalizedURL baseURL w).2.
Proof.
  unfold tryFaviconFromBaseDomain.
  apply or_else_resolved.
  - intros w0. eapply attempted_mono; [|apply known_stage_attempted]. class_incl.
  - apply or_else_resolved.
    + intros w0. apply standard_stage_attempted.
    + intros w0. apply resolved_error, quiet_refl.
Qed.

Lemma tryFaviconFromBaseDomain_error baseURL w e :
  (tryFaviconFromBaseDomain L N cacheRepo normalizedURL baseURL w).1.2 = Some e ->
  e = ErrBaseDomain.
Proof.
  unfold tryFaviconFromBaseDomain, or_else, mbind, M_bind, mret, M_ret.
  repeat match goal with
         | |- context [let '(_, _) := ?m in _] => destruct m as [[?|] ?]; simpl
         | |- context [let '(_, _) := ?m in _] => destruct m as [? ?]; simpl
         end; congruence.
Qed.

Lemma emit_then_resolved P e (k : M (string * option error)) :
  P e = true ->
  (forall w, resolved N cacheRepo normalizedURL P w (k w).1 (k w).2) ->
  forall w, resolved N cacheRepo normalizedURL P w
                     ((_ ← emit e; k) w).1 ((_ ← emit e; k) w).2.
Proof.
  intros He Hk w. unfold mbind, M_bind, emit.
  eapply resolved_after; [apply (quiet_event P e); exact He | apply Hk].
Qed.

Lemma discoverFromPage_resolved resp w :
  resolved N cacheRepo normalizedURL discoveryEvent w
           (discoverFromPage L N cacheRepo normalizedURL resp w).1
           (discoverFromPage L N cacheRepo normalizedURL resp w).2.
Proof.
  unfold discoverFromPage.
  destruct (url_Parse L (http.RequestURL resp)) as [baseURL|];
    [|apply resolved_error, quiet_refl].
  destruct (http.Body resp) as [body|]; [|apply resolved_error, quiet_refl].
  apply or_else_resolved.
  { intros w0. eapply attempted_mono; [|apply standard_stage_attempted]. class_incl. }
  apply emit_then_resolved; [reflexivity|].
  destruct (html_Parse L body) as [doc|];
    [|intros w0; apply resolved_error, quiet_refl].
  apply or_else_resolved.
  { intros w0. eapply attempted_mono; [|apply tryCandidates_attempted]. class_incl. }
  apply or_else_resolved.
  { intros w0. unfold mbind, M_bind, emit.
    eapply attempted_after;
      [apply (quiet_event discoveryEvent (EvStage Regex)); reflexivity|].
    eapply attempted_mono; [|apply downloadIfFound_attempted]. class_incl. }
  apply or_else_resolved.
  { intros w0. unfold mbind, M_bind, emit.
    eapply attempted_after;
      [apply (quiet_event discoveryEvent (EvStage DefaultIcon)); reflexivity|].
    eapply attempted_mono; [|apply downloadAndStore_attempted]. class_incl. }
  intros w0. apply resolved_error, quiet_refl.
Qed.

(** A response that is not a 200 sends the resolution to the base
    domain, whether it is an authorization redirect or not. *)
Lemma afterPageFetch_short_circuit resourceURL resp baseURL w :
  http.StatusCode resp <> 200 ->
  url_Parse L resourceURL = Some baseURL ->
  afterPageFetch L N cacheRepo normalizedURL resourceURL resp w =
  tryFaviconFromBaseDomain L N cacheRepo normalizedURL baseURL w.
Proof.
  intros Hs Hp. unfold afterPageFetch, http.StatusOK. rewrite Hp.
  destruct (Z.eqb_spec (http.StatusCode resp) 200) as [|_]; [contradiction|].
  simpl. destruct (_ && _); reflexivity.
Qed.

Lemma afterPageFetch_resolved resourceURL resp w :
  resolved N cacheRepo normalizedURL discoveryEvent w
           (afterPageFetch L N cacheRepo normalizedURL resourceURL resp w).1
           (afterPageFetch L N cacheRepo normalizedURL resourceURL resp w).2.
Proof.
  assert (Hb : forall baseURL,
             resolved N cacheRepo normalizedURL discoveryEvent w
               (tryFaviconFromBaseDomain L N cacheRepo normalizedURL baseURL w).1
               (tryFaviconFromBaseDomain L N cacheRepo normalizedURL baseURL w).2).
  { intros baseURL. eapply resolved_mono; [|apply tryFaviconFromBaseDomain_resolved].
    class_incl. }
  unfold afterPageFetch.
  destruct (url_Parse L resourceURL) as [baseURL|];
    destruct (negb (http.StatusCode resp =? http.StatusOK));
    destruct (_ && _);
    first [ apply Hb | apply discoverFromPage_resolved
          | apply resolved_error, quiet_refl ].
Qed.

Lemma cacheLookup_spec w :
  quiet cacheGetEvent w (cacheLookup N cacheRepo normalizedURL w).2 /\
  forall v, (cacheLookup N cacheRepo normalizedURL w).1 = Some v ->
            v <> "" /\ cacheRepo = true /\ redis_up N (trace w) = true /\
            cachedIn N w (getFaviconBase64Key normalizedURL) = Some v.
Proof.
  unfold cacheLookup. destruct cacheRepo; simpl.
  2:{ split; [apply quiet_refl | discriminate]. }
  unfold mbind, M_bind, mret, M_ret, GetFaviconBase64, nonEmpty, cachedIn.
  destruct (redis_up N (trace w)); simpl.
  - destruct (redis.live (serverNow N w) (getFaviconBase64Key normalizedURL))
      as [c|]; simpl.
    + destruct (String.eqb_spec (redis.value c) ""); simpl;
        (split; [apply (quiet_event cacheGetEvent); reflexivity|]);
        [discriminate|].
      intros v Hv. inversion Hv; subst. auto.
    + split; [apply (quiet_event cacheGetEvent); reflexivity | discriminate].
  - split; [apply (quiet_event cacheGetEvent); reflexivity | discriminate].
Qed.
End CascadeFacts.

Lemma bind_run {A B : Type} (m : M A) (f : A -> M B) (w : World) :
  (m ≫= f) w = let '(a, w') := m w in f a w'.
Proof. reflexivity. Qed.

Lemma FetchFaviconBase64_run (L : GoLibs) (N : Network) (cacheRepo : bool)
      (resourceURL : string) (w : World) :
  FetchFaviconBase64 L N cacheRepo resourceURL w =
  let normalizedURL := normalizeURL L resourceURL in
  let target := withScheme resourceURL in
  let '(hit, w0) := cacheLookup N cacheRepo normalizedURL w in
  match hit with
  | Some v => ((v, None), w0)
  | None =>
      let '(known, w1) :=
        (_ ← emit (EvStage KnownService);
         downloadIfFound N cacheRepo normalizedURL
           (getKnownServiceFavicon L target)) w0 in
      match known with
      | Some v => ((v, None), w1)
      | None =>
          match url_Parse L target with
          | None => (("", Some ErrCreateRequest), w1)
          | Some _ =>
              let w2 := mkWorld (redis w1) (EvPageFetch target :: trace w1) in
              match client_Do N (trace w1) target with
              | None => (("", Some ErrFetchURL), w2)
              | Some resp => afterPageFetch L N cacheRepo normalizedURL target resp w2
              end
          end
      end
  end.
Proof.
  cbv zeta. unfold FetchFaviconBase64, or_else. rewrite bind_run.
  destruct (cacheLookup N cacheRepo (normalizeURL L resourceURL) w) as [[v|] w0];
    [reflexivity|].
  rewrite bind_run.
  destruct ((_ ← emit (EvStage KnownService);
             downloadIfFound N cacheRepo (normalizeURL L resourceURL)
               (getKnownServiceFavicon L (withScheme resourceURL))) w0)
    as [[v|] w1]; [reflexivity|].
  destruct (url_Parse L (withScheme resourceURL)); [|reflexivity].
  rewrite bind_run. unfold page_Do.
  destruct (client_Do N (trace w1) (withScheme resourceURL)); reflexivity.
Qed.

(** The course of [FetchFaviconBase64]: a cache hit; or the known-service
    icon; or, after both, the request for the page and what follows it. *)
Lemma FetchFaviconBase64_cases (L : GoLibs) (N : Network) (cacheRepo : bool)
      (resourceURL : string) (w : World) :
  let normalizedURL := normalizeURL L resourceURL in
  let target := withScheme resourceURL in
  let r := (FetchFaviconBase64 L N cacheRepo resourceURL w).1 in
  let w' := (FetchFaviconBase64 L N cacheRepo resourceURL w).2 in
  let w0 := (cacheLookup N cacheRepo normalizedURL w).2 in
  match (cacheLookup N cacheRepo normalizedURL w).1 with
  | Some v => r = (v, None) /\ w' = w0
  | None =>
      (r.2 = None /\ r.1 <> "" /\
       getKnownServiceFavicon L target <> "" /\
       found N cacheRepo normalizedURL knownServiceEvent r.1 w0 w')
      \/
      exists w1,
        quiet knownServiceEvent w0 w1 /\
        match url_Parse L target with
        | None => r = ("", Some ErrCreateRequest) /\ w' = w1
        | Some _ =>
            let w2 := mkWorld (redis w1) (EvPageFetch target :: trace w1) in
            match client_Do N (trace w1) target with
            | None => r = ("", Some ErrFetchURL) /\ w' = w2
            | Some resp =>
                r = (afterPageFetch L N cacheRepo normalizedURL target resp w2).1 /\
                w' = (afterPageFetch L N cacheRepo normalizedURL target resp w2).2
            end
        end
  end.
Proof.
  cbv zeta. rewrite FetchFaviconBase64_run. cbv zeta.
  destruct (cacheLookup N cacheRepo (normalizeURL L resourceURL) w) as [[v|] w0];
    simpl; [split; reflexivity|].
  pose proof (known_stage_attempted N cacheRepo (normalizeURL L resourceURL)
                (getKnownServiceFavicon L (withScheme resourceURL)) w0) as Hk.
  cbv zeta in Hk.
  assert (Hne : forall v w1,
             (_ ← emit (EvStage KnownService);
              downloadIfFound N cacheRepo (normalizeURL L resourceURL)
                (getKnownServiceFavicon L (withScheme resourceURL))) w0 = (Some v, w1) ->
             getKnownServiceFavicon L (withScheme resourceURL) <> "").
  { intros v w1. unfold mbind, M_bind, emit, downloadIfFound, nonEmpty.
    destruct (String.eqb_spec (getKnownServiceFavicon L (withScheme resourceURL)) "");
      simpl; [discriminate | auto]. }
  destruct ((_ ← emit (EvStage KnownService);
             downloadIfFound N cacheRepo (normalizeURL L resourceURL)
               (getKnownServiceFavicon L (withScheme resourceURL))) w0)
    as [[v|] w1] eqn:Hrun; simpl in *.
  - left. destruct Hk as [Hv Hf]. repeat split; try assumption.
    eapply Hne. reflexivity.
  - right. exists w1. split; [exact Hk|].
    destruct (url_Parse L (withScheme resourceURL)) as [u|]; [|split; reflexivity].
    destruct (client_Do N (trace w1) (withScheme resourceURL)); split; reflexivity.
Qed.

Lemma quiet_storeFree (P : Event -> bool) w w' :
  (forall e, P e = true -> isStore e = false) ->
  quiet P w w' ->
  exists new, trace w' = new ++ trace w /\ storeFree new /\ redis w' = redis w.
Proof.
  intros HP (new & T & F & R). exists new. repeat split; try assumption.
  eapply Forall_impl; [exact F | exact HP].
Qed.

Lemma noStore_isStore e : noStore e = true -> isStore e = false.
Proof. unfold noStore. destruct (isStore e); simpl; congruence. Qed.

Lemma storeFree_not_in l k v : storeFree l -> EvCacheStore k v ∉ l.
Proof.
  intros F Hin. unfold storeFree in F. rewrite Forall_forall in F.
  specialize (F _ Hin). discriminate F.
Qed.

Lemma FetchFaviconBase64_miss_resolved (L : GoLibs) (N : Network) (cacheRepo : bool)
      (resourceURL : string) (w : World) :
  (cacheLookup N cacheRepo (normalizeURL L resourceURL) w).1 = None ->
  resolved N cacheRepo (normalizeURL L resourceURL) noStore w
           (FetchFaviconBase64 L N cacheRepo resourceURL w).1
           (FetchFaviconBase64 L N cacheRepo resourceURL w).2.
Proof.
  intros Hmiss.
  pose proof (FetchFaviconBase64_cases L N cacheRepo resourceURL w) as Hc.
  cbv zeta in Hc. rewrite Hmiss in Hc.
  destruct (cacheLookup_spec N cacheRepo (normalizeURL L resourceURL) w) as [Hq0 _].
  assert (Hq0' : quiet noStore w (cacheLookup N cacheRepo (normalizeURL L resourceURL) w).2).
  { eapply quiet_mono; [|exact Hq0]. class_incl. }
  eapply resolved_after; [exact Hq0'|].
  destruct Hc as [(Hok & Hv & _ & Hf) | (w1 & Hq1 & Hrest)].
  - unfold resolved. rewrite Hok. split; [exact Hv|].
    eapply found_mono; [|exact Hf]. class_incl.
  - assert (Hq1' : quiet noStore (cacheLookup N cacheRepo (normalizeURL L resourceURL) w).2 w1).
    { eapply quiet_mono; [|exact Hq1]. class_incl. }
    eapply resolved_after; [exact Hq1'|].
    destruct (url_Parse L (withScheme resourceURL)) as [u|].
    + cbv zeta in Hrest.
      destruct (client_Do N (trace w1) (withScheme resourceURL)) as [resp|].
      * destruct Hrest as [-> ->].
        eapply resolved_after;
          [apply (quiet_event noStore (EvPageFetch (withScheme resourceURL))); reflexivity|].
        eapply resolved_mono; [|apply afterPageFetch_resolved]. class_incl.
      * destruct Hrest as [-> ->]. apply resolved_error.
        apply (quiet_event noStore (EvPageFetch (withScheme resourceURL))). reflexivity.
    + destruct Hrest as [-> ->]. apply resolved_error, quiet_refl.
Qed.

(** What a resolution that was not served from the cache wrote. *)
Lemma resolved_writes (N : Network) (cacheRepo : bool) (normalizedURL : string)
      (w : World) (r : string * option error) (w' : World) :
  resolved N cacheRepo normalizedURL noStore w r w' ->
  exists new,
    trace w' = new ++ trace w /\
    match r.2 with
    | Some _ => storeFree new /\ redis w' = redis w
    | None =>
        if cacheRepo
        then exists rest,
            new = EvCacheStore normalizedURL r.1 :: rest /\ storeFree rest /\
            redis w' = (if redis_up N (rest ++ trace w)
                        then <[getFaviconBase64Key normalizedURL :=
                                 redis.mkEntry r.1
                                   (Some (redis_time N (rest ++ trace w)
                                          + FaviconCacheTTL))]> (redis w)
                        else redis w)
        else storeFree new /\ redis w' = redis w
    end.
Proof.
  unfold resolved. destruct (r.2).
  - intros [_ Hq]. apply (quiet_storeFree noStore) in Hq; [|apply noStore_isStore].
    destruct Hq as (new & T & F & R). exists new. auto.
  - intros [_ (w1 & Hq & Hs)].
    apply (quiet_storeFree noStore) in Hq; [|apply noStore_isStore].
    destruct Hq as (new & T & F & R). unfold storedAfter in Hs.
    destruct cacheRepo.
    + destruct Hs as [T' R']. exists (EvCacheStore normalizedURL r.1 :: new).
      split; [rewrite T', T; reflexivity|].
      exists new. repeat split; [exact F|].
      rewrite R', T, R. reflexivity.
    + subst w'. exists new. auto.
Qed.

Lemma downloadAndStore_failure (N : Network) (cacheRepo : bool)
      (normalizedURL imageURL : string) (w : World) :
  (downloadAndStore N cacheRepo normalizedURL imageURL w).1 = None ->
  trace (downloadAndStore N cacheRepo normalizedURL imageURL w).2
  = EvDownload imageURL :: trace w /\
  redis (downloadAndStore N cacheRepo normalizedURL imageURL w).2 = redis w.
Proof.
  destruct (download_outcome N imageURL w) as (_ & _ & _ & Ht & Hr).
  unfold downloadAndStore. rewrite bind_run.
  destruct (downloadAndEncodeToBase64 N imageURL w) as [[v [e|]] w1]; simpl in *.
  - auto.
  - destruct (nonEmpty v); [|auto].
    destruct cacheRepo; [rewrite bind_run|];
      repeat match goal with
             | |- context [let '(_, _) := ?m in _] => destruct m; simpl
             end; discriminate.
Qed.

Example cache_hit_example :
  FetchFaviconBase64 Ref.libs githubOnly true "example.com/page" cachedWorld =
  (("data:image/png;base64,UE5H", None),
   mkWorld (redis cachedWorld) [ EvCacheGet "https://example.com" ]).
Proof. vm_compute. reflexivity. Qed.

(** C6, as stated, fails: a resolution served from the cache succeeds and
    writes nothing. *)
Lemma cache_hit_writes_nothing :
  (FetchFaviconBase64 Ref.libs githubOnly true "example.com/page" cachedWorld).1.2 = None /\
  forall k v,
    EvCacheStore k v ∉
      trace (FetchFaviconBase64 Ref.libs githubOnly true "example.com/page" cachedWorld).2.
Proof.
  rewrite cache_hit_example. simpl. split; [reflexivity|].
  intros k v Hin. apply list_elem_of_singleton in Hin. discriminate Hin.
Qed.

(** C6 (amended): a resolution calls [StoreFaviconBase64] exactly when it
    succeeds through a download (it was not served from the cache) and a
    cache repository was supplied; the call is then the last thing the
    resolution does, there is one such call, its key is the normalized
    origin and its value the returned data URI.  When Redis accepts the
    call, the cache afterwards is the cache before with the entry of the
    normalized origin set to the returned data URI, to expire
    [FaviconCacheTTL] (7 days) after the call; when Redis refuses it, the
    resolution succeeds all the same and the cache is what it was.  A
    resolution without such a call (served from the cache, failed, or
    without repository) leaves the cache as it was: a resolution that fails
    performs no cache write (no negative caching), and a failed download
    attempt in the middle of the cascade writes nothing. *)
Theorem cache_written_on_download (L : GoLibs) (N : Network) (cacheRepo : bool)
        (resourceURL : string) (w : World) :
  let normalizedURL := normalizeURL L resourceURL in
  let r := (FetchFaviconBase64 L N cacheRepo resourceURL w).1 in
  let w' := (FetchFaviconBase64 L N cacheRepo resourceURL w).2 in
  let hit := (cacheLookup N cacheRepo normalizedURL w).1 in
  exists new,
    trace w' = new ++ trace w /\
    (forall k v,
        EvCacheStore k v ∈ new ->
        k = normalizedURL /\ r = (v, None) /\
        exists rest,
          new = EvCacheStore k v :: rest /\ storeFree rest /\
          redis w' =
          (if redis_up N (rest ++ trace w)
           then <[getFaviconBase64Key k :=
                    redis.mkEntry v (Some (redis_time N (rest ++ trace w)
                                           + FaviconCacheTTL))]> (redis w)
           else redis w)) /\
    ((exists k v, EvCacheStore k v ∈ new) <->
     (r.2 = None /\ cacheRepo = true /\ hit = None)) /\
    (r.2 <> None -> storeFree new /\ redis w' = redis w) /\
    (storeFree new -> redis w' = redis w) /\
    (forall imageURL w0,
        (downloadAndStore N cacheRepo normalizedURL imageURL w0).1 = None ->
        trace (downloadAndStore N cacheRepo normalizedURL imageURL w0).2
        = EvDownload imageURL :: trace w0 /\
        redis (downloadAndStore N cacheRepo normalizedURL imageURL w0).2 = redis w0).
Proof.
  cbv zeta.
  destruct (cacheLookup N cacheRepo (normalizeURL L resourceURL) w).1 as [c|] eqn:Hhit.
  - pose proof (FetchFaviconBase64_cases L N cacheRepo resourceURL w) as Hc.
    cbv zeta in Hc. rewrite Hhit in Hc. destruct Hc as [Hr Hw].
    destruct (cacheLookup_spec N cacheRepo (normalizeURL L resourceURL) w) as [Hq _].
    apply (quiet_storeFree cacheGetEvent) in Hq; [|class_incl].
    destruct Hq as (new & T & F & R). rewrite Hw, Hr. exists new. simpl.
    split; [exact T|]. split; [|split; [|split; [|split]]].
    + intros k v Hin. exfalso. eapply storeFree_not_in; eassumption.
    + split.
      * intros (k & v & Hin). exfalso. eapply storeFree_not_in; eassumption.
      * intros (_ & _ & H). discriminate H.
    + intros H. contradiction H. reflexivity.
    + intros _. exact R.
    + intros imageURL w0. apply downloadAndStore_failure.
  - pose proof (FetchFaviconBase64_miss_resolved L N cacheRepo resourceURL w Hhit) as Hres.
    apply resolved_writes in Hres. destruct Hres as (new & T & Hnew).
    exists new. split; [exact T|].
    destruct ((FetchFaviconBase64 L N cacheRepo resourceURL w).1) as [v [e|]] eqn:Hr;
      simpl in *.
    + destruct Hnew as [F R]. split; [|split; [|split; [|split]]].
      * intros k v' Hin. exfalso. eapply storeFree_not_in; eassumption.
      * split.
        -- intros (k & v' & Hin). exfalso. eapply storeFree_not_in; eassumption.
        -- intros (H & _). discriminate H.
      * intros _. auto.
      * intros _. exact R.
      * intros imageURL w0. apply downloadAndStore_failure.
    + destruct cacheRepo.
      * destruct Hnew as (rest & -> & F & R). split; [|split; [|split; [|split]]].
        -- intros k v' Hin. apply elem_of_cons in Hin as [Heq|Hin];
             [|exfalso; eapply storeFree_not_in; eassumption].
           inversion Heq; subst. split; [reflexivity|]. split; [reflexivity|].
           exists rest. split; [reflexivity|]. split; [exact F | exact R].
        -- split; [auto|]. intros _. exists (normalizeURL L resourceURL), v.
           apply elem_of_cons. left. reflexivity.
        -- intros H. contradiction H. reflexivity.
        -- intros Hfree. exfalso.
           eapply (storeFree_not_in _ (normalizeURL L resourceURL) v); [exact Hfree|].
           apply elem_of_cons. left. reflexivity.
        -- intros imageURL w0. apply downloadAndStore_failure.
      * destruct Hnew as [F R]. split; [|split; [|split; [|split]]].
        -- intros k v' Hin. exfalso. eapply storeFree_not_in; eassumption.
        -- split.
           ++ intros (k & v' & Hin). exfalso. eapply storeFree_not_in; eassumption.
           ++ intros (_ & H & _). discriminate H.
        -- intros H. contradiction H. reflexivity.
        -- intros _. exact R.
        -- intros imageURL w0. apply downloadAndStore_failure.
Qed.

(** ** The known-service shortcut *)

Lemma knownServices_nonempty domain icon :
  knownServices !! domain = Some icon -> icon <> "".
Proof.
  intros H. apply elem_of_list_to_map_2 in H.
  repeat (apply elem_of_cons in H as [H|H]; [inversion H; subst; discriminate|]).
  inversion H.
Qed.

Lemma getKnownServiceFavicon_hit L rawURL u icon :
  url_Parse L rawURL = Some u ->
  knownServices !! bareDomain L u = Some icon ->
  getKnownServiceFavicon L rawURL = icon.
Proof.
  intros Hp Hk. unfold getKnownServiceFavicon. rewrite Hp.
  unfold bareDomain in Hk. cbv zeta in *. rewrite Hk. reflexivity.
Qed.

Lemma getKnownServiceFavicon_miss L rawURL u :
  url_Parse L rawURL = Some u ->
  knownServices !! bareDomain L u = None ->
  getKnownServiceFavicon L rawURL = "".
Proof.
  intros Hp Hk. unfold getKnownServiceFavicon. rewrite Hp.
  unfold bareDomain in Hk. cbv zeta in *. rewrite Hk. reflexivity.
Qed.

Lemma download_success_nonempty N imageURL w v :
  (downloadAndEncodeToBase64 N imageURL w).1 = (v, None) -> v <> "".
Proof.
  intros Hd.
  destruct (download_outcome N imageURL w) as (Hiff & Hval & _).
  cbv zeta in *. rewrite Hd in *. simpl in *.
  destruct Hiff as [Hex _]. destruct (Hex eq_refl) as (resp & body & H1 & H2 & H3 & H4).
  specialize (Hval resp body H1 H2 H3 H4). inversion Hval. discriminate.
Qed.

Lemma resolved_extends N cacheRepo normalizedURL (P : Event -> bool) w r w' :
  resolved N cacheRepo normalizedURL P w r w' ->
  exists new, trace w' = new ++ trace w /\
              Forall (fun e => P e = true \/ isStore e = true) new.
Proof.
  assert (Hq : forall w1, quiet P w w1 ->
             exists new, trace w1 = new ++ trace w /\
                         Forall (fun e => P e = true \/ isStore e = true) new).
  { intros w1 (new & T & F & _). exists new. split; [exact T|].
    eapply Forall_impl; [exact F|]. auto. }
  unfold resolved. destruct (r.2).
  - intros [_ H]. apply Hq, H.
  - intros [_ (w1 & H & Hs)]. destruct (Hq _ H) as (new & T & F).
    unfold storedAfter in Hs. destruct cacheRepo.
    + destruct Hs as [T' _]. exists (EvCacheStore normalizedURL r.1 :: new).
      rewrite T', T. split; [reflexivity|]. constructor; [right; reflexivity | exact F].
    + subst w'. eauto.
Qed.

Lemma known_stage_run N cacheRepo normalizedURL faviconURL w0 :
  (_ ← emit (EvStage KnownService);
   downloadIfFound N cacheRepo normalizedURL faviconURL) w0 =
  downloadIfFound N cacheRepo normalizedURL faviconURL
                  (mkWorld (redis w0) (EvStage KnownService :: trace w0)).
Proof. reflexivity. Qed.

Lemma downloadAndStore_success N cacheRepo normalizedURL imageURL w v :
  (downloadAndEncodeToBase64 N imageURL w).1 = (v, None) ->
  exists w1,
    downloadAndStore N cacheRepo normalizedURL imageURL w = (Some v, w1) /\
    trace w1 = (if cacheRepo then [EvCacheStore normalizedURL v] else [])
                 ++ EvDownload imageURL :: trace w.
Proof.
  intros Hd. pose proof (download_success_nonempty N imageURL w v Hd) as Hv.
  destruct (download_outcome N imageURL w) as (_ & _ & _ & Ht & _).
  cbv zeta in Ht. unfold downloadAndStore. rewrite bind_run.
  destruct (downloadAndEncodeToBase64 N imageURL w) as [[v' e] w1].
  simpl in Hd, Ht. inversion Hd; subst v' e.
  apply String.eqb_neq in Hv. unfold nonEmpty. rewrite Hv. cbn [negb].
  destruct cacheRepo.
  - rewrite bind_run. unfold StoreFaviconBase64.
    destruct (redis_up N (trace w1)); eexists; (split; [reflexivity|]);
      simpl; rewrite Ht; reflexivity.
  - exists w1. split; [reflexivity|]. simpl. exact Ht.
Qed.

(** C7: when the host of the URL, lower-cased and without a leading
    "www.", is a key of the known-service table, [getKnownServiceFavicon]
    returns the icon URL of that entry; when the cache does not answer and
    that icon downloads, the resolution returns it and issues no page
    fetch; on a table miss the resolution goes on to fetch the page. *)
Theorem known_service_short_circuit (L : GoLibs) (N : Network) (cacheRepo : bool)
        (resourceURL : string) (w : World) :
  let normalizedURL := normalizeURL L resourceURL in
  let target := withScheme resourceURL in
  let r := (FetchFaviconBase64 L N cacheRepo resourceURL w).1 in
  let w' := (FetchFaviconBase64 L N cacheRepo resourceURL w).2 in
  let w0 := (cacheLookup N cacheRepo normalizedURL w).2 in
  (forall rawURL u icon,
      url_Parse L rawURL = Some u ->
      knownServices !! bareDomain L u = Some icon ->
      getKnownServiceFavicon L rawURL = icon) /\
  (forall u icon v,
      (cacheLookup N cacheRepo normalizedURL w).1 = None ->
      url_Parse L target = Some u ->
      knownServices !! bareDomain L u = Some icon ->
      (downloadAndEncodeToBase64 N icon
         (mkWorld (redis w0) (EvStage KnownService :: trace w0))).1 = (v, None) ->
      r = (v, None) /\
      exists new, trace w' = new ++ trace w /\
                  EvDownload icon ∈ new /\
                  Forall (fun e => isPageFetch e = false) new) /\
  (forall u,
      (cacheLookup N cacheRepo normalizedURL w).1 = None ->
      url_Parse L target = Some u ->
      knownServices !! bareDomain L u = None ->
      exists new, trace w' = new ++ trace w /\ EvPageFetch target ∈ new).
Proof.
  cbv zeta. split; [apply getKnownServiceFavicon_hit|].
  destruct (cacheLookup_spec N cacheRepo (normalizeURL L resourceURL) w)
    as [(n0 & T0 & F0 & R0) _].
  split.
  - intros u icon v Hmiss Hp Hk Hd.
    rewrite FetchFaviconBase64_run. cbv zeta.
    destruct (cacheLookup N cacheRepo (normalizeURL L resourceURL) w) as [hit w0].
    simpl in *. subst hit.
    rewrite (getKnownServiceFavicon_hit L _ u icon Hp Hk).
    rewrite known_stage_run. unfold downloadIfFound, nonEmpty.
    pose proof (knownServices_nonempty _ _ Hk) as Hne.
    apply String.eqb_neq in Hne. rewrite Hne. cbn [negb].
    destruct (downloadAndStore_success N cacheRepo (normalizeURL L resourceURL)
                icon _ v Hd) as (w1 & -> & T1).
    simpl. split; [reflexivity|].
    exists ((if cacheRepo then [EvCacheStore (normalizeURL L resourceURL) v] else [])
              ++ EvDownload icon :: EvStage KnownService :: n0).
    rewrite T1. simpl. rewrite T0. rewrite <- !app_assoc. simpl.
    split; [reflexivity|]. split.
    + apply elem_of_app. right. apply elem_of_cons. left. reflexivity.
    + apply Forall_app. split; [destruct cacheRepo; repeat constructor|].
      repeat (constructor; [reflexivity|]).
      eapply Forall_impl; [exact F0|]. intros []; simpl; congruence.
  - intros u Hmiss Hp Hk.
    rewrite FetchFaviconBase64_run. cbv zeta.
    destruct (cacheLookup N cacheRepo (normalizeURL L resourceURL) w) as [hit w0].
    simpl in *. subst hit.
    rewrite (getKnownServiceFavicon_miss L _ u Hp Hk).
    rewrite known_stage_run. unfold downloadIfFound, nonEmpty. simpl.
    rewrite Hp.
    destruct (client_Do N _ (withScheme resourceURL)) as [resp|].
    + pose proof (afterPageFetch_resolved L N cacheRepo (normalizeURL L resourceURL)
                    (withScheme resourceURL) resp
                    (mkWorld (redis w0)
                       (EvPageFetch (withScheme resourceURL)
                          :: EvStage KnownService :: trace w0))) as Hres.
      apply resolved_extends in Hres. destruct Hres as (n2 & T2 & _).
      exists (n2 ++ EvPageFetch (withScheme resourceURL) :: EvStage KnownService :: n0).
      rewrite T2. simpl. rewrite T0. rewrite <- !app_assoc. simpl.
      split; [reflexivity|].
      apply elem_of_app. right. apply elem_of_cons. left. reflexivity.
    + simpl. exists (EvPageFetch (withScheme resourceURL) :: EvStage KnownService :: n0).
      rewrite T0. split; [reflexivity|]. apply elem_of_cons. left. reflexivity.
Qed.

(** ** The short-circuit after the page fetch *)

Lemma split_unique (P : Event -> bool) l1 : forall x l2 l1' x' l2',
  l1 ++ x :: l2 = l1' ++ x' :: l2' ->
  Forall (fun e => P e = false) l1 ->
  Forall (fun e => P e = false) l2 ->
  P x' = true ->
  l1 = l1' /\ x = x' /\ l2 = l2'.
Proof.
  induction l1 as [|a t IH]; intros x l2 l1' x' l2' Heq F1 F2 Hx'.
  - destruct l1' as [|b t']; simpl in Heq; inversion Heq; subst; [auto|].
    exfalso. rewrite Forall_forall in F2.
    assert (Hin : x' ∈ t' ++ x' :: l2')
      by (apply elem_of_app; right; apply elem_of_cons; left; reflexivity).
    specialize (F2 _ Hin). congruence.
  - inversion F1 as [|? ? Ha Ft]; subst.
    destruct l1' as [|b t']; simpl in Heq; inversion Heq; subst; [congruence|].
    destruct (IH x l2 t' x' l2') as (-> & -> & ->); auto.
Qed.

Lemma no_page_fetch_contra w w' new post u pre :
  trace w' = new ++ trace w ->
  Forall (fun e => isPageFetch e = false) new ->
  trace w' = post ++ EvPageFetch u :: pre ++ trace w ->
  False.
Proof.
  intros T F H. rewrite T in H.
  change (post ++ EvPageFetch u :: pre ++ trace w)
    with (post ++ (EvPageFetch u :: pre) ++ trace w) in H.
  rewrite app_assoc in H. apply app_inv_tail in H. subst new.
  apply Forall_app in F as [_ F]. inversion F as [|? ? Hu _]. discriminate Hu.
Qed.

Lemma found_extends N cacheRepo normalizedURL (P : Event -> bool) v w w' :
  found N cacheRepo normalizedURL P v w w' ->
  exists new, trace w' = new ++ trace w /\
              Forall (fun e => P e = true \/ isStore e = true) new.
Proof.
  intros (w1 & (new & T & F & _) & Hs). unfold storedAfter in Hs.
  assert (F' : Forall (fun e => P e = true \/ isStore e = true) new)
    by (eapply Forall_impl; [exact F | auto]).
  destruct cacheRepo.
  - destruct Hs as [T' _]. exists (EvCacheStore normalizedURL v :: new).
    rewrite T', T. split; [reflexivity|]. constructor; [right; reflexivity | exact F'].
  - subst w'. eauto.
Qed.

(** C2 (amended): in a resolution whose page fetch short-circuits (the
    final response is an authorization redirect or has any status other
    than 200) the HTML and regex states are never entered; the resolution
    goes to the base domain, where only the known-service table and the
    standard-location probe are tried, and when those fail it reports
    not-found without entering the DefaultIcon state. *)
Theorem page_fetch_short_circuit (L : GoLibs) (N : Network) (cacheRepo : bool)
        (resourceURL : string) (w : World)
        (post pre : list Event) (u : string) (resp : http.Response) :
  let r := (FetchFaviconBase64 L N cacheRepo resourceURL w).1 in
  let w' := (FetchFaviconBase64 L N cacheRepo resourceURL w).2 in
  trace w' = post ++ EvPageFetch u :: pre ++ trace w ->
  client_Do N (pre ++ trace w) u = Some resp ->
  (300 <= http.StatusCode resp < 400 /\ authLocation (http.Location resp) = true) \/
  http.StatusCode resp <> 200 ->
  u = withScheme resourceURL /\
  Forall (fun e => baseDomainEvent e = true \/ isStore e = true) post /\
  Forall (fun e => cacheGetEvent e = true \/ knownServiceEvent e = true) pre /\
  (forall s, s = HTML \/ s = Regex \/ s = DefaultIcon ->
             EvStage s ∉ post ++ EvPageFetch u :: pre) /\
  (r.2 = None \/ r = ("", Some ErrBaseDomain)).
Proof.
  cbv zeta. intros Htrace Hdo Hshort.
  assert (Hs : http.StatusCode resp <> 200) by (destruct Hshort as [[? _]|?]; lia).
  clear Hshort.
  assert (Hmain :
    u = withScheme resourceURL /\
    Forall (fun e => baseDomainEvent e = true \/ isStore e = true) post /\
    Forall (fun e => cacheGetEvent e = true \/ knownServiceEvent e = true) pre /\
    ((FetchFaviconBase64 L N cacheRepo resourceURL w).1.2 = None \/
     (FetchFaviconBase64 L N cacheRepo resourceURL w).1 = ("", Some ErrBaseDomain))).
  2:{ destruct Hmain as (Hu & Fpost & Fpre & Hr). repeat split; try assumption.
      intros s Hstage Hin.
      apply elem_of_app in Hin as [Hin|Hin].
      - rewrite Forall_forall in Fpost. specialize (Fpost _ Hin).
        destruct Hstage as [-> | [-> | ->]], Fpost; discriminate.
      - apply elem_of_cons in Hin as [Hin|Hin]; [discriminate Hin|].
        rewrite Forall_forall in Fpre. specialize (Fpre _ Hin).
        destruct Hstage as [-> | [-> | ->]], Fpre; discriminate. }
  pose proof (FetchFaviconBase64_cases L N cacheRepo resourceURL w) as Hc.
  cbv zeta in Hc.
  destruct (cacheLookup_spec N cacheRepo (normalizeURL L resourceURL) w)
    as [(n0 & T0 & F0 & R0) _].
  assert (F0' : Forall (fun e => isPageFetch e = false) n0).
  { eapply Forall_impl; [exact F0|]. intros []; simpl; congruence. }
  destruct ((cacheLookup N cacheRepo (normalizeURL L resourceURL) w).1) as [c|].
  { destruct Hc as [_ Hw]. rewrite Hw in Htrace. exfalso.
    eapply no_page_fetch_contra; [exact T0 | exact F0' | exact Htrace]. }
  destruct Hc as [(_ & _ & _ & Hf) | (w1 & (n1 & T1 & F1 & R1) & Hrest)].
  { apply found_extends in Hf. destruct Hf as (n1 & T1 & F1). exfalso.
    eapply (no_page_fetch_contra w _ (n1 ++ n0)); [| |exact Htrace].
    - rewrite T1, T0, app_assoc. reflexivity.
    - apply Forall_app. split; [|exact F0'].
      eapply Forall_impl; [exact F1|]. intros [[]| | | | |] [H|H]; simpl in *; congruence. }
  assert (F1' : Forall (fun e => isPageFetch e = false) n1).
  { eapply Forall_impl; [exact F1|]. intros [[]| | | | |]; simpl; congruence. }
  assert (T10 : trace w1 = (n1 ++ n0) ++ trace w)
    by (rewrite T1, T0, app_assoc; reflexivity).
  assert (F10 : Forall (fun e => isPageFetch e = false) (n1 ++ n0))
    by (apply Forall_app; split; assumption).
  destruct (url_Parse L (withScheme resourceURL)) as [baseURL|] eqn:Hp.
  2:{ destruct Hrest as [_ Hw]. rewrite Hw in Htrace. exfalso.
      eapply no_page_fetch_contra; [exact T10 | exact F10 | exact Htrace]. }
  cbv zeta in Hrest.
  set (w2 := mkWorld (redis w1) (EvPageFetch (withScheme resourceURL) :: trace w1)) in *.
  assert (Hsplit : forall n2,
             trace (FetchFaviconBase64 L N cacheRepo resourceURL w).2 = n2 ++ trace w2 ->
             Forall (fun e => isPageFetch e = false) n2 ->
             n2 = post /\ withScheme resourceURL = u /\ n1 ++ n0 = pre).
  { intros n2 T2 F2. rewrite T2 in Htrace. simpl in Htrace. rewrite T10 in Htrace.
    change (n2 ++ EvPageFetch (withScheme resourceURL) :: (n1 ++ n0) ++ trace w)
      with (n2 ++ (EvPageFetch (withScheme resourceURL) :: n1 ++ n0) ++ trace w) in Htrace.
    change (post ++ EvPageFetch u :: pre ++ trace w)
      with (post ++ (EvPageFetch u :: pre) ++ trace w) in Htrace.
    rewrite !app_assoc in Htrace. apply app_inv_tail in Htrace.
    apply (split_unique isPageFetch) in Htrace;
      [|assumption|assumption|reflexivity].
    destruct Htrace as (H1 & H2 & H3). inversion H2. auto. }
  destruct (client_Do N (trace w1) (withScheme resourceURL)) as [resp'|] eqn:Hdo'.
  2:{ destruct Hrest as [_ Hw].
      destruct (Hsplit []) as (_ & <- & <-); [rewrite Hw; reflexivity | constructor|].
      rewrite <- T10, Hdo' in Hdo. discriminate Hdo. }
  destruct Hrest as [Hr Hw].
  pose proof (afterPageFetch_resolved L N cacheRepo (normalizeURL L resourceURL)
                (withScheme resourceURL) resp' w2) as Hres.
  apply resolved_extends in Hres. destruct Hres as (n2 & T2 & F2).
  destruct (Hsplit n2) as (<- & <- & <-).
  { rewrite Hw. exact T2. }
  { eapply Forall_impl; [exact F2|].
    intros [[]| | | | |] [H|H]; simpl in *; congruence. }
  rewrite <- T10, Hdo' in Hdo. inversion Hdo; subst resp'.
  rewrite (afterPageFetch_short_circuit L N cacheRepo _ _ resp baseURL w2 Hs Hp) in *.
  pose proof (tryFaviconFromBaseDomain_resolved L N cacheRepo
                (normalizeURL L resourceURL) baseURL w2) as Hres.
  apply resolved_extends in Hres. destruct Hres as (n2' & T2' & F2').
  rewrite T2 in T2'. apply app_inv_tail in T2'. subst n2'.
  split; [reflexivity|]. split; [exact F2'|].
  split.
  { apply Forall_app. split.
    - eapply Forall_impl; [exact F1 | auto].
    - eapply Forall_impl; [exact F0 | auto]. }
  rewrite Hr.
  destruct ((tryFaviconFromBaseDomain L N cacheRepo (normalizeURL L resourceURL)
               baseURL w2).1) as [v [e|]] eqn:Hrun; [|left; reflexivity].
  right.
  pose proof (tryFaviconFromBaseDomain_error L N cacheRepo
                (normalizeURL L resourceURL) baseURL w2 e) as He.
  pose proof (tryFaviconFromBaseDomain_resolved L N cacheRepo
                (normalizeURL L resourceURL) baseURL w2) as Hres.
  rewrite Hrun in He, Hres. simpl in He. rewrite (He eq_refl).
  unfold resolved in Hres. simpl in Hres. destruct Hres as [-> _]. reflexivity.
Qed.

Example short_circuit_run :
  FetchFaviconBase64 Ref.libs notFoundNet true "example.com/page" emptyWorld =
  (("", Some ErrBaseDomain),
   mkWorld ∅
     ([ EvHead "https://example.com/favicon-16x16.png";
        EvHead "https://example.com/favicon-32x32.png";
        EvHead "https://example.com/favicon.png";
        EvHead "https://example.com/icon.png";
        EvHead "https://example.com/icon-192x192.png";
        EvHead "https://example.com/android-chrome-192x192.png";
        EvHead "https://example.com/apple-icon.png";
        EvHead "https://example.com/apple-touch-icon-precomposed.png";
        EvHead "https://example.com/apple-touch-icon-180x180.png";
        EvHead "https://example.com/apple-touch-icon-152x152.png";
        EvHead "https://example.com/apple-touch-icon-120x120.png";
        EvHead "https://example.com/apple-touch-icon.png";
        EvHead "https://example.com/favicon.ico";
        EvStage Standard; EvStage KnownService ]
      ++ EvPageFetch "https://example.com/page"
      :: [ EvStage KnownService; EvCacheGet "https://example.com" ])).
Proof. vm_compute. reflexivity. Qed.

(** C2, as stated, fails: on [notFoundNet] the page fetch of
    "example.com/page" ends in a 404 and every probe of a standard location
    fails; the resolution reports not-found and has neither entered the
    DefaultIcon state nor downloaded origin + "/favicon.ico". *)
Lemma short_circuit_skips_default_icon :
  client_Do notFoundNet [ EvStage KnownService; EvCacheGet "https://example.com" ]
            "https://example.com/page" = Some notFoundResponse /\
  http.StatusCode notFoundResponse <> 200 /\
  (FetchFaviconBase64 Ref.libs notFoundNet true "example.com/page" emptyWorld).1
  = ("", Some ErrBaseDomain) /\
  (EvStage DefaultIcon ∉
     trace (FetchFaviconBase64 Ref.libs notFoundNet true "example.com/page" emptyWorld).2) /\
  (EvDownload "https://example.com/favicon.ico" ∉
     trace (FetchFaviconBase64 Ref.libs notFoundNet true "example.com/page" emptyWorld).2).
Proof.
  rewrite short_circuit_run. simpl.
  split; [reflexivity|]. split; [discriminate|]. split; [reflexivity|].
  split; apply (bool_decide_unpack _); vm_compute; reflexivity.
Qed.

Lemma page_fetch_short_circuit_witness :
  (EvStage DefaultIcon ∉
     trace (FetchFaviconBase64 Ref.libs notFoundNet true "example.com/page" emptyWorld).2) /\
  ((FetchFaviconBase64 Ref.libs notFoundNet true "example.com/page" emptyWorld).1.2 = None \/
   (FetchFaviconBase64 Ref.libs notFoundNet true "example.com/page" emptyWorld).1
   = ("", Some ErrBaseDomain)).
Proof.
  destruct (page_fetch_short_circuit Ref.libs notFoundNet true "example.com/page"
              emptyWorld
              [ EvHead "https://example.com/favicon-16x16.png";
                EvHead "https://example.com/favicon-32x32.png";
                EvHead "https://example.com/favicon.png";
                EvHead "https://example.com/icon.png";
                EvHead "https://example.com/icon-192x192.png";
                EvHead "https://example.com/android-chrome-192x192.png";
                EvHead "https://example.com/apple-icon.png";
                EvHead "https://example.com/apple-touch-icon-precomposed.png";
                EvHead "https://example.com/apple-touch-icon-180x180.png";
                EvHead "https://example.com/apple-touch-icon-152x152.png";
                EvHead "https://example.com/apple-touch-icon-120x120.png";
                EvHead "https://example.com/apple-touch-icon.png";
                EvHead "https://example.com/favicon.ico";
                EvStage Standard; EvStage KnownService ]
              [ EvStage KnownService; EvCacheGet "https://example.com" ]
              "https://example.com/page" notFoundResponse)
    as (_ & _ & _ & Hstage & Hr).
  - vm_compute. reflexivity.
  - reflexivity.
  - right. discriminate.
  - split; [|exact Hr].
    rewrite short_circuit_run. apply (Hstage DefaultIcon). auto.
Defined.

Lemma cache_written_on_download_witness :
  ((FetchFaviconBase64 Ref.libs githubOnly true "github.com/x" emptyWorld).1
   = ("data:image/png;base64,UE5H", None) /\
   redis (FetchFaviconBase64 Ref.libs githubOnly true "github.com/x" emptyWorld).2
   = <["favicon_base64:https://github.com" :=
         redis.mkEntry "data:image/png;base64,UE5H" (Some 604800)]> ∅) /\
  ((FetchFaviconBase64 Ref.libs githubRedisDown true "github.com/x" emptyWorld).1
   = ("data:image/png;base64,UE5H", None) /\
   redis (FetchFaviconBase64 Ref.libs githubRedisDown true "github.com/x" emptyWorld).2
   = ∅) /\
  redis (FetchFaviconBase64 Ref.libs notFoundNet true "example.com/page" emptyWorld).2
  = redis emptyWorld /\
  trace (downloadAndStore githubOnly true "https://github.com"
           "https://github.com/missing.png" emptyWorld).2
  = [ EvDownload "https://github.com/missing.png" ].
Proof.
  split; [|split; [|split]].
  - destruct (cache_written_on_download Ref.libs githubOnly true "github.com/x"
                emptyWorld) as (new & T & Hstore & _).
    assert (Hnew : new = [ EvCacheStore "https://github.com" "data:image/png;base64,UE5H";
                           EvDownload "https://github.com/favicon.ico";
                           EvStage KnownService; EvCacheGet "https://github.com" ]).
    { rewrite app_nil_r in T. rewrite <- T. vm_compute. reflexivity. }
    destruct (Hstore "https://github.com" "data:image/png;base64,UE5H")
      as (_ & Hr & rest & Hrest & _ & Hredis).
    { rewrite Hnew. apply elem_of_cons. left. reflexivity. }
    split; [exact Hr|]. rewrite Hredis. reflexivity.
  - destruct (cache_written_on_download Ref.libs githubRedisDown true "github.com/x"
                emptyWorld) as (new & T & Hstore & _).
    assert (Hnew : new = [ EvCacheStore "https://github.com" "data:image/png;base64,UE5H";
                           EvDownload "https://github.com/favicon.ico";
                           EvStage KnownService; EvCacheGet "https://github.com" ]).
    { rewrite app_nil_r in T. rewrite <- T. vm_compute. reflexivity. }
    destruct (Hstore "https://github.com" "data:image/png;base64,UE5H")
      as (_ & Hr & rest & Hrest & _ & Hredis).
    { rewrite Hnew. apply elem_of_cons. left. reflexivity. }
    split; [exact Hr|]. rewrite Hredis. reflexivity.
  - destruct (cache_written_on_download Ref.libs notFoundNet true "example.com/page"
                emptyWorld) as (new & _ & _ & _ & Hfail & _).
    apply Hfail. rewrite short_circuit_run. discriminate.
  - destruct (cache_written_on_download Ref.libs githubOnly true "github.com/x"
                emptyWorld) as (new & _ & _ & _ & _ & _ & Hmid).
    apply (Hmid "https://github.com/missing.png" emptyWorld).
    vm_compute. reflexivity.
Defined.

Lemma known_service_short_circuit_witness :
  getKnownServiceFavicon Ref.libs "https://WWW.GitHub.com/x"
  = "https://github.com/favicon.ico" /\
  (FetchFaviconBase64 Ref.libs githubOnly true "github.com/x" emptyWorld).1
  = ("data:image/png;base64,UE5H", None) /\
  exists new,
    trace (FetchFaviconBase64 Ref.libs noIconNet true "example.com/page" emptyWorld).2
    = new ++ trace emptyWorld /\
    EvPageFetch "https://example.com/page" ∈ new.
Proof.
  split; [|split].
  - destruct (known_service_short_circuit Ref.libs githubOnly true "github.com/x"
                emptyWorld) as (Hhit & _).
    apply (Hhit _ (net_url.mkURL "https" "WWW.GitHub.com" "/x" "" ""));
      vm_compute; reflexivity.
  - destruct (known_service_short_circuit Ref.libs githubOnly true "github.com/x"
                emptyWorld) as (_ & Hok & _).
    destruct (Hok (net_url.mkURL "https" "github.com" "/x" "" "")
                  "https://github.com/favicon.ico" "data:image/png;base64,UE5H")
      as [Hr _]; [vm_compute; reflexivity ..|exact Hr].
  - destruct (known_service_short_circuit Ref.libs noIconNet true "example.com/page"
                emptyWorld) as (_ & _ & Hmiss).
    apply (Hmiss (net_url.mkURL "https" "example.com" "/page" "" ""));
      vm_compute; reflexivity.
Defined.

(** ** The batch: [fetchFaviconsParallel] *)

Lemma count_insert (f : TaskPC -> bool) (l : list TaskPC) : forall i old new,
  l !! i = Some old ->
  (count f (<[i := new]> l) + (if f old then 1 else 0)
   = count f l + (if f new then 1 else 0))%nat.
Proof.
  induction l as [|t l IH]; intros i old new Hl; [discriminate Hl|].
  destruct i as [|i]; simpl in *.
  - inversion Hl; subst. lia.
  - specialize (IH i old new Hl). lia.
Qed.

Lemma count_pos (f : TaskPC -> bool) (l : list TaskPC) : forall i t,
  l !! i = Some t -> f t = true -> (0 < count f l)%nat.
Proof.
  induction l as [|t' l IH]; intros i t Hl Hf; [discriminate Hl|].
  destruct i as [|i]; simpl in *.
  - inversion Hl; subst. rewrite Hf. lia.
  - specialize (IH i t Hl Hf). lia.
Qed.

Lemma count_zero (f : TaskPC -> bool) (l : list TaskPC) i t :
  count f l = O -> l !! i = Some t -> f t = false.
Proof.
  intros Hc Hl. destruct (f t) eqn:Hf; [|reflexivity].
  pose proof (count_pos f l i t Hl Hf). lia.
Qed.

Lemma count_replicate (f : TaskPC -> bool) n t :
  f t = false -> count f (replicate n t) = O.
Proof. intros Hf. induction n; simpl; [reflexivity|]. rewrite Hf, IHn. reflexivity. Qed.

Lemma count_le (f g : TaskPC -> bool) (l : list TaskPC) :
  (forall t, f t = true -> g t = true) -> (count f l <= count g l)%nat.
Proof.
  intros Hfg. induction l as [|t l IH]; simpl; [lia|].
  destruct (f t) eqn:Hf; [rewrite (Hfg t Hf); lia | destruct (g t); lia].
Qed.

Section BatchFacts.
Context (L : GoLibs) (faviconCache : bool) (Env : Network -> World -> Prop).

Local Abbreviation slotOk := (slotOK L faviconCache Env).
Local Abbreviation Invariant := (Inv L faviconCache Env).
Local Abbreviation Step := (step L faviconCache Env).
Local Abbreviation Reachable := (reachable L faviconCache Env).

(** The record of a slot depends on the state through the position of
    the loop and the calls made for the slot. *)
Lemma slotOK_frame s s' i b t b' :
  (visited s i <-> visited s' i) ->
  callsFor i s' = callsFor i s ->
  slotOk s i b t b' -> slotOk s' i b t b'.
Proof.
  intros Hv Hc. unfold slotOK. rewrite Hc.
  destruct t; intuition.
Qed.

Lemma Inv_init bms : Invariant bms (initBatch bms).
Proof.
  constructor; simpl.
  - apply length_replicate.
  - reflexivity.
  - intros i b Hb. exists NotSpawned, b.
    split; [apply lookup_replicate_2; eapply lookup_lt_Some; exact Hb|].
    split; [exact Hb|]. simpl. repeat split.
    unfold visited. simpl. lia.
  - intros i u H. inversion H.
  - unfold countTasks. simpl. rewrite count_replicate; reflexivity.
  - unfold semaphoreCap. lia.
  - unfold countTasks. simpl. rewrite count_replicate; reflexivity.
  - discriminate.
Qed.

(** At the head of the loop the current index has no goroutine and its
    record is the one the function was given. *)
Lemma Inv_loop_head bms s i b0 :
  Invariant bms s -> mainPC s = Loop i -> bookmarks s !! i = Some b0 ->
  tasks s !! i = Some NotSpawned /\ bms !! i = Some b0.
Proof.
  intros HI Hm Hb0.
  assert (Hlt : (i < length bms)%nat).
  { rewrite <- (inv_bookmarks _ _ _ _ _ HI). eapply lookup_lt_Some. exact Hb0. }
  destruct (lookup_lt_is_Some_2 bms i Hlt) as [b Hb].
  destruct (inv_slots _ _ _ _ _ HI i b Hb) as (t & b' & Ht & Hb' & Hok).
  rewrite Hb0 in Hb'. inversion Hb'; subst b'.
  unfold slotOK, visited in Hok. rewrite Hm in Hok.
  destruct t; try (exfalso; intuition lia).
  destruct Hok as (-> & _). auto.
Qed.

Lemma Inv_task_index bms s idx t :
  Invariant bms s -> tasks s !! idx = Some t -> exists b, bms !! idx = Some b.
Proof.
  intros HI Ht. apply lookup_lt_is_Some_2.
  rewrite <- (inv_tasks _ _ _ _ _ HI). eapply lookup_lt_Some. exact Ht.
Qed.

(** A goroutine that is still running keeps the function at or before
    [wg.Wait()]. *)
Lemma Inv_live_not_returned bms s idx t :
  Invariant bms s -> tasks s !! idx = Some t -> live t = true -> mainPC s <> Returned.
Proof.
  intros HI Ht Hl Hm. pose proof (inv_returned _ _ _ _ _ HI Hm) as Hz.
  pose proof (count_pos live (tasks s) idx t Ht Hl). unfold countTasks in Hz. lia.
Qed.

(** A step of the goroutine [idx] that changes neither the loop position
    nor the calls leaves the other slots as they are. *)
Lemma slots_other bms s s' idx tnew :
  Invariant bms s ->
  mainPC s' = mainPC s ->
  tasks s' = <[idx := tnew]> (tasks s) ->
  (forall j, j <> idx -> bookmarks s' !! j = bookmarks s !! j) ->
  (forall j, j <> idx -> callsFor j s' = callsFor j s) ->
  forall j b, j <> idx -> bms !! j = Some b ->
  exists t b', tasks s' !! j = Some t /\ bookmarks s' !! j = Some b' /\
               slotOk s' j b t b'.
Proof.
  intros HI Hm Ht Hb Hc j b Hne Hj.
  destruct (inv_slots _ _ _ _ _ HI j b Hj) as (t & b' & Ht' & Hb' & Hok).
  exists t, b'. rewrite Ht, list_lookup_insert_ne by auto.
  rewrite Hb by assumption. repeat split; try assumption.
  eapply slotOK_frame; [| |exact Hok].
  - unfold visited. rewrite Hm. reflexivity.
  - apply Hc, Hne.
Qed.

Ltac inv_side :=
  first [ assumption | rewrite length_insert; assumption | lia
        | intros; contradiction | discriminate ].

Lemma Inv_step bms s s' : Invariant bms s -> Step s s' -> Invariant bms s'.
Proof.
  intros HI Hstep.
  destruct Hstep as [s i b0 Hm Hb0 Hu | s i b0 Hm Hb0 Hu | s i Hm Hnone | s Hm Hwg
                    | s idx Ht Hsem | s idx b0 N w HEnv Ht Hb0
                    | s idx favicon b0 Ht Hb0 | s idx Ht | s idx Ht].
  - (* the loop skips a record without URL *)
    destruct (Inv_loop_head bms s i b0 HI Hm Hb0) as [Hti Hbi].
    destruct HI as [H1 H2 H3 H4 H5 H6 H7 H8].
    constructor; simpl; try assumption; [|discriminate].
    intros j b Hj. destruct (H3 j b Hj) as (t & b' & Ht & Hb' & Hok).
    exists t, b'. split; [exact Ht|]. split; [exact Hb'|].
    unfold slotOK, visited, callsFor in Hok |- *. simpl. rewrite Hm in Hok.
    destruct t; [|intuition lia ..].
    destruct Hok as (E & C & V). split; [exact E|]. split; [exact C|].
    intros Hlt. destruct (decide (j = i)) as [->|Hne]; [|apply V; lia].
    rewrite Hbi in Hj. inversion Hj; subst. exact Hu.
  - (* the loop starts a goroutine *)
    destruct (Inv_loop_head bms s i b0 HI Hm Hb0) as [Hti Hbi].
    pose proof (count_insert holdsSlot (tasks s) i NotSpawned Acquire Hti) as Hh.
    pose proof (count_insert live (tasks s) i NotSpawned Acquire Hti) as Hl.
    destruct HI as [H1 H2 H3 H4 H5 H6 H7 H8].
    constructor; unfold countTasks in *; simpl in *; try inv_side.
    intros j b Hj. destruct (H3 j b Hj) as (t & b' & Ht & Hb' & Hok).
    unfold slotOK, visited, callsFor in Hok |- *. simpl. rewrite Hm in Hok.
    destruct (decide (j = i)) as [->|Hne].
    + rewrite Hti in Ht. inversion Ht; subst t.
      rewrite Hbi in Hj. inversion Hj; subst b.
      exists Acquire, b'. rewrite list_lookup_insert_eq
        by (eapply lookup_lt_Some; exact Hti).
      destruct Hok as (E & C & V).
      split; [reflexivity|]. split; [exact Hb'|].
      split; [exact E|]. split; [exact C|]. split; [exact Hu | lia].
    + exists t, b'. rewrite list_lookup_insert_ne by auto.
      split; [exact Ht|]. split; [exact Hb'|].
      destruct t; [|intuition lia ..].
      destruct Hok as (E & C & V). split; [exact E|]. split; [exact C|].
      intros Hlt. apply V. lia.
  - (* the loop ends *)
    assert (Hlen : (length (bookmarks s) <= i)%nat) by (apply lookup_ge_None; exact Hnone).
    destruct HI as [H1 H2 H3 H4 H5 H6 H7 H8].
    constructor; simpl; try assumption; [|discriminate].
    intros j b Hj. destruct (H3 j b Hj) as (t & b' & Ht & Hb' & Hok).
    assert (Hlt : (j < i)%nat).
    { apply lookup_lt_Some in Hj. lia. }
    exists t, b'. split; [exact Ht|]. split; [exact Hb'|].
    unfold slotOK, visited, callsFor in Hok |- *. simpl. rewrite Hm in Hok.
    destruct t; intuition.
  - (* [wg.Wait()] returns *)
    destruct HI as [H1 H2 H3 H4 H5 H6 H7 H8].
    constructor; simpl; try assumption.
    + intros j b Hj. destruct (H3 j b Hj) as (t & b' & Ht & Hb' & Hok).
      exists t, b'. split; [exact Ht|]. split; [exact Hb'|].
      unfold slotOK, visited, callsFor in Hok |- *. simpl. rewrite Hm in Hok.
      destruct t; intuition.
    + intros _. unfold countTasks in *. simpl. lia.
  - (* a goroutine takes a slot *)
    destruct (Inv_task_index bms s idx _ HI Ht) as [bi Hbi].
    pose proof (Inv_live_not_returned bms s idx _ HI Ht eq_refl) as Hnr.
    pose proof (count_insert holdsSlot (tasks s) idx Acquire Resolve Ht) as Hh.
    pose proof (count_insert live (tasks s) idx Acquire Resolve Ht) as Hl.
    pose proof (slots_other bms s
                  (mkBatch (mainPC s) (<[idx := Resolve]> (tasks s)) (S (semaphore s))
                           (wg s) (bookmarks s) (resolutions s))
                  idx Resolve HI eq_refl eq_refl
                  (fun _ _ => eq_refl) (fun _ _ => eq_refl)) as Hother.
    destruct HI as [H1 H2 H3 H4 H5 H6 H7 H8].
    constructor; unfold countTasks in *; simpl in *; try inv_side.
    intros j b Hj. destruct (decide (j = idx)) as [->|Hne]; [|apply Hother; assumption].
    destruct (H3 idx b Hj) as (t & b' & Ht' & Hb' & Hok).
    rewrite Ht in Ht'. inversion Ht'; subst t.
    exists Resolve, b'. rewrite list_lookup_insert_eq
      by (eapply lookup_lt_Some; exact Ht).
    repeat split; try assumption; apply Hok.
  - (* a goroutine calls getFavicon *)
    destruct (Inv_task_index bms s idx _ HI Ht) as [bi Hbi].
    pose proof (Inv_live_not_returned bms s idx _ HI Ht eq_refl) as Hnr.
    set (tnew := WriteBack (getFavicon L N faviconCache (model.URL b0) w).1).
    pose proof (count_insert holdsSlot (tasks s) idx Resolve tnew Ht) as Hh.
    pose proof (count_insert live (tasks s) idx Resolve tnew Ht) as Hl.
    assert (Hcalls : forall j, j <> idx ->
               callsFor j (mkBatch (mainPC s) (<[idx := tnew]> (tasks s)) (semaphore s)
                                   (wg s) (bookmarks s)
                                   ((idx, model.URL b0) :: resolutions s))
               = callsFor j s).
    { intros j Hne. unfold callsFor. simpl.
      destruct (Nat.eqb_spec idx j); [congruence | reflexivity]. }
    pose proof (slots_other bms s
                  (mkBatch (mainPC s) (<[idx := tnew]> (tasks s)) (semaphore s)
                           (wg s) (bookmarks s)
                           ((idx, model.URL b0) :: resolutions s))
                  idx tnew HI eq_refl eq_refl
                  (fun _ _ => eq_refl) Hcalls) as Hother.
    destruct HI as [H1 H2 H3 H4 H5 H6 H7 H8].
    constructor; unfold countTasks in *; simpl in *; try inv_side.
    + intros j b Hj. destruct (decide (j = idx)) as [->|Hne]; [|apply Hother; assumption].
      destruct (H3 idx b Hj) as (t & b' & Ht' & Hb' & Hok).
      rewrite Ht in Ht'. inversion Ht'; subst t.
      rewrite Hb0 in Hb'. inversion Hb'; subst b'.
      destruct Hok as (-> & Hc & Hurl & Hv).
      exists tnew, b. rewrite list_lookup_insert_eq
        by (eapply lookup_lt_Some; exact Ht).
      repeat split; try assumption.
      * unfold callsFor in *. simpl. rewrite Nat.eqb_refl, Hc. reflexivity.
      * exists N, w. split; [exact HEnv | reflexivity].
    + intros j u Hin. apply elem_of_cons in Hin as [Heq|Hin]; [|eapply H4; exact Hin].
      inversion Heq; subst. eapply lookup_lt_Some. exact Hbi.
  - (* a goroutine writes its result *)
    destruct (Inv_task_index bms s idx _ HI Ht) as [bi Hbi].
    pose proof (Inv_live_not_returned bms s idx _ HI Ht eq_refl) as Hnr.
    pose proof (count_insert holdsSlot (tasks s) idx (WriteBack favicon) Release Ht) as Hh.
    pose proof (count_insert live (tasks s) idx (WriteBack favicon) Release Ht) as Hl.
    pose proof (slots_other bms s
                  (mkBatch (mainPC s) (<[idx := Release]> (tasks s)) (semaphore s)
                           (wg s) (<[idx := model.setFavicon favicon b0]> (bookmarks s))
                           (resolutions s))
                  idx Release HI eq_refl eq_refl
                  (fun j Hne => list_lookup_insert_ne _ _ _ _ (not_eq_sym Hne))
                  (fun _ _ => eq_refl)) as Hother.
    destruct HI as [H1 H2 H3 H4 H5 H6 H7 H8].
    constructor; unfold countTasks in *; simpl in *; try inv_side.
    intros j b Hj. destruct (decide (j = idx)) as [->|Hne]; [|apply Hother; assumption].
    destruct (H3 idx b Hj) as (t & b' & Ht' & Hb' & Hok).
    rewrite Ht in Ht'. inversion Ht'; subst t.
    rewrite Hb0 in Hb'. inversion Hb'; subst b'.
    destruct Hok as (-> & Hc & Hurl & Hv & Hres).
    exists Release, (model.setFavicon favicon b).
    rewrite !list_lookup_insert_eq
      by (eapply lookup_lt_Some; first [exact Ht | exact Hb0]).
    repeat split; try assumption. exists favicon. auto.
  - (* a goroutine gives its slot back *)
    destruct (Inv_task_index bms s idx _ HI Ht) as [bi Hbi].
    pose proof (Inv_live_not_returned bms s idx _ HI Ht eq_refl) as Hnr.
    pose proof (count_insert holdsSlot (tasks s) idx Release WgDone Ht) as Hh.
    pose proof (count_insert live (tasks s) idx Release WgDone Ht) as Hl.
    pose proof (slots_other bms s
                  (mkBatch (mainPC s) (<[idx := WgDone]> (tasks s)) (pred (semaphore s))
                           (wg s) (bookmarks s) (resolutions s))
                  idx WgDone HI eq_refl eq_refl
                  (fun _ _ => eq_refl) (fun _ _ => eq_refl)) as Hother.
    destruct HI as [H1 H2 H3 H4 H5 H6 H7 H8].
    constructor; unfold countTasks in *; simpl in *; try inv_side.
    intros j b Hj. destruct (decide (j = idx)) as [->|Hne]; [|apply Hother; assumption].
    destruct (H3 idx b Hj) as (t & b' & Ht' & Hb' & Hok).
    rewrite Ht in Ht'. inversion Ht'; subst t.
    exists WgDone, b'. rewrite list_lookup_insert_eq
      by (eapply lookup_lt_Some; exact Ht).
    repeat split; try assumption; apply Hok.
  - (* a goroutine signals the wait group *)
    destruct (Inv_task_index bms s idx _ HI Ht) as [bi Hbi].
    pose proof (Inv_live_not_returned bms s idx _ HI Ht eq_refl) as Hnr.
    pose proof (count_insert holdsSlot (tasks s) idx WgDone Exited Ht) as Hh.
    pose proof (count_insert live (tasks s) idx WgDone Exited Ht) as Hl.
    pose proof (slots_other bms s
                  (mkBatch (mainPC s) (<[idx := Exited]> (tasks s)) (semaphore s)
                           (pred (wg s)) (bookmarks s) (resolutions s))
                  idx Exited HI eq_refl eq_refl
                  (fun _ _ => eq_refl) (fun _ _ => eq_refl)) as Hother.
    destruct HI as [H1 H2 H3 H4 H5 H6 H7 H8].
    constructor; unfold countTasks in *; simpl in *; try inv_side.
    intros j b Hj. destruct (decide (j = idx)) as [->|Hne]; [|apply Hother; assumption].
    destruct (H3 idx b Hj) as (t & b' & Ht' & Hb' & Hok).
    rewrite Ht in Ht'. inversion Ht'; subst t.
    exists Exited, b'. rewrite list_lookup_insert_eq
      by (eapply lookup_lt_Some; exact Ht).
    repeat split; try assumption; apply Hok.
Qed.

Lemma reachable_Inv bms s : Reachable bms s -> Invariant bms s.
Proof.
  induction 1 as [|s s' _ IH Hstep]; [apply Inv_init | eapply Inv_step; eassumption].
Qed.
End BatchFacts.

(** Every step of the scheduler is a step of the transition system. *)
Lemma exec_step (L : GoLibs) (faviconCache : bool) (Env : Network -> World -> Prop)
      (N0 : Network) (w0 : World) (a : Action) (s s' : Batch) :
  Env N0 w0 ->
  exec L faviconCache N0 w0 a s = Some s' ->
  step L faviconCache Env s s'.
Proof.
  intros HEnv. destruct a as [|idx]; simpl.
  - unfold execMain. destruct (mainPC s) as [i| |] eqn:Hm; [| |discriminate].
    + destruct (bookmarks s !! i) as [b|] eqn:Hb.
      * destruct (String.eqb_spec (model.URL b) "") as [Hu|Hu];
          intros H; inversion H; subst.
        -- eapply step_skip; eassumption.
        -- eapply step_spawn; eassumption.
      * intros H; inversion H; subst. eapply step_loop_end; eassumption.
    + destruct (Nat.eqb_spec (wg s) 0) as [Hw|Hw]; [|discriminate].
      intros H; inversion H; subst. apply step_wait; assumption.
  - unfold execTask. destruct (tasks s !! idx) as [[| | |favicon| | |]|] eqn:Ht;
      try discriminate.
    + destruct (Nat.ltb_spec (semaphore s) semaphoreCap) as [Hlt|Hge]; [|discriminate].
      intros H; inversion H; subst. apply step_acquire; assumption.
    + destruct (bookmarks s !! idx) as [b|] eqn:Hb; [|discriminate].
      intros H; inversion H; subst. apply step_resolve; assumption.
    + destruct (bookmarks s !! idx) as [b|] eqn:Hb; [|discriminate].
      intros H; inversion H; subst. eapply step_write; eassumption.
    + intros H; inversion H; subst. apply step_release; assumption.
    + intros H; inversion H; subst. apply step_done; assumption.
Qed.

Lemma schedule_reachable (L : GoLibs) (faviconCache : bool)
      (Env : Network -> World -> Prop) (N0 : Network) (w0 : World)
      (bms : list model.Bookmark) (acts : list Action) : forall s s',
  Env N0 w0 ->
  reachable L faviconCache Env bms s ->
  schedule L faviconCache N0 w0 acts s = Some s' ->
  reachable L faviconCache Env bms s'.
Proof.
  induction acts as [|a rest IH]; intros s s' HEnv Hr Hs; simpl in Hs.
  - inversion Hs; subst. exact Hr.
  - destruct (exec L faviconCache N0 w0 a s) as [s1|] eqn:He; [|discriminate].
    eapply IH; [exact HEnv | | exact Hs].
    eapply reach_step; [exact Hr | eapply exec_step; eassumption].
Qed.

Example sequentialRun_result :
  schedule Ref.libs true githubOnly emptyWorld sequentialRun (initBatch twoBookmarks) =
  Some (mkBatch Returned [ Exited; NotSpawned ] 0 0
          [ model.mkBookmark 0 0 "GitHub" "github.com/x" "data:image/png;base64,UE5H"
                             1 1 true;
            model.mkBookmark 0 0 "empty" "" "kept" 2 1 true ]
          [ (0%nat, "github.com/x") ]).
Proof. vm_compute. reflexivity. Qed.

Lemma sequentialRun_reachable :
  reachable Ref.libs true githubEnv twoBookmarks
    (mkBatch Returned [ Exited; NotSpawned ] 0 0
       [ model.mkBookmark 0 0 "GitHub" "github.com/x" "data:image/png;base64,UE5H"
                          1 1 true;
         model.mkBookmark 0 0 "empty" "" "kept" 2 1 true ]
       [ (0%nat, "github.com/x") ]).
Proof.
  eapply (schedule_reachable Ref.libs true githubEnv githubOnly emptyWorld
            twoBookmarks sequentialRun (initBatch twoBookmarks)).
  - split; reflexivity.
  - apply reach_init.
  - exact sequentialRun_result.
Defined.

Lemma getFavicon_result (L : GoLibs) (N : Network) (faviconCache : bool)
      (bookmarkURL : string) (w : World) :
  bookmarkURL <> "" ->
  (getFavicon L N faviconCache bookmarkURL w).1 =
  match (FetchFaviconBase64 L N faviconCache bookmarkURL w).1 with
  | (favicon, None) => favicon
  | (_, Some _) => ""
  end.
Proof.
  intros Hne. unfold getFavicon. apply String.eqb_neq in Hne. rewrite Hne.
  rewrite bind_run.
  destruct (FetchFaviconBase64 L N faviconCache bookmarkURL w) as [[v [e|]] w'];
    reflexivity.
Qed.

(** C8: when [fetchFaviconsParallel] has returned, every goroutine it
    started has finished; a record with an empty URL was never resolved and
    is unchanged, icon included; every other record was resolved once, for
    its own URL, and differs from the record passed in only in its icon,
    which is the result of that resolution: the data URI, or the empty
    string when the resolution failed.  A URL whose resolution fails
    whenever it is tried leaves the empty icon in its own record, and the
    other records do not depend on it. *)
Theorem batch_results (L : GoLibs) (faviconCache : bool)
        (Env : Network -> World -> Prop) (bms : list model.Bookmark) (s : Batch) :
  reachable L faviconCache Env bms s ->
  mainPC s = Returned ->
  length (bookmarks s) = length bms /\
  (forall i t, tasks s !! i = Some t -> t = NotSpawned \/ t = Exited) /\
  semaphore s = O /\ wg s = O /\
  (forall i b,
      bms !! i = Some b ->
      (model.URL b = "" -> bookmarks s !! i = Some b /\ callsFor i s = []) /\
      (model.URL b <> "" ->
       callsFor i s = [(i, model.URL b)] /\
       (exists N w favicon,
           Env N w /\
           bookmarks s !! i =
           Some (model.mkBookmark (model.CreatedAt b) (model.UpdatedAt b)
                                  (model.Title b) (model.URL b) favicon
                                  (model.ID b) (model.UserID b) (model.ShowText b)) /\
           favicon = match (FetchFaviconBase64 L N faviconCache (model.URL b) w).1 with
                     | (v, None) => v
                     | (_, Some _) => ""
                     end) /\
       ((forall N w, Env N w ->
                     (FetchFaviconBase64 L N faviconCache (model.URL b) w).1.2 <> None) ->
        bookmarks s !! i =
        Some (model.mkBookmark (model.CreatedAt b) (model.UpdatedAt b)
                               (model.Title b) (model.URL b) ""
                               (model.ID b) (model.UserID b) (model.ShowText b))))).
Proof.
  intros Hr Hm. pose proof (reachable_Inv L faviconCache Env bms s Hr) as HI.
  pose proof (inv_returned _ _ _ _ _ HI Hm) as Hlive.
  assert (Hdone : forall i t, tasks s !! i = Some t -> t = NotSpawned \/ t = Exited).
  { intros i t Ht. pose proof (count_zero live (tasks s) i t Hlive Ht) as Hl.
    destruct t; try discriminate Hl; auto. }
  split; [exact (inv_bookmarks _ _ _ _ _ HI)|]. split; [exact Hdone|].
  split.
  { rewrite (inv_semaphore _ _ _ _ _ HI).
    pose proof (count_le holdsSlot live (tasks s)) as Hle. unfold countTasks in *.
    assert (count holdsSlot (tasks s) <= count live (tasks s))%nat
      by (apply Hle; intros []; simpl; congruence).
    lia. }
  split; [rewrite (inv_wg _ _ _ _ _ HI); exact Hlive|].
  intros i b Hb.
  destruct (inv_slots _ _ _ _ _ HI i b Hb) as (t & b' & Ht & Hb' & Hok).
  unfold slotOK, visited in Hok. rewrite Hm in Hok.
  destruct (Hdone i t Ht) as [-> | ->].
  - destruct Hok as (-> & Hc & Hu). split; [auto|].
    intros Hne. contradiction Hne. auto.
  - destruct Hok as (Hc & Hu & _ & favicon & (N & w & HEnv & Hf) & ->).
    split; [intros Hempty; contradiction|]. intros _.
    rewrite getFavicon_result in Hf by assumption.
    split; [exact Hc|]. split.
    + exists N, w, favicon. auto.
    + intros Hfail. rewrite Hb'. unfold model.setFavicon. f_equal. f_equal. rewrite Hf.
      specialize (Hfail N w HEnv).
      destruct ((FetchFaviconBase64 L N faviconCache (model.URL b) w).1) as [v [e|]];
        [reflexivity | contradiction Hfail; reflexivity].
Qed.

Lemma batch_results_witness :
  let s := mkBatch Returned [ Exited; NotSpawned ] 0 0
             [ model.mkBookmark 0 0 "GitHub" "github.com/x"
                                "data:image/png;base64,UE5H" 1 1 true;
               model.mkBookmark 0 0 "empty" "" "kept" 2 1 true ]
             [ (0%nat, "github.com/x") ] in
  (exists favicon,
      bookmarks s !! 0%nat
      = Some (model.mkBookmark 0 0 "GitHub" "github.com/x" favicon 1 1 true) /\
      favicon = "data:image/png;base64,UE5H") /\
  callsFor 0 s = [ (0%nat, "github.com/x") ] /\
  bookmarks s !! 1%nat = Some (model.mkBookmark 0 0 "empty" "" "kept" 2 1 true) /\
  callsFor 1 s = [].
Proof.
  intros s.
  destruct (batch_results Ref.libs true githubEnv twoBookmarks _
              sequentialRun_reachable eq_refl) as (_ & _ & _ & _ & H).
  destruct (H 0%nat (model.mkBookmark 0 0 "GitHub" "github.com/x" "" 1 1 true) eq_refl)
    as [_ Hfirst].
  destruct Hfirst as (Hcalls & (N & w & favicon & [-> ->] & Hb & Hf) & _);
    [discriminate|].
  destruct (H 1%nat (model.mkBookmark 0 0 "empty" "" "kept" 2 1 true) eq_refl)
    as [Hempty _].
  destruct (Hempty eq_refl) as [Hkept Hnone].
  split; [|split; [exact Hcalls | split; [exact Hkept | exact Hnone]]].
  exists favicon. split; [exact Hb|].
  rewrite Hf. vm_compute. reflexivity.
Defined.

(** The goroutine [idx] does not move in a step that is not its own. *)
Lemma step_acquire_only (L : GoLibs) (faviconCache : bool)
      (Env : Network -> World -> Prop) (s s' : Batch) (idx : nat) :
  step L faviconCache Env s s' ->
  tasks s !! idx = Some Acquire ->
  tasks s' !! idx = Some Acquire \/
  (tasks s' !! idx = Some Resolve /\ (semaphore s < semaphoreCap)%nat /\
   semaphore s' = S (semaphore s)).
Proof.
  intros Hstep Ht.
  destruct Hstep as [s i b0 Hm Hb0 Hu | s i b0 Hm Hb0 Hu | s i Hm Hnone | s Hm Hwg
                    | s j Htj Hsem | s j b0 N w HEnv Htj Hb0
                    | s j favicon b0 Htj Hb0 | s j Htj | s j Htj]; simpl;
    try (left; exact Ht).
  - left. destruct (decide (i = idx)) as [->|Hne].
    + apply list_lookup_insert_eq. eapply lookup_lt_Some. exact Ht.
    + rewrite list_lookup_insert_ne by assumption. exact Ht.
  - destruct (decide (j = idx)) as [->|Hne].
    + right. rewrite list_lookup_insert_eq by (eapply lookup_lt_Some; exact Ht). auto.
    + left. rewrite list_lookup_insert_ne by assumption. exact Ht.
  - left. rewrite list_lookup_insert_ne; [exact Ht | congruence].
  - left. rewrite list_lookup_insert_ne; [exact Ht | congruence].
  - left. rewrite list_lookup_insert_ne; [exact Ht | congruence].
  - left. rewrite list_lookup_insert_ne; [exact Ht | congruence].
Qed.

(** C9: [fetchFaviconsParallel] starts one goroutine per record with a
    non-empty URL and none for the others, each goroutine resolves at most
    once, and it does so holding one of the 10 slots of the semaphore: in
    every state of every run at most 10 resolutions are in flight.  A
    goroutine that waits for a slot gets one only in a step in which fewer
    than 10 slots are taken; while all 10 are taken it keeps waiting. *)
Theorem semaphore_bound (L : GoLibs) (faviconCache : bool)
        (Env : Network -> World -> Prop) (bms : list model.Bookmark) (s : Batch) :
  reachable L faviconCache Env bms s ->
  semaphoreCap = 10%nat /\
  (countTasks inFlight s <= countTasks holdsSlot s)%nat /\
  semaphore s = countTasks holdsSlot s /\
  (countTasks holdsSlot s <= semaphoreCap)%nat /\
  (forall i b, bms !! i = Some b -> visited s i ->
               (tasks s !! i <> Some NotSpawned <-> model.URL b <> "")) /\
  (forall i, (length (callsFor i s) <= 1)%nat) /\
  (forall s' idx,
      step L faviconCache Env s s' ->
      tasks s !! idx = Some Acquire ->
      tasks s' !! idx = Some Resolve ->
      (countTasks holdsSlot s < semaphoreCap)%nat) /\
  (forall s' idx,
      step L faviconCache Env s s' ->
      countTasks holdsSlot s = semaphoreCap ->
      tasks s !! idx = Some Acquire ->
      tasks s' !! idx = Some Acquire).
Proof.
  intros Hr. pose proof (reachable_Inv L faviconCache Env bms s Hr) as HI.
  pose proof (inv_semaphore _ _ _ _ _ HI) as Hsem.
  pose proof (inv_cap _ _ _ _ _ HI) as Hcap.
  split; [reflexivity|].
  split; [apply count_le; intros []; simpl; congruence|].
  split; [exact Hsem|]. split; [rewrite <- Hsem; exact Hcap|].
  split; [|split; [|split]].
  - intros i b Hb Hv.
    destruct (inv_slots _ _ _ _ _ HI i b Hb) as (t & b' & Ht & Hb' & Hok).
    rewrite Ht. unfold slotOK in Hok.
    destruct t; split; intros H; try congruence; try tauto.
  - intros i.
    destruct (decide (i < length bms)%nat) as [Hlt|Hge].
    + destruct (lookup_lt_is_Some_2 bms i Hlt) as [b Hb].
      destruct (inv_slots _ _ _ _ _ HI i b Hb) as (t & b' & Ht & Hb' & Hok).
      unfold slotOK in Hok.
      destruct t; [destruct Hok as (_ & -> & _) .. | | |];
        try (simpl; lia);
        try (destruct Hok as (_ & -> & _); simpl; lia);
        destruct Hok as (-> & _); simpl; lia.
    + destruct (callsFor i s) as [|[j u] rest] eqn:Hc; [simpl; lia|].
      exfalso. apply Hge.
      assert (Hin : (j, u) ∈ callsFor i s) by (rewrite Hc; apply elem_of_cons; auto).
      unfold callsFor in Hin. apply list_elem_of_In, List.filter_In in Hin.
      destruct Hin as [Hin Heq]. simpl in Heq. apply Nat.eqb_eq in Heq. subst j.
      apply list_elem_of_In in Hin. eapply (inv_calls _ _ _ _ _ HI). exact Hin.
  - intros s' idx Hstep Ht Ht'.
    destruct (step_acquire_only L faviconCache Env s s' idx Hstep Ht) as [H|(_ & H & _)].
    + congruence.
    + rewrite <- Hsem. exact H.
  - intros s' idx Hstep Hfull Ht.
    destruct (step_acquire_only L faviconCache Env s s' idx Hstep Ht) as [H|(_ & H & _)].
    + exact H.
    + rewrite Hsem in H. lia.
Qed.

Lemma semaphore_bound_witness :
  countTasks holdsSlot
    (mkBatch Wait [ Resolve; NotSpawned ] 1 1 twoBookmarks []) = 1%nat /\
  (countTasks inFlight
     (mkBatch Wait [ Resolve; NotSpawned ] 1 1 twoBookmarks []) <= 10)%nat.
Proof.
  assert (Hr : reachable Ref.libs true githubEnv twoBookmarks
                 (mkBatch Wait [ Resolve; NotSpawned ] 1 1 twoBookmarks [])).
  { eapply (schedule_reachable Ref.libs true githubEnv githubOnly emptyWorld
              twoBookmarks untilInFlight (initBatch twoBookmarks)).
    - split; reflexivity.
    - apply reach_init.
    - vm_compute. reflexivity. }
  destruct (semaphore_bound Ref.libs true githubEnv twoBookmarks _ Hr)
    as (_ & Hle & Hsem & Hcap & _).
  split; [symmetry; exact Hsem|].
  unfold semaphoreCap in Hcap. lia.
Defined.

(** *** The batch returns *)

Lemma tasksSteps_insert (l : list TaskPC) : forall i old new,
  l !! i = Some old ->
  (tasksSteps (<[i := new]> l) + taskSteps old = tasksSteps l + taskSteps new)%nat.
Proof.
  induction l as [|t l IH]; intros i old new Hl; [discriminate Hl|].
  destruct i as [|i]; simpl in *.
  - inversion Hl; subst. lia.
  - specialize (IH i old new Hl). lia.
Qed.

Lemma count_pos_inv (f : TaskPC -> bool) (l : list TaskPC) :
  (0 < count f l)%nat -> exists i t, l !! i = Some t /\ f t = true.
Proof.
  induction l as [|t l IH]; simpl; [lia|].
  destruct (f t) eqn:Hf.
  - intros _. exists O, t. auto.
  - intros H. destruct IH as (i & t' & Hl & Ht'); [lia|]. exists (S i), t'. auto.
Qed.

(** Every step uses up some of the work that is left: no run goes on for
    ever. *)
Lemma step_decreases (L : GoLibs) (faviconCache : bool)
      (Env : Network -> World -> Prop) (s s' : Batch) :
  step L faviconCache Env s s' -> (stepsLeft s' < stepsLeft s)%nat.
Proof.
  intros Hstep.
  destruct Hstep as [s i b0 Hm Hb0 Hu | s i b0 Hm Hb0 Hu | s i Hm Hnone | s Hm Hwg
                    | s j Htj Hsem | s j b0 N w HEnv Htj Hb0
                    | s j favicon b0 Htj Hb0 | s j Htj | s j Htj];
    unfold stepsLeft, mainSteps; simpl.
  - rewrite Hm. apply lookup_lt_Some in Hb0. lia.
  - rewrite Hm. apply lookup_lt_Some in Hb0.
    destruct (tasks s !! i) as [t|] eqn:Hti.
    + pose proof (tasksSteps_insert (tasks s) i t Acquire Hti) as Hins. simpl in Hins. lia.
    + rewrite list_insert_ge by (apply lookup_ge_None; exact Hti). lia.
  - rewrite Hm. lia.
  - rewrite Hm. lia.
  - pose proof (tasksSteps_insert (tasks s) j _ Resolve Htj) as Hins.
    simpl in Hins. destruct (mainPC s); lia.
  - pose proof (tasksSteps_insert (tasks s) j _
                  (WriteBack (getFavicon L N faviconCache (model.URL b0) w).1) Htj) as Hins.
    simpl in Hins. destruct (mainPC s); lia.
  - pose proof (tasksSteps_insert (tasks s) j _ Release Htj) as Hins.
    simpl in Hins. rewrite length_insert. destruct (mainPC s); lia.
  - pose proof (tasksSteps_insert (tasks s) j _ WgDone Htj) as Hins.
    simpl in Hins. destruct (mainPC s); lia.
  - pose proof (tasksSteps_insert (tasks s) j _ Exited Htj) as Hins.
    simpl in Hins. destruct (mainPC s); lia.
Qed.

(** Before the function has returned some step is enabled: the semaphore
    cannot block every goroutine, and [wg.Wait()] is passed once all have
    finished. *)
Lemma step_progress (L : GoLibs) (faviconCache : bool)
      (Env : Network -> World -> Prop) (bms : list model.Bookmark) (s : Batch) :
  (exists N w, Env N w) ->
  reachable L faviconCache Env bms s ->
  mainPC s <> Returned ->
  exists s', step L faviconCache Env s s'.
Proof.
  intros (N & w & HEnv) Hr Hm.
  pose proof (reachable_Inv L faviconCache Env bms s Hr) as HI.
  assert (Hbm : forall idx t, tasks s !! idx = Some t -> exists b, bookmarks s !! idx = Some b).
  { intros idx t Ht. apply lookup_lt_is_Some_2.
    rewrite (inv_bookmarks _ _ _ _ _ HI), <- (inv_tasks _ _ _ _ _ HI).
    eapply lookup_lt_Some. exact Ht. }
  assert (Hheld : forall idx t, tasks s !! idx = Some t -> holdsSlot t = true ->
                                exists s', step L faviconCache Env s s').
  { intros idx t Ht Hh. destruct (Hbm idx t Ht) as [b Hb].
    destruct t; try discriminate Hh.
    - eexists. eapply (step_resolve _ _ _ s idx b N w); eassumption.
    - eexists. eapply step_write; eassumption.
    - eexists. eapply step_release; eassumption. }
  destruct (mainPC s) as [i| |] eqn:Hpc; [| |contradiction].
  - destruct (bookmarks s !! i) as [b|] eqn:Hb.
    + destruct (String.eqb_spec (model.URL b) "").
      * eexists. eapply step_skip; eassumption.
      * eexists. eapply step_spawn; eassumption.
    + eexists. eapply step_loop_end; eassumption.
  - destruct (Nat.eq_dec (wg s) O) as [Hz|Hnz].
    + eexists. apply step_wait; assumption.
    + rewrite (inv_wg _ _ _ _ _ HI) in Hnz.
      destruct (count_pos_inv live (tasks s)) as (idx & t & Ht & Hl);
        [unfold countTasks in Hnz; lia|].
      destruct t; try discriminate Hl;
        try (eapply Hheld; [exact Ht | reflexivity]).
      * destruct (Nat.lt_ge_cases (semaphore s) semaphoreCap) as [Hlt|Hge].
        -- eexists. eapply step_acquire; eassumption.
        -- rewrite (inv_semaphore _ _ _ _ _ HI) in Hge.
           destruct (count_pos_inv holdsSlot (tasks s)) as (idx' & t' & Ht' & Hh');
             [unfold countTasks, semaphoreCap in Hge; lia|].
           eapply Hheld; eassumption.
      * eexists. eapply step_done; eassumption.
Qed.

(** From every state of a run the function can, and by [step_decreases]
    must, come to its return. *)
Lemma batch_returns (L : GoLibs) (faviconCache : bool)
      (Env : Network -> World -> Prop) (bms : list model.Bookmark) :
  (exists N w, Env N w) ->
  forall n s, stepsLeft s = n -> reachable L faviconCache Env bms s ->
  exists s', reachable L faviconCache Env bms s' /\ mainPC s' = Returned.
Proof.
  intros HEnv n. induction n as [n IH] using lt_wf_ind. intros s Hn Hr.
  destruct (mainPC s) eqn:Hm; [| |exists s; auto].
  - destruct (step_progress L faviconCache Env bms s HEnv Hr) as [s1 Hs1]; [congruence|].
    pose proof (step_decreases L faviconCache Env s s1 Hs1) as Hlt.
    apply (IH (stepsLeft s1)) with (s := s1); [lia | reflexivity|].
    eapply reach_step; eassumption.
  - destruct (step_progress L faviconCache Env bms s HEnv Hr) as [s1 Hs1]; [congruence|].
    pose proof (step_decreases L faviconCache Env s s1 Hs1) as Hlt.
    apply (IH (stepsLeft s1)) with (s := s1); [lia | reflexivity|].
    eapply reach_step; eassumption.
Qed.

Lemma prefix_occurs (sub s : string) :
  strings_HasPrefix s sub = true <-> exists after, s = sub +:+ after.
Proof.
  unfold strings_HasPrefix. revert s.
  induction sub as [|c sub IH]; intros s; simpl.
  - split; [intros _; exists s; reflexivity | intros _; destruct s; reflexivity].
  - destruct s as [|d s]; simpl.
    + split; [discriminate | intros [after H]; discriminate H].
    + destruct (ascii_dec c d) as [->|Hne].
      * rewrite IH. split; intros [after H]; exists after.
        -- rewrite H. reflexivity.
        -- inversion H. reflexivity.
      * split; [discriminate | intros [after H]; inversion H; subst; contradiction Hne; reflexivity].
Qed.

Lemma Contains_occurs (s sub : string) :
  strings_Contains s sub = true <-> occursIn sub s.
Proof.
  unfold occursIn. induction s as [|c s IH]; cbn [strings_Contains].
  - rewrite orb_false_r, prefix_occurs. split.
    + intros [after H]. exists "", after. exact H.
    + intros (before & after & H). destruct before; simpl in H; [eauto | discriminate H].
  - rewrite orb_true_iff, prefix_occurs, IH. split.
    + intros [[after H] | (before & after & H)].
      * exists "", after. exact H.
      * exists (String c before), after. simpl. rewrite H. reflexivity.
    + intros (before & after & H). destruct before as [|d before]; simpl in H.
      * left. eauto.
      * right. inversion H. eauto.
Qed.

(** ** The order in which the candidates are tried *)

Lemma downloadAndStore_trace (N : Network) (cacheRepo : bool)
      (normalizedURL imageURL : string) (w : World) :
  trace (downloadAndStore N cacheRepo normalizedURL imageURL w).2 =
  match (downloadAndStore N cacheRepo normalizedURL imageURL w).1 with
  | Some v => if cacheRepo then [ EvCacheStore normalizedURL v ] else []
  | None => []
  end ++ EvDownload imageURL :: trace w.
Proof.
  destruct (download_outcome N imageURL w) as (_ & _ & _ & Ht & _).
  cbv zeta in Ht. unfold downloadAndStore. rewrite bind_run.
  destruct (downloadAndEncodeToBase64 N imageURL w) as [[v [e|]] w1]; simpl in *;
    [exact Ht|].
  destruct (nonEmpty v); [|exact Ht].
  destruct cacheRepo; [|exact Ht].
  rewrite bind_run. unfold StoreFaviconBase64.
  destruct (redis_up N (trace w1)); simpl; rewrite Ht; reflexivity.
Qed.

Lemma tryCandidates_order (N : Network) (cacheRepo : bool) (normalizedURL : string)
      (candidates : list IconCandidate) : forall w,
  exists k new,
    trace (tryCandidates N cacheRepo normalizedURL candidates w).2 = new ++ trace w /\
    List.filter downloadEvent new
    = rev (map (fun c => EvDownload (URL c)) (take k candidates)) /\
    ((tryCandidates N cacheRepo normalizedURL candidates w).1 = None ->
     k = length candidates).
Proof.
  induction candidates as [|c rest IH]; intros w.
  - exists O, []. repeat split; reflexivity.
  - cbn [tryCandidates]. rewrite bind_run.
    pose proof (downloadAndStore_trace N cacheRepo normalizedURL (URL c) w) as Ht.
    destruct (downloadAndStore N cacheRepo normalizedURL (URL c) w) as [[v|] w1];
      simpl in Ht.
    + exists 1%nat, ((if cacheRepo then [ EvCacheStore normalizedURL v ] else [])
                       ++ [ EvDownload (URL c) ]).
      simpl. rewrite Ht, <- app_assoc. split; [reflexivity|].
      split; [destruct cacheRepo; reflexivity | discriminate].
    + destruct (IH w1) as (k & new & T & F & Hk).
      exists (S k), (new ++ [ EvDownload (URL c) ]).
      rewrite T, Ht, <- app_assoc. split; [reflexivity|]. split.
      * rewrite List.filter_app, F. reflexivity.
      * intros Hnone. simpl. f_equal. apply Hk, Hnone.
Qed.

(** One attempt gives what the network answers the download with. *)
Lemma downloadAndStore_answers (N : Network) (cacheRepo : bool)
      (normalizedURL imageURL : string) (w : World) :
  (downloadAndStore N cacheRepo normalizedURL imageURL w).1
  = answersImage N (trace w) imageURL.
Proof.
  destruct (download_outcome N imageURL w) as (Hiff & Hval & _).
  cbv zeta in Hiff, Hval. unfold answersImage.
  assert (Hfail : (downloadAndEncodeToBase64 N imageURL w).1.2 <> None ->
                  (downloadAndStore N cacheRepo normalizedURL imageURL w).1 = None).
  { unfold downloadAndStore. rewrite bind_run.
    destruct (downloadAndEncodeToBase64 N imageURL w) as [[v [e|]] w1]; simpl;
      [reflexivity | intros H; contradiction H; reflexivity]. }
  destruct (client_Get N (trace w) imageURL) as [resp|] eqn:Hget.
  2:{ apply Hfail. intros H. apply Hiff in H.
      destruct H as (resp & body & H & _). discriminate H. }
  destruct (http.Body resp) as [body|] eqn:Hbody.
  2:{ apply Hfail. intros H. apply Hiff in H.
      destruct H as (resp' & body & H & _ & Hb & _). congruence. }
  destruct (Z.eqb_spec (http.StatusCode resp) 200) as [Hs|Hs]; simpl.
  2:{ apply Hfail. intros H. apply Hiff in H.
      destruct H as (resp' & body' & H & Hs' & _). congruence. }
  destruct (String.eqb_spec body "") as [He|He]; simpl.
  { apply Hfail. intros H. apply Hiff in H.
    destruct H as (resp' & body' & H & _ & Hb & Hne). congruence. }
  specialize (Hval resp body eq_refl Hs Hbody He).
  destruct (downloadAndStore_success N cacheRepo normalizedURL imageURL w _ Hval)
    as (w1 & -> & _).
  reflexivity.
Qed.

Lemma triedSoFar_cons c rest w w1 j :
  trace w1 = EvDownload (URL c) :: trace w ->
  triedSoFar (c :: rest) w (S j) = triedSoFar rest w1 j.
Proof.
  intros Ht. unfold triedSoFar. simpl. rewrite <- app_assoc, Ht. reflexivity.
Qed.

(** The loop over the candidates downloads them in list order and stops at
    the first whose download gives an image. *)
Lemma tryCandidates_first (N : Network) (cacheRepo : bool) (normalizedURL : string)
      (candidates : list IconCandidate) : forall w,
  exists k,
    (forall j c, (j < k)%nat -> candidates !! j = Some c ->
                 answersImage N (triedSoFar candidates w j) (URL c) = None) /\
    ((k = length candidates /\
      (tryCandidates N cacheRepo normalizedURL candidates w).1 = None /\
      trace (tryCandidates N cacheRepo normalizedURL candidates w).2
      = triedSoFar candidates w k /\
      redis (tryCandidates N cacheRepo normalizedURL candidates w).2 = redis w) \/
     (exists c v,
         candidates !! k = Some c /\
         answersImage N (triedSoFar candidates w k) (URL c) = Some v /\
         (tryCandidates N cacheRepo normalizedURL candidates w).1 = Some v /\
         trace (tryCandidates N cacheRepo normalizedURL candidates w).2
         = (if cacheRepo then [ EvCacheStore normalizedURL v ] else [])
             ++ triedSoFar candidates w (S k))).
Proof.
  induction candidates as [|c rest IH]; intros w.
  - exists O. split; [intros; lia|]. left. repeat split.
  - cbn [tryCandidates]. rewrite bind_run.
    pose proof (downloadAndStore_trace N cacheRepo normalizedURL (URL c) w) as Ht.
    pose proof (downloadAndStore_answers N cacheRepo normalizedURL (URL c) w) as Ha.
    pose proof (downloadAndStore_failure N cacheRepo normalizedURL (URL c) w) as Hf.
    destruct (downloadAndStore N cacheRepo normalizedURL (URL c) w) as [[v|] w1];
      simpl in Ht, Ha, Hf.
    + exists O. split; [intros; lia|]. right. exists c, v.
      split; [reflexivity|]. split; [symmetry; exact Ha|].
      split; [reflexivity|]. exact Ht.
    + destruct (Hf eq_refl) as [_ Hr]. destruct (IH w1) as (k & Hbefore & Hend).
      exists (S k). split.
      * intros j c0 Hj Hc0. destruct j as [|j].
        -- simpl in Hc0. inversion Hc0; subst c0. symmetry. exact Ha.
        -- rewrite (triedSoFar_cons c rest w w1 j Ht). apply Hbefore; [lia | exact Hc0].
      * rewrite !(triedSoFar_cons c rest w w1 _ Ht).
        destruct Hend as [(Hk & H1 & H2 & H3) | (c0 & v & H0 & H1 & H2 & H3)].
        -- left. simpl. rewrite H3, Hr. auto.
        -- right. exists c0, v. auto.
Qed.

(** The size boost of C4 is a test for a substring, in the case the
    attribute has: [sizes="32X32"] gives no boost, and [sizes="132x32"],
    which names none of the three sizes, gives one. *)
Lemma size_boost_is_substring_test :
  linkCandidate Ref.libs examplePage
    [ html.mkAttr "rel" "icon"; html.mkAttr "sizes" "32X32";
      html.mkAttr "href" "/i.png" ] =
  [ mkIconCandidate "https://example.com/i.png" 1 ] /\
  linkCandidate Ref.libs examplePage
    [ html.mkAttr "rel" "icon"; html.mkAttr "sizes" "132x32";
      html.mkAttr "href" "/i.png" ] =
  [ mkIconCandidate "https://example.com/i.png" 0 ].
Proof. split; vm_compute; reflexivity. Qed.

(** C4 (amended): the priority of a [<link>] element is the entry of the
    fixed rel table for its rel value (icon=1, shortcut icon=2,
    apple-touch-icon=3, apple-touch-icon-precomposed=4, fluid-icon=5,
    mask-icon=6, alternate icon=7), a rel value outside the table
    contributes no candidate (neither does a link without a usable href),
    and the priority is decremented by 1 exactly when the trimmed sizes
    attribute contains 32x32, 64x64 or 128x128 as a substring, in that
    case of the letters; every [<link>] of the document is treated this
    way, in document order.  The candidates are downloaded in list order,
    each once, up to the first whose download gives an image, which is the
    result; the candidates after it are not downloaded.  Consequently
    candidates with rels [alternate icon, icon, apple-touch-icon] come out,
    and are tried, in the order icon, apple-touch-icon, alternate icon. *)
Theorem rel_priority_rule (L : GoLibs) (baseURL : net_url.URL) :
  (forall rel p, relPriorities !! rel = Some p <-> (rel, p) ∈ relTable) /\
  (forall doc,
      traverse L baseURL doc [] =
      flat_map (fun m => if html.is_link m
                         then linkCandidate L baseURL (attributes m) else [])
               (preorder doc)) /\
  (forall attrs rel href sizes,
      readAttrs L attrs = (rel, href, sizes) ->
      (relPriorities !! rel = None -> linkCandidate L baseURL attrs = []) /\
      (href = "" \/ url_Parse L href = None -> linkCandidate L baseURL attrs = []) /\
      (forall p u,
          relPriorities !! rel = Some p -> href <> "" -> url_Parse L href = Some u ->
          linkCandidate L baseURL attrs =
          [ mkIconCandidate (URL_String L (URL_ResolveReference L baseURL u))
                            (if advertisesLargeSize sizes then p - 1 else p) ])) /\
  (forall sizes,
      advertisesLargeSize sizes = true <->
      occursIn "32x32" sizes \/ occursIn "64x64" sizes \/ occursIn "128x128" sizes) /\
  (forall a1 a2 a3 h1 h2 h3 s1 s2 s3 u1 u2 u3,
      readAttrs L a1 = ("alternate icon", h1, s1) ->
      readAttrs L a2 = ("icon", h2, s2) ->
      readAttrs L a3 = ("apple-touch-icon", h3, s3) ->
      h1 <> "" -> h2 <> "" -> h3 <> "" ->
      url_Parse L h1 = Some u1 -> url_Parse L h2 = Some u2 -> url_Parse L h3 = Some u3 ->
      let candidates :=
        findIconCandidates L
          (documentWith [ linkElement a1; linkElement a2; linkElement a3 ]) baseURL in
      map URL candidates =
      [ URL_String L (URL_ResolveReference L baseURL u2);
        URL_String L (URL_ResolveReference L baseURL u3);
        URL_String L (URL_ResolveReference L baseURL u1) ] /\
      forall N cacheRepo normalizedURL w,
        (tryCandidates N cacheRepo normalizedURL candidates w).1 = None ->
        trace (tryCandidates N cacheRepo normalizedURL candidates w).2 =
        [ EvDownload (URL_String L (URL_ResolveReference L baseURL u1));
          EvDownload (URL_String L (URL_ResolveReference L baseURL u3));
          EvDownload (URL_String L (URL_ResolveReference L baseURL u2)) ]
          ++ trace w) /\
  (forall N cacheRepo normalizedURL candidates w,
      exists k new,
        trace (tryCandidates N cacheRepo normalizedURL candidates w).2 = new ++ trace w /\
        List.filter downloadEvent new
        = rev (map (fun c => EvDownload (URL c)) (take k candidates)) /\
        ((tryCandidates N cacheRepo normalizedURL candidates w).1 = None ->
         k = length candidates)) /\
  (forall N cacheRepo normalizedURL candidates w,
      let r := tryCandidates N cacheRepo normalizedURL candidates w in
      exists k,
        (forall j c, (j < k)%nat -> candidates !! j = Some c ->
                     answersImage N (triedSoFar candidates w j) (URL c) = None) /\
        ((k = length candidates /\ r.1 = None /\
          trace r.2 = triedSoFar candidates w k /\ redis r.2 = redis w) \/
         (exists c v,
             candidates !! k = Some c /\
             answersImage N (triedSoFar candidates w k) (URL c) = Some v /\
             r.1 = Some v /\
             trace r.2 = (if cacheRepo then [ EvCacheStore normalizedURL v ] else [])
                           ++ triedSoFar candidates w (S k)))).
Proof.
  split; [apply relPriorities_table|].
  split; [intros doc; apply (traverse_preorder L baseURL doc [])|].
  split.
  { intros attrs rel href sizes Ha. split; [|split].
    - apply (linkCandidate_ignored L baseURL attrs rel href sizes Ha).
    - apply (linkCandidate_no_target L baseURL attrs rel href sizes Ha).
    - intros p u. apply (linkCandidate_ranked L baseURL attrs rel href sizes p u Ha). }
  split.
  { intros sizes. unfold advertisesLargeSize.
    rewrite !orb_true_iff, !Contains_occurs. tauto. }
  split.
  { intros a1 a2 a3 h1 h2 h3 s1 s2 s3 u1 u2 u3 A1 A2 A3 N1 N2 N3 P1 P2 P3 candidates.
    pose proof (three_links_order L baseURL a1 a2 a3 h1 h2 h3 s1 s2 s3 u1 u2 u3
                  A1 A2 A3 N1 N2 N3 P1 P2 P3) as Hurls.
    fold candidates in Hurls. split; [exact Hurls|].
    intros N cacheRepo normalizedURL w Hnone.
    destruct (tryCandidates_first N cacheRepo normalizedURL candidates w)
      as (k & _ & [(Hk & _ & Ht & _) | (c & v & _ & _ & Hv & _)]);
      [|rewrite Hnone in Hv; discriminate Hv].
    rewrite Ht, Hk. unfold triedSoFar. rewrite firstn_all.
    rewrite <- (map_map URL EvDownload), Hurls. reflexivity. }
  split.
  { intros N cacheRepo normalizedURL candidates w. apply tryCandidates_order. }
  intros N cacheRepo normalizedURL candidates w. apply tryCandidates_first.
Qed.

Lemma rel_priority_rule_witness :
  linkCandidate Ref.libs examplePage
    [ html.mkAttr "rel" " Icon "; html.mkAttr "sizes" "16x16 32x32";
      html.mkAttr "href" "/i.png" ] =
  [ mkIconCandidate "https://example.com/i.png" 0 ] /\
  linkCandidate Ref.libs examplePage
    [ html.mkAttr "rel" "stylesheet"; html.mkAttr "href" "/s.css" ] = [] /\
  (let candidates :=
     findIconCandidates Ref.libs
       (documentWith [ link "alternate icon" "/alt.png"; link "icon" "/i.png";
                       link "apple-touch-icon" "/apple.png" ])
       examplePage in
   map URL candidates =
   [ "https://example.com/i.png"; "https://example.com/apple.png";
     "https://example.com/alt.png" ] /\
   trace (tryCandidates notFoundNet true "https://example.com" candidates emptyWorld).2 =
   [ EvDownload "https://example.com/alt.png";
     EvDownload "https://example.com/apple.png";
     EvDownload "https://example.com/i.png" ]).
Proof.
  destruct (rel_priority_rule Ref.libs examplePage) as (_ & _ & Hlink & _ & Horder & _).
  split; [|split].
  - destruct (Hlink [ html.mkAttr "rel" " Icon "; html.mkAttr "sizes" "16x16 32x32";
                      html.mkAttr "href" "/i.png" ] "icon" "/i.png" "16x16 32x32"
                    eq_refl) as (_ & _ & H).
    apply (H 1 (net_url.mkURL "" "" "/i.png" "" "")).
    + vm_compute. reflexivity.
    + discriminate.
    + vm_compute. reflexivity.
  - destruct (Hlink [ html.mkAttr "rel" "stylesheet"; html.mkAttr "href" "/s.css" ]
                    "stylesheet" "/s.css" "" eq_refl) as (H & _).
    apply H. vm_compute. reflexivity.
  - intros candidates.
    destruct (Horder [ html.mkAttr "rel" "alternate icon"; html.mkAttr "href" "/alt.png" ]
                [ html.mkAttr "rel" "icon"; html.mkAttr "href" "/i.png" ]
                [ html.mkAttr "rel" "apple-touch-icon"; html.mkAttr "href" "/apple.png" ]
                "/alt.png" "/i.png" "/apple.png" "" "" ""
                (net_url.mkURL "" "" "/alt.png" "" "")
                (net_url.mkURL "" "" "/i.png" "" "")
                (net_url.mkURL "" "" "/apple.png" "" "")
                eq_refl eq_refl eq_refl
                ltac:(discriminate) ltac:(discriminate) ltac:(discriminate)
                eq_refl eq_refl eq_refl) as [Hurls Htried].
    split; [exact Hurls|].
    exact (Htried notFoundNet true "https://example.com" emptyWorld eq_refl).
Defined.

(** * Further properties of the code *)

(** ** Substrings *)

(** ** The redirect policy of the page client *)

(** X1: [CheckRedirect] gives up at the tenth redirect whatever the target
    is; before that it stops at the last response exactly when the target
    URL contains "login", "signin", "auth" or "accounts.google.com"
    anywhere (as a case-sensitive substring), and follows the redirect
    otherwise. *)
Theorem CheckRedirect_policy (reqURL : string) (via : nat) :
  (CheckRedirect reqURL via = TooManyRedirects <-> (10 <= via)%nat) /\
  (CheckRedirect reqURL via = UseLastResponse <->
   (via < 10)%nat /\
   (occursIn "login" reqURL \/ occursIn "signin" reqURL \/ occursIn "auth" reqURL \/
    occursIn "accounts.google.com" reqURL)) /\
  (CheckRedirect reqURL via = FollowRedirect <->
   (via < 10)%nat /\
   ~ (occursIn "login" reqURL \/ occursIn "signin" reqURL \/ occursIn "auth" reqURL \/
      occursIn "accounts.google.com" reqURL)).
Proof.
  assert (Hauth : authRedirectTarget reqURL = true <->
                  (occursIn "login" reqURL \/ occursIn "signin" reqURL \/
                   occursIn "auth" reqURL \/ occursIn "accounts.google.com" reqURL)).
  { unfold authRedirectTarget. rewrite !orb_true_iff, !Contains_occurs. tauto. }
  unfold CheckRedirect. destruct (Nat.leb_spec 10 via) as [Hle|Hlt].
  - repeat split; try discriminate; intros; lia.
  - destruct (authRedirectTarget reqURL) eqn:Ha.
    + assert (Hy := proj1 Hauth eq_refl).
      repeat split; try discriminate; try lia; tauto.
    + assert (Hn : ~ (occursIn "login" reqURL \/ occursIn "signin" reqURL \/
                      occursIn "auth" reqURL \/ occursIn "accounts.google.com" reqURL)).
      { intros Hy. apply Hauth in Hy. discriminate Hy. }
      repeat split; try discriminate; try lia; tauto.
Qed.

Example CheckRedirect_author :
  CheckRedirect "https://example.com/authors" 0 = UseLastResponse /\
  CheckRedirect "https://example.com/LOGIN" 0 = FollowRedirect.
Proof. split; reflexivity. Qed.

(** ** The standard-location prober *)

Lemma probedSoFar_cons baseURL p rest w j :
  probedSoFar baseURL (p :: rest) w (S j) =
  probedSoFar baseURL rest
    (mkWorld (redis w) (EvHead (standardURL baseURL p) :: trace w)) j.
Proof.
  unfold probedSoFar. simpl. rewrite <- app_assoc. reflexivity.
Qed.

Lemma probePaths_first (N : Network) (baseURL : net_url.URL) (paths : list string) :
  forall w,
  redis (probePaths N baseURL paths w).2 = redis w /\
  exists k,
    (forall j p, (j < k)%nat -> paths !! j = Some p ->
                 answersOK N (probedSoFar baseURL paths w j) (standardURL baseURL p)
                 = false) /\
    ((k = length paths /\ (probePaths N baseURL paths w).1 = "" /\
      trace (probePaths N baseURL paths w).2 = probedSoFar baseURL paths w k) \/
     (exists p, paths !! k = Some p /\
                answersOK N (probedSoFar baseURL paths w k) (standardURL baseURL p) = true /\
                (probePaths N baseURL paths w).1 = standardURL baseURL p /\
                trace (probePaths N baseURL paths w).2
                = probedSoFar baseURL paths w (S k))).
Proof.
  induction paths as [|p rest IH]; intros w.
  - split; [reflexivity|]. exists O. split; [intros; lia|].
    left. repeat split.
  - cbn [probePaths]. rewrite bind_run. unfold probe_Head.
    fold (standardURL baseURL p).
    set (w1 := mkWorld (redis w) (EvHead (standardURL baseURL p) :: trace w)).
    assert (Hhit : answersOK N (trace w) (standardURL baseURL p) = true ->
                   exists p0, (p :: rest) !! O = Some p0 /\
                     answersOK N (probedSoFar baseURL (p :: rest) w 0)
                               (standardURL baseURL p0) = true /\
                     standardURL baseURL p = standardURL baseURL p0 /\
                     trace w1 = probedSoFar baseURL (p :: rest) w 1).
    { intros Hok. exists p. repeat split. exact Hok. }
    assert (Hmiss : answersOK N (trace w) (standardURL baseURL p) = false ->
              redis (probePaths N baseURL rest w1).2 = redis w /\
              exists k,
                (forall j p0, (j < k)%nat -> (p :: rest) !! j = Some p0 ->
                   answersOK N (probedSoFar baseURL (p :: rest) w j)
                             (standardURL baseURL p0) = false) /\
                ((k = length (p :: rest) /\ (probePaths N baseURL rest w1).1 = "" /\
                  trace (probePaths N baseURL rest w1).2
                  = probedSoFar baseURL (p :: rest) w k) \/
                 (exists p0, (p :: rest) !! k = Some p0 /\
                    answersOK N (probedSoFar baseURL (p :: rest) w k)
                              (standardURL baseURL p0) = true /\
                    (probePaths N baseURL rest w1).1 = standardURL baseURL p0 /\
                    trace (probePaths N baseURL rest w1).2
                    = probedSoFar baseURL (p :: rest) w (S k)))).
    { intros Hno. destruct (IH w1) as (Hr & k & Hbefore & Hend).
      split; [exact Hr|]. exists (S k). split.
      - intros j p0 Hj Hp0. destruct j as [|j].
        + simpl in Hp0. inversion Hp0; subst p0. exact Hno.
        + rewrite probedSoFar_cons. apply Hbefore; [lia | exact Hp0].
      - rewrite !probedSoFar_cons.
        destruct Hend as [(Hk & H1 & H2) | (p0 & H0 & H1 & H2 & H3)].
        + left. simpl. auto.
        + right. exists p0. auto. }
    unfold answersOK in Hhit, Hmiss.
    destruct (client_Head N (trace w) (standardURL baseURL p)) as [resp|].
    + destruct (http.StatusCode resp =? http.StatusOK).
      * split; [reflexivity|]. exists O. split; [intros; lia|].
        right. apply Hhit. reflexivity.
      * apply Hmiss. reflexivity.
    + apply Hmiss. reflexivity.
Qed.

(** X2: [checkStandardFaviconLocations] sends HEAD requests only, for the
    13 conventional paths in their fixed order, and stops at the first
    that is answered with status 200, whose URL it returns; the paths
    before it were each probed once and not answered with 200, the paths
    after it are not probed.  It returns the empty string exactly when all
    13 probes failed.  The cache is not touched. *)
Theorem checkStandardFaviconLocations_first (N : Network) (baseURL : net_url.URL)
        (w : World) :
  let r := (checkStandardFaviconLocations N baseURL w).1 in
  let w' := (checkStandardFaviconLocations N baseURL w).2 in
  redis w' = redis w /\
  exists k,
    (forall j p, (j < k)%nat -> standardPaths !! j = Some p ->
                 answersOK N (probedSoFar baseURL standardPaths w j)
                           (standardURL baseURL p) = false) /\
    ((k = 13%nat /\ r = "" /\ trace w' = probedSoFar baseURL standardPaths w 13) \/
     (exists p, standardPaths !! k = Some p /\
                answersOK N (probedSoFar baseURL standardPaths w k)
                          (standardURL baseURL p) = true /\
                r = standardURL baseURL p /\ r <> "" /\
                trace w' = probedSoFar baseURL standardPaths w (S k))).
Proof.
  cbv zeta. unfold checkStandardFaviconLocations.
  destruct (probePaths_first N baseURL standardPaths w) as (Hr & k & Hbefore & Hend).
  split; [exact Hr|]. exists k. split; [exact Hbefore|].
  destruct Hend as [(Hk & H1 & H2) | (p & H0 & H1 & H2 & H3)].
  - left. rewrite Hk in *. auto.
  - right. exists p. repeat split; try assumption.
    rewrite H2. unfold standardURL.
    apply list_elem_of_lookup_2 in H0. unfold standardPaths in H0.
    destruct (net_url.Scheme baseURL); [|discriminate].
    simpl. discriminate.
Qed.

(** ** The regex fallback *)

Lemma scanPatterns_first (L : GoLibs) (html : string) (baseURL : net_url.URL)
      (ps : list string) :
  scanPatterns L html baseURL ps =
  match head (omap (usableCapture L html) ps) with
  | Some iconURL =>
      URL_String L (if String.eqb (net_url.Scheme iconURL) ""
                    then URL_ResolveReference L baseURL iconURL else iconURL)
  | None => ""
  end.
Proof.
  induction ps as [|p rest IH]; [reflexivity|].
  cbn [scanPatterns omap list_omap]. unfold usableCapture at 1.
  destruct (regexp_FindStringSubmatch L ("(?i)" +:+ p) html) as [|m0 [|m1 ms]];
    try exact IH.
  destruct (url_Parse L m1) as [u|]; [reflexivity | exact IH].
Qed.

(** X3: [findIconWithRegex] tries its eight patterns in their fixed order,
    case-insensitively; the first pattern that matches with a capture that
    parses as a URL decides the result (a match whose capture does not
    parse does not end the search); a capture without scheme is resolved
    against the base URL, one with a scheme is kept; the result is the
    empty string when no pattern gives a usable capture. *)
Theorem findIconWithRegex_first (L : GoLibs) (html : string) (baseURL : net_url.URL) :
  length patterns = 8%nat /\
  findIconWithRegex L html baseURL =
  match head (omap (usableCapture L html) patterns) with
  | Some iconURL =>
      URL_String L (if String.eqb (net_url.Scheme iconURL) ""
                    then URL_ResolveReference L baseURL iconURL else iconURL)
  | None => ""
  end /\
  ((forall p, p ∈ patterns -> usableCapture L html p = None) ->
   findIconWithRegex L html baseURL = "").
Proof.
  split; [reflexivity|]. unfold findIconWithRegex. split; [apply scanPatterns_first|].
  intros Hnone. rewrite scanPatterns_first.
  assert (Hom : omap (usableCapture L html) patterns = []).
  { induction patterns as [|p rest IH]; [reflexivity|].
    cbn [omap list_omap]. rewrite Hnone by (apply elem_of_cons; auto).
    apply IH. intros q Hq. apply Hnone. apply elem_of_cons. auto. }
  rewrite Hom. reflexivity.
Qed.

(** ** What a resolution returns *)

Ltac reported := unfold reportedErrors; rewrite !elem_of_cons; auto 10.

Section Results.
Context (L : GoLibs) (N : Network) (cacheRepo : bool) (normalizedURL : string).

Lemma downloadAndStore_icon imageURL w v :
  (downloadAndStore N cacheRepo normalizedURL imageURL w).1 = Some v ->
  downloadedIcon N v.
Proof.
  destruct (download_outcome N imageURL w) as (Hiff & Hval & _).
  cbv zeta in Hiff, Hval. unfold downloadAndStore. rewrite bind_run.
  destruct (downloadAndEncodeToBase64 N imageURL w) as [[v' [e|]] w1]; simpl in *;
    [discriminate|].
  destruct (proj1 Hiff eq_refl) as (resp & body & H1 & H2 & H3 & H4).
  specialize (Hval resp body H1 H2 H3 H4). inversion Hval; subst v'.
  intros Hv.
  assert (v = "data:"
              +:+ (if String.eqb (http.ContentType resp) "" then "image/x-icon"
                   else http.ContentType resp)
              +:+ ";base64," +:+ base64_EncodeToString body) as ->.
  { destruct (nonEmpty _); [|discriminate].
    destruct cacheRepo; [rewrite bind_run in Hv;
                         destruct (StoreFaviconBase64 _ _ _ _) |];
      simpl in Hv; inversion Hv; reflexivity. }
  exists (trace w), imageURL, resp, body. repeat split; assumption.
Qed.

Lemma downloadIfFound_icon imageURL w v :
  (downloadIfFound N cacheRepo normalizedURL imageURL w).1 = Some v ->
  downloadedIcon N v.
Proof.
  unfold downloadIfFound. destruct (nonEmpty imageURL); [|discriminate].
  apply downloadAndStore_icon.
Qed.

Lemma tryCandidates_icon candidates : forall w v,
  (tryCandidates N cacheRepo normalizedURL candidates w).1 = Some v ->
  downloadedIcon N v.
Proof.
  induction candidates as [|c rest IH]; intros w v; [discriminate|].
  cbn [tryCandidates]. rewrite bind_run.
  pose proof (downloadAndStore_icon (URL c) w) as Hd.
  destruct (downloadAndStore N cacheRepo normalizedURL (URL c) w) as [[v'|] w1];
    simpl in *.
  - intros Hv. inversion Hv; subst. apply Hd. reflexivity.
  - apply IH.
Qed.

Lemma or_else_icon (a : M (option string)) (k : M (string * option error)) :
  (forall w v, (a w).1 = Some v -> downloadedIcon N v) ->
  (forall w, iconOrError N (k w).1) ->
  forall w, iconOrError N (or_else a k w).1.
Proof.
  intros Ha Hk w. unfold or_else. rewrite bind_run. specialize (Ha w).
  destruct (a w) as [[v|] w1]; simpl in *.
  - apply Ha. reflexivity.
  - apply Hk.
Qed.

Lemma error_reported e w :
  e ∈ reportedErrors -> iconOrError N ((mret ("", Some e) : M _) w).1.
Proof. intros He. split; [reflexivity | exact He]. Qed.

Lemma standard_stage_icon baseURL w v :
  ((_ ← emit (EvStage Standard);
    standardIconURL ← checkStandardFaviconLocations N baseURL;
    downloadIfFound N cacheRepo normalizedURL standardIconURL) w).1 = Some v ->
  downloadedIcon N v.
Proof.
  rewrite bind_run. cbn [emit]. rewrite bind_run.
  destruct (checkStandardFaviconLocations N baseURL
              (mkWorld (redis w) (EvStage Standard :: trace w))) as [u w2].
  apply downloadIfFound_icon.
Qed.

Lemma known_stage_icon faviconURL w v :
  ((_ ← emit (EvStage KnownService);
    downloadIfFound N cacheRepo normalizedURL faviconURL) w).1 = Some v ->
  downloadedIcon N v.
Proof. rewrite known_stage_run. apply downloadIfFound_icon. Qed.

Lemma tryFaviconFromBaseDomain_icon baseURL w :
  iconOrError N (tryFaviconFromBaseDomain L N cacheRepo normalizedURL baseURL w).1.
Proof.
  unfold tryFaviconFromBaseDomain.
  apply or_else_icon; [intros w0 v; apply known_stage_icon|].
  apply or_else_icon; [intros w0 v; apply standard_stage_icon|].
  intros w0. apply error_reported. reported.
Qed.

Lemma discoverFromPage_icon resp w :
  iconOrError N (discoverFromPage L N cacheRepo normalizedURL resp w).1.
Proof.
  unfold discoverFromPage.
  destruct (url_Parse L (http.RequestURL resp)) as [baseURL|];
    [|apply error_reported; reported].
  destruct (http.Body resp) as [body|]; [|apply error_reported; reported].
  apply or_else_icon; [intros w0 v; apply standard_stage_icon|].
  intros w0. rewrite bind_run. cbn [emit].
  destruct (html_Parse L body) as [doc|]; [|apply error_reported; reported].
  apply or_else_icon; [intros w1 v; apply tryCandidates_icon|].
  apply or_else_icon.
  { intros w1 v. rewrite bind_run. cbn [emit]. apply downloadIfFound_icon. }
  apply or_else_icon.
  { intros w1 v. rewrite bind_run. cbn [emit]. apply downloadAndStore_icon. }
  intros w1. apply error_reported. reported.
Qed.

(** After the request was created the URL is known to parse, so the
    error for a non-200 status cannot come out. *)
Lemma afterPageFetch_icon resourceURL baseURL resp w :
  url_Parse L resourceURL = Some baseURL ->
  iconOrError N (afterPageFetch L N cacheRepo normalizedURL resourceURL resp w).1.
Proof.
  intros Hp. unfold afterPageFetch. rewrite Hp.
  destruct (negb (http.StatusCode resp =? http.StatusOK));
    destruct (_ && _);
    first [ apply tryFaviconFromBaseDomain_icon | apply discoverFromPage_icon ].
Qed.
End Results.

(** X4: whatever the network does, [FetchFaviconBase64] returns either a
    non-empty payload without error or the empty payload with an error.
    A payload is the non-empty cache entry of the normalized URL, not
    expired and read while Redis answered, or the data URI of an image that a GET of the
    downloader was answered with (status 200, non-empty body), so it
    begins with "data:".  The error is one of seven: request creation,
    page fetch, URL parse, body read, HTML parse, nothing found, or the
    base-domain failure; the error for a non-200 page status and the
    errors of the downloader and of Redis are never returned. *)
Theorem FetchFaviconBase64_outcome (L : GoLibs) (N : Network) (cacheRepo : bool)
        (resourceURL : string) (w : World) :
  let r := (FetchFaviconBase64 L N cacheRepo resourceURL w).1 in
  match r.2 with
  | None =>
      r.1 <> "" /\
      ((cacheRepo = true /\ redis_up N (trace w) = true /\
        cachedIn N w (getFaviconBase64Key (normalizeURL L resourceURL)) = Some r.1) \/
       (downloadedIcon N r.1 /\ strings_HasPrefix r.1 "data:" = true))
  | Some e =>
      r.1 = "" /\ e ∈ reportedErrors /\
      (forall code, e <> ErrNon200 code) /\
      e <> ErrRedis /\ e <> ErrDownload /\ e <> ErrReadImage /\ e <> ErrEmptyImage
  end.
Proof.
  cbv zeta.
  assert (Hshape : forall r : string * option error,
             iconOrError N r ->
             match r.2 with
             | None => r.1 <> "" /\
                       ((cacheRepo = true /\ redis_up N (trace w) = true /\
                         cachedIn N w (getFaviconBase64Key (normalizeURL L resourceURL))
                         = Some r.1) \/
                        (downloadedIcon N r.1 /\ strings_HasPrefix r.1 "data:" = true))
             | Some e => r.1 = "" /\ e ∈ reportedErrors /\
                         (forall code, e <> ErrNon200 code) /\
                         e <> ErrRedis /\ e <> ErrDownload /\ e <> ErrReadImage /\
                         e <> ErrEmptyImage
             end).
  { intros [v [e|]]; unfold iconOrError; simpl.
    - intros [-> He]. split; [reflexivity|]. split; [exact He|].
      pose proof He as He'. unfold reportedErrors in He'.
      rewrite !elem_of_cons, elem_of_nil in He'.
      decompose [or] He'; try contradiction; subst e; repeat split; discriminate.
    - intros Hd. pose proof Hd as (t & url & resp & body & _ & _ & _ & _ & ->).
      split; [discriminate|]. right. split; [exact Hd|].
      apply prefix_occurs. eexists. reflexivity. }
  rewrite FetchFaviconBase64_run. cbv zeta.
  destruct (cacheLookup_spec N cacheRepo (normalizeURL L resourceURL) w) as [_ Hhit].
  destruct (cacheLookup N cacheRepo (normalizeURL L resourceURL) w) as [[v|] w0];
    simpl in Hhit.
  { destruct (Hhit v eq_refl) as (Hv & Hc & Hup & Hget). simpl. auto. }
  pose proof (known_stage_icon N cacheRepo (normalizeURL L resourceURL)
                (getKnownServiceFavicon L (withScheme resourceURL)) w0) as Hk.
  destruct ((_ ← emit (EvStage KnownService);
             downloadIfFound N cacheRepo (normalizeURL L resourceURL)
               (getKnownServiceFavicon L (withScheme resourceURL))) w0)
    as [[v|] w1]; simpl in Hk.
  { apply (Hshape (v, None)). apply Hk. reflexivity. }
  destruct (url_Parse L (withScheme resourceURL)) as [baseURL|] eqn:Hp.
  2:{ apply (Hshape ("", Some ErrCreateRequest)). split; [reflexivity | reported]. }
  destruct (client_Do N (trace w1) (withScheme resourceURL)) as [resp|].
  2:{ apply (Hshape ("", Some ErrFetchURL)). split; [reflexivity | reported]. }
  apply Hshape. eapply afterPageFetch_icon. exact Hp.
Qed.

(** ** The requests of one resolution *)

Lemma countEv_app P l1 l2 :
  countEv P (l1 ++ l2) = (countEv P l1 + countEv P l2)%nat.
Proof. unfold countEv. rewrite List.filter_app, length_app. reflexivity. Qed.

Lemma countEv_le_length P l : (countEv P l <= length l)%nat.
Proof. unfold countEv. apply List.filter_length_le. Qed.

Lemma countEv_zero P l : Forall (fun e => P e = false) l -> countEv P l = 0%nat.
Proof.
  unfold countEv. induction 1 as [|e l He _ IH]; [reflexivity|].
  simpl. rewrite He. exact IH.
Qed.

Lemma countEv_discovery l :
  Forall (fun e => discoveryEvent e = true \/ isStore e = true) l ->
  countEv cacheGetEvent l = 0%nat /\ countEv isPageFetch l = 0%nat /\
  forall u, EvPageFetch u ∉ l.
Proof.
  intros F. repeat split.
  - apply countEv_zero. eapply Forall_impl; [exact F|].
    intros [[]| | | | |]; simpl; intros [?|?]; congruence.
  - apply countEv_zero. eapply Forall_impl; [exact F|].
    intros [[]| | | | |]; simpl; intros [?|?]; congruence.
  - intros u Hin. rewrite Forall_forall in F. destruct (F _ Hin); discriminate.
Qed.

Section Probing.
Context (L : GoLibs) (N : Network) (cacheRepo : bool) (normalizedURL : string).

Lemma probing_refl w : probing 0 w w.
Proof. exists []. split; [reflexivity|]. split; [constructor | reflexivity]. Qed.

Lemma probing_trans n m w w1 w2 :
  probing n w w1 -> probing m w1 w2 -> probing (n + m) w w2.
Proof.
  intros (l1 & T1 & F1 & C1) (l2 & T2 & F2 & C2). exists (l2 ++ l1).
  rewrite T2, T1, app_assoc. split; [reflexivity|]. split.
  - apply Forall_app. split; assumption.
  - rewrite countEv_app. lia.
Qed.

Lemma probing_le n m w w' : (n <= m)%nat -> probing n w w' -> probing m w w'.
Proof. intros Hle (l & T & F & C). exists l. repeat split; try assumption. lia. Qed.

Lemma quiet_probing (Q : Event -> bool) w w' :
  (forall e, Q e = true -> discoveryEvent e = true /\ probeEvent e = false) ->
  quiet Q w w' -> probing 0 w w'.
Proof.
  intros HQ (l & T & F & _). exists l. split; [exact T|]. split.
  - eapply Forall_impl; [exact F|]. intros e He. left. apply HQ, He.
  - rewrite countEv_zero; [lia|]. eapply Forall_impl; [exact F|].
    intros e He. apply HQ, He.
Qed.

Lemma attempted_probing (Q : Event -> bool) w r w' :
  (forall e, Q e = true -> discoveryEvent e = true /\ probeEvent e = false) ->
  attempted N cacheRepo normalizedURL Q w r w' -> probing 0 w w'.
Proof.
  intros HQ. destruct r as [v|]; simpl; [|apply quiet_probing, HQ].
  intros [_ (w1 & Hq & Hs)]. apply (quiet_probing Q) in Hq; [|exact HQ].
  apply (probing_trans 0 0 w w1 w'); [exact Hq|].
  unfold storedAfter in Hs. destruct cacheRepo.
  - destruct Hs as [T _]. exists [EvCacheStore normalizedURL v].
    split; [exact T|]. split; [repeat constructor; right; reflexivity|].
    unfold countEv. simpl. lia.
  - subst w'. apply probing_refl.
Qed.

Lemma download_class e :
  downloadEvent e = true -> discoveryEvent e = true /\ probeEvent e = false.
Proof. destruct e as [[]| | | | |]; simpl; intros; split; congruence. Qed.

Lemma probePaths_probing baseURL paths w :
  probing (length paths) w (probePaths N baseURL paths w).2.
Proof.
  destruct (probePaths_first N baseURL paths w) as (_ & k & _ & Hend).
  assert (Hall : forall i,
             Forall (fun e => discoveryEvent e = true \/ isStore e = true)
                    (rev (map (fun p => EvHead (standardURL baseURL p)) (take i paths)))).
  { intros i. apply Forall_forall. intros e He.
    apply list_elem_of_In, in_rev, in_map_iff in He. destruct He as (p & <- & _).
    left. reflexivity. }
  assert (Hlen : forall i, (i <= length paths)%nat ->
             (countEv probeEvent
                (rev (map (fun p => EvHead (standardURL baseURL p)) (take i paths)))
              <= length paths)%nat).
  { intros i Hi. etransitivity; [apply countEv_le_length|].
    rewrite length_rev, length_map, length_take. lia. }
  destruct Hend as [(Hk & _ & Ht) | (p & Hp & _ & _ & Ht)].
  - eexists. split; [exact Ht|]. split; [apply Hall | apply Hlen; lia].
  - eexists. split; [exact Ht|]. split; [apply Hall|]. apply Hlen.
    apply lookup_lt_Some in Hp. lia.
Qed.

Lemma or_else_probing n m (a : M (option string)) (k : M (string * option error)) :
  (forall w, probing n w (a w).2) -> (forall w, probing m w (k w).2) ->
  forall w, probing (n + m) w (or_else a k w).2.
Proof.
  intros Ha Hk w. unfold or_else. rewrite bind_run. specialize (Ha w).
  destruct (a w) as [[v|] w1]; simpl in *.
  - eapply probing_le; [|exact Ha]. lia.
  - eapply probing_trans; [exact Ha | apply Hk].
Qed.

Lemma emit_probing (s : Stage) w :
  probing 0 w (mkWorld (redis w) (EvStage s :: trace w)).
Proof.
  exists [EvStage s]. split; [reflexivity|]. split.
  - repeat constructor.
  - unfold countEv. simpl. lia.
Qed.

Lemma downloadIfFound_probing imageURL w :
  probing 0 w (downloadIfFound N cacheRepo normalizedURL imageURL w).2.
Proof.
  eapply attempted_probing; [apply download_class|]. apply downloadIfFound_attempted.
Qed.

Lemma downloadAndStore_probing imageURL w :
  probing 0 w (downloadAndStore N cacheRepo normalizedURL imageURL w).2.
Proof.
  eapply attempted_probing; [apply download_class|]. apply downloadAndStore_attempted.
Qed.

Lemma standard_stage_probing baseURL w :
  probing 13 w
    ((_ ← emit (EvStage Standard);
      standardIconURL ← checkStandardFaviconLocations N baseURL;
      downloadIfFound N cacheRepo normalizedURL standardIconURL) w).2.
Proof.
  rewrite bind_run. cbn [emit]. rewrite bind_run.
  pose proof (probePaths_probing baseURL standardPaths
                (mkWorld (redis w) (EvStage Standard :: trace w))) as Hp.
  unfold checkStandardFaviconLocations.
  destruct (probePaths N baseURL standardPaths
              (mkWorld (redis w) (EvStage Standard :: trace w))) as [u w2].
  simpl in Hp.
  apply (probing_trans 0 13 w _ _ (emit_probing Standard w)).
  apply (probing_trans 13 0 _ w2 _ Hp). apply downloadIfFound_probing.
Qed.

Lemma known_stage_probing faviconURL w :
  probing 0 w
    ((_ ← emit (EvStage KnownService);
      downloadIfFound N cacheRepo normalizedURL faviconURL) w).2.
Proof.
  rewrite known_stage_run.
  apply (probing_trans 0 0 w _ _ (emit_probing KnownService w)).
  apply downloadIfFound_probing.
Qed.

Lemma tryFaviconFromBaseDomain_probing baseURL w :
  probing 13 w (tryFaviconFromBaseDomain L N cacheRepo normalizedURL baseURL w).2.
Proof.
  unfold tryFaviconFromBaseDomain.
  apply (or_else_probing 0 13); [intros w0; apply known_stage_probing|].
  apply (or_else_probing 13 0); [intros w0; apply standard_stage_probing|].
  intros w0. apply probing_refl.
Qed.

Lemma tryCandidates_probing candidates w :
  probing 0 w (tryCandidates N cacheRepo normalizedURL candidates w).2.
Proof.
  eapply attempted_probing; [apply download_class|]. apply tryCandidates_attempted.
Qed.

Lemma discoverFromPage_probing resp w :
  probing 13 w (discoverFromPage L N cacheRepo normalizedURL resp w).2.
Proof.
  assert (H0 : forall w0 : World, probing 13 w0 w0).
  { intros w0. eapply probing_le; [|apply probing_refl]. lia. }
  unfold discoverFromPage.
  destruct (url_Parse L (http.RequestURL resp)) as [baseURL|]; [|apply H0].
  destruct (http.Body resp) as [body|]; [|apply H0].
  apply (or_else_probing 13 0); [intros w0; apply standard_stage_probing|].
  intros w0. rewrite bind_run. cbn [emit].
  apply (probing_trans 0 0 w0 _ _ (emit_probing HTML w0)).
  destruct (html_Parse L body) as [doc|]; [|apply probing_refl].
  apply (or_else_probing 0 0); [intros w1; apply tryCandidates_probing|].
  apply (or_else_probing 0 0).
  { intros w1. rewrite bind_run. cbn [emit].
    apply (probing_trans 0 0 w1 _ _ (emit_probing Regex w1)).
    apply downloadIfFound_probing. }
  apply (or_else_probing 0 0).
  { intros w1. rewrite bind_run. cbn [emit].
    apply (probing_trans 0 0 w1 _ _ (emit_probing DefaultIcon w1)).
    apply downloadAndStore_probing. }
  intros w1. apply probing_refl.
Qed.

Lemma afterPageFetch_probing resourceURL resp w :
  probing 13 w (afterPageFetch L N cacheRepo normalizedURL resourceURL resp w).2.
Proof.
  unfold afterPageFetch.
  destruct (url_Parse L resourceURL) as [baseURL|];
    destruct (negb (http.StatusCode resp =? http.StatusOK));
    destruct (_ && _);
    first [ apply tryFaviconFromBaseDomain_probing | apply discoverFromPage_probing
          | eapply probing_le; [|apply probing_refl]; lia ].
Qed.

Lemma cacheLookup_trace w :
  trace (cacheLookup N cacheRepo normalizedURL w).2 =
  (if cacheRepo then [EvCacheGet normalizedURL] else []) ++ trace w.
Proof.
  unfold cacheLookup. destruct cacheRepo; [|reflexivity].
  rewrite bind_run. unfold GetFaviconBase64.
  destruct (redis_up N (trace w)); [|reflexivity].
  destruct (redis.live (serverNow N w) (getFaviconBase64Key normalizedURL))
    as [c|]; [|reflexivity].
  simpl. destruct (nonEmpty (redis.value c)); reflexivity.
Qed.
End Probing.

(** X5: the requests of one call of [FetchFaviconBase64], whatever the
    network answers.  The cache is read exactly once when a repository is
    supplied (never otherwise), for the normalized URL and before
    anything else; the page is requested at most once, at the URL with
    its scheme added; at most 13 HEAD probes are sent, and none unless
    the page was requested before. *)
Theorem FetchFaviconBase64_requests (L : GoLibs) (N : Network) (cacheRepo : bool)
        (resourceURL : string) (w : World) :
  exists new,
    trace (FetchFaviconBase64 L N cacheRepo resourceURL w).2 = new ++ trace w /\
    countEv cacheGetEvent new = (if cacheRepo then 1 else 0)%nat /\
    (cacheRepo = true -> last new = Some (EvCacheGet (normalizeURL L resourceURL))) /\
    (countEv isPageFetch new <= 1)%nat /\
    (forall u, EvPageFetch u ∈ new -> u = withScheme resourceURL) /\
    (countEv probeEvent new <= 13)%nat /\
    (countEv isPageFetch new = 0%nat -> countEv probeEvent new = 0%nat).
Proof.
  set (normalizedURL := normalizeURL L resourceURL).
  set (target := withScheme resourceURL).
  set (g := if cacheRepo then [EvCacheGet normalizedURL] else []).
  assert (Hbody : exists w0 body,
             trace w0 = g ++ trace w /\
             trace (FetchFaviconBase64 L N cacheRepo resourceURL w).2
             = body ++ trace w0 /\
             countEv cacheGetEvent body = 0%nat /\
             (countEv isPageFetch body <= 1)%nat /\
             (forall u, EvPageFetch u ∈ body -> u = target) /\
             (countEv probeEvent body <= 13)%nat /\
             (countEv isPageFetch body = 0%nat -> countEv probeEvent body = 0%nat)).
  { rewrite FetchFaviconBase64_run. cbv zeta. fold normalizedURL target.
    pose proof (cacheLookup_trace N cacheRepo normalizedURL w) as Hg. fold g in Hg.
    destruct (cacheLookup N cacheRepo normalizedURL w) as [[v|] w0]; simpl in Hg.
    { exists w0, []. unfold countEv. simpl.
      repeat split; try exact Hg; try lia.
      intros u Hu. inversion Hu. }
    exists w0.
    pose proof (known_stage_probing N cacheRepo normalizedURL
                  (getKnownServiceFavicon L target) w0) as (l1 & T1 & F1 & C1).
    destruct (countEv_discovery l1 F1) as (G1 & P1 & U1).
    destruct ((_ ← emit (EvStage KnownService);
               downloadIfFound N cacheRepo normalizedURL
                 (getKnownServiceFavicon L target)) w0) as [[v|] w1]; simpl in T1.
    { exists l1. repeat split; try assumption; try lia.
      intros u Hu. destruct (U1 u Hu). }
    destruct (url_Parse L target) as [baseURL|].
    2:{ exists l1. repeat split; try assumption; try lia.
        intros u Hu. destruct (U1 u Hu). }
    assert (Hfetch : forall post,
               Forall (fun e => discoveryEvent e = true \/ isStore e = true) post ->
               (countEv probeEvent post <= 13)%nat ->
               let body := post ++ EvPageFetch target :: l1 in
               countEv cacheGetEvent body = 0%nat /\
               (countEv isPageFetch body <= 1)%nat /\
               (forall u, EvPageFetch u ∈ body -> u = target) /\
               (countEv probeEvent body <= 13)%nat /\
               (countEv isPageFetch body = 0%nat -> countEv probeEvent body = 0%nat)).
    { intros post F2 C2. cbv zeta.
      destruct (countEv_discovery post F2) as (G2 & P2 & U2).
      change (EvPageFetch target :: l1) with ([EvPageFetch target] ++ l1).
      assert (E1 : countEv cacheGetEvent [EvPageFetch target] = 0%nat) by reflexivity.
      assert (E2 : countEv isPageFetch [EvPageFetch target] = 1%nat) by reflexivity.
      assert (E3 : countEv probeEvent [EvPageFetch target] = 0%nat) by reflexivity.
      rewrite !countEv_app, G1, G2, P1, P2, E1, E2, E3.
      repeat split; try lia.
      intros u Hu. rewrite !elem_of_app, list_elem_of_singleton in Hu.
      destruct Hu as [Hu|[Hu|Hu]];
        [destruct (U2 u Hu) | inversion Hu; reflexivity | destruct (U1 u Hu)]. }
    destruct (client_Do N (trace w1) target) as [resp|].
    - pose proof (afterPageFetch_probing L N cacheRepo normalizedURL target resp
                    (mkWorld (redis w1) (EvPageFetch target :: trace w1)))
        as (post & T2 & F2 & C2).
      exists (post ++ EvPageFetch target :: l1).
      split; [exact Hg|]. split.
      + rewrite T2. simpl. rewrite T1, <- app_assoc. reflexivity.
      + apply Hfetch; assumption.
    - exists ([] ++ EvPageFetch target :: l1).
      split; [exact Hg|]. split.
      + simpl. rewrite T1. reflexivity.
      + apply (Hfetch []); [apply List.Forall_nil | unfold countEv; simpl; lia]. }
  destruct Hbody as (w0 & body & Hg & Ht & G & P & U & C & Z).
  exists (body ++ g). rewrite Ht, Hg, app_assoc. split; [reflexivity|].
  assert (Hgc : countEv cacheGetEvent g = (if cacheRepo then 1 else 0)%nat /\
                countEv isPageFetch g = 0%nat /\ countEv probeEvent g = 0%nat /\
                forall u, EvPageFetch u ∉ g).
  { unfold g. destruct cacheRepo; repeat split; intros u Hu; inversion Hu; subst.
    inversion H1. }
  destruct Hgc as (Gg & Pg & Cg & Ug).
  rewrite !countEv_app, G, Gg, Pg, Cg. repeat split; try lia.
  - intros ->. unfold g. apply last_snoc.
  - intros u Hu. apply elem_of_app in Hu as [Hu|Hu]; [apply U, Hu | destruct (Ug u Hu)].
Qed.

(** ** The cache between two resolutions *)

(** X6: with a cache repository and Redis answering, a resolution that
    succeeded leaves an entry with its payload under the normalized URL.
    When the payload was downloaded in this resolution the entry expires
    [FaviconCacheTTL] (7 days) after the store; when it was served from
    the cache the entry is the one that was there, and its expiry is not
    moved.  As long as the entry has not expired, the next resolution of
    any URL with the same normalized form (the same scheme and host,
    whatever the path) returns the same payload after one cache read and
    sends nothing to the network, even on another network; from the time
    of expiry on, the cache no longer answers and the resolution goes
    through the cascade again. *)
Theorem cache_serves_same_origin (L : GoLibs) (N N' : Network)
        (resourceURL other : string) (w : World) (v : string) :
  (forall t, redis_up N t = true) ->
  (FetchFaviconBase64 L N true resourceURL w).1 = (v, None) ->
  normalizeURL L other = normalizeURL L resourceURL ->
  let w' := (FetchFaviconBase64 L N true resourceURL w).2 in
  let key := getFaviconBase64Key (normalizeURL L resourceURL) in
  let hit := (cacheLookup N true (normalizeURL L resourceURL) w).1 in
  redis_up N' (trace w') = true ->
  exists e,
    redis w' !! key = Some e /\ redis.value e = v /\
    (hit = None ->
     exists t1,
       trace w' = EvCacheStore (normalizeURL L resourceURL) v :: t1 /\
       redis.expireAt e = Some (redis_time N t1 + 604800)) /\
    (hit <> None -> redis w' = redis w) /\
    (match redis.expireAt e with
     | Some expiry => redis_time N' (trace w') < expiry
     | None => True
     end ->
     FetchFaviconBase64 L N' true other w'
     = ((v, None),
        mkWorld (redis w') (EvCacheGet (normalizeURL L resourceURL) :: trace w'))) /\
    (forall expiry,
       redis.expireAt e = Some expiry -> expiry <= redis_time N' (trace w') ->
       cacheLookup N' true (normalizeURL L other) w'
       = (None, mkWorld (redis w') (EvCacheGet (normalizeURL L resourceURL) :: trace w'))).
Proof.
  intros Hup Hrun Hsame w' key hit Hup'.
  assert (Hkey : exists e,
             redis w' !! key = Some e /\ redis.value e = v /\ v <> "" /\
             (hit = None ->
              exists t1,
                trace w' = EvCacheStore (normalizeURL L resourceURL) v :: t1 /\
                redis.expireAt e = Some (redis_time N t1 + 604800)) /\
             (hit <> None -> redis w' = redis w)).
  { subst hit.
    destruct (cacheLookup N true (normalizeURL L resourceURL) w).1 as [c|] eqn:Hl.
    - pose proof (FetchFaviconBase64_cases L N true resourceURL w) as Hc.
      cbv zeta in Hc. rewrite Hl in Hc. destruct Hc as [Hr Hw].
      rewrite Hrun in Hr. inversion Hr; subst c.
      destruct (cacheLookup_spec N true (normalizeURL L resourceURL) w)
        as [(new & _ & _ & Hredis) Hhit].
      destruct (Hhit v Hl) as (Hv & _ & _ & Hget).
      unfold cachedIn, redis.live, serverNow in Hget. cbn [redis.db] in Hget.
      fold key in Hget.
      assert (Hw' : redis w' = redis w) by (unfold w'; rewrite Hw; exact Hredis).
      rewrite Hw'.
      destruct (redis w !! key) as [e|]; [|discriminate Hget].
      exists e. split; [reflexivity|]. split.
      + destruct (redis.expireAt e) as [x|]; [destruct (_ <? x)|];
          simpl in Hget; congruence.
      + split; [exact Hv|]. split; [discriminate | reflexivity].
    - pose proof (FetchFaviconBase64_miss_resolved L N true resourceURL w Hl) as Hres.
      unfold resolved in Hres. rewrite Hrun in Hres. simpl in Hres.
      destruct Hres as [Hv (w1 & _ & Hs)]. unfold storedAfter in Hs.
      destruct Hs as [Ht Hredis]. rewrite Hup in Hredis.
      eexists. split; [unfold w', key; rewrite Hredis; apply lookup_insert_eq|].
      split; [reflexivity|]. split; [exact Hv|]. split.
      + intros _. exists (trace w1). split; [exact Ht | reflexivity].
      + intros H. contradiction H. reflexivity. }
  destruct Hkey as (e & Hkey & Hval & Hv & Hnew & Hold).
  exists e. split; [exact Hkey|]. split; [exact Hval|].
  split; [exact Hnew|]. split; [exact Hold|]. split.
  - intros Hlive. rewrite FetchFaviconBase64_run. cbv zeta. rewrite Hsame.
    unfold cacheLookup. rewrite bind_run. unfold GetFaviconBase64.
    rewrite Hup'. unfold redis.live, serverNow. cbn [redis.db redis.clock].
    fold key. rewrite Hkey.
    assert (Hl : match redis.expireAt e with
                 | Some t => if redis_time N' (trace w') <? t then Some e else None
                 | None => Some e
                 end = Some e).
    { destruct (redis.expireAt e) as [x|]; [|reflexivity].
      apply Z.ltb_lt in Hlive. rewrite Hlive. reflexivity. }
    rewrite Hl, Hval. simpl.
    apply String.eqb_neq in Hv. unfold nonEmpty. rewrite Hv. reflexivity.
  - intros expiry He Hlate. rewrite Hsame.
    unfold cacheLookup. rewrite bind_run. unfold GetFaviconBase64.
    rewrite Hup'. unfold redis.live, serverNow. cbn [redis.db redis.clock].
    fold key. rewrite Hkey, He.
    apply Z.ltb_ge in Hlate. rewrite Hlate. reflexivity.
Qed.

Lemma cache_serves_same_origin_witness :
  let w' := (FetchFaviconBase64 Ref.libs githubOnly true "github.com" emptyWorld).2 in
  redis w' !! "favicon_base64:https://github.com"
  = Some (redis.mkEntry "data:image/png;base64,UE5H" (Some 604800)) /\
  FetchFaviconBase64 Ref.libs noIconNet true "https://github.com/settings" w'
  = (("data:image/png;base64,UE5H", None),
     mkWorld (redis w') (EvCacheGet "https://github.com" :: trace w')) /\
  cacheLookup noIconAfterAWeek true "https://github.com" w'
  = (None, mkWorld (redis w') (EvCacheGet "https://github.com" :: trace w')).
Proof.
  intros w'.
  assert (Hentry : redis w' !! "favicon_base64:https://github.com"
                   = Some (redis.mkEntry "data:image/png;base64,UE5H" (Some 604800)))
    by (vm_compute; reflexivity).
  split; [exact Hentry|]. split.
  - destruct (cache_serves_same_origin Ref.libs githubOnly noIconNet
                "github.com" "https://github.com/settings" emptyWorld
                "data:image/png;base64,UE5H")
      as (e & He & _ & _ & _ & Hserved & _).
    + intros t. reflexivity.
    + vm_compute. reflexivity.
    + vm_compute. reflexivity.
    + reflexivity.
    + apply Hserved.
      change (redis (FetchFaviconBase64 Ref.libs githubOnly true "github.com" emptyWorld).2
                !! getFaviconBase64Key (normalizeURL Ref.libs "github.com"))
        with (redis w' !! "favicon_base64:https://github.com") in He.
      rewrite Hentry in He. injection He as <-. vm_compute. reflexivity.
  - destruct (cache_serves_same_origin Ref.libs githubOnly noIconAfterAWeek
                "github.com" "https://github.com/settings" emptyWorld
                "data:image/png;base64,UE5H")
      as (e & He & _ & _ & _ & _ & Hexpired).
    + intros t. reflexivity.
    + vm_compute. reflexivity.
    + vm_compute. reflexivity.
    + reflexivity.
    + change (redis (FetchFaviconBase64 Ref.libs githubOnly true "github.com" emptyWorld).2
                !! getFaviconBase64Key (normalizeURL Ref.libs "github.com"))
        with (redis w' !! "favicon_base64:https://github.com") in He.
      rewrite Hentry in He. injection He as <-.
      apply (Hexpired 604800); [reflexivity | vm_compute; discriminate].
Defined.

(** ** The batch ends *)

Section BatchRuns.
Context (L : GoLibs) (faviconCache : bool) (Env : Network -> World -> Prop).

Lemma run_reachable bms n s0 s :
  run L faviconCache Env n s0 s ->
  reachable L faviconCache Env bms s0 -> reachable L faviconCache Env bms s.
Proof.
  induction 1 as [s|n s s1 s2 _ IH Hstep]; intros Hr; [exact Hr|].
  eapply reach_step; [apply IH, Hr | exact Hstep].
Qed.

Lemma run_measure n s0 s :
  run L faviconCache Env n s0 s -> (n + stepsLeft s <= stepsLeft s0)%nat.
Proof.
  induction 1 as [s|n s s1 s2 _ IH Hstep]; [lia|].
  pose proof (step_decreases L faviconCache Env s1 s2 Hstep). lia.
Qed.

Lemma run_cons n s s1 s2 :
  step L faviconCache Env s s1 -> run L faviconCache Env n s1 s2 ->
  run L faviconCache Env (S n) s s2.
Proof.
  intros Hstep Hrun. induction Hrun as [s1|n s1 s2 s3 _ IH Hstep'].
  - eapply run_step; [apply run_refl | exact Hstep].
  - eapply run_step; [apply IH, Hstep | exact Hstep'].
Qed.

Lemma stepsLeft_init bms : stepsLeft (initBatch bms) = (6 * length bms + 2)%nat.
Proof.
  unfold stepsLeft, mainSteps, initBatch. simpl.
  assert (Hz : forall k, tasksSteps (replicate k NotSpawned) = O).
  { induction k; simpl; auto. }
  rewrite Hz. lia.
Qed.

(** Once the function has returned nothing moves any more: no goroutine
    outlives the call. *)
Lemma returned_final bms s s' :
  reachable L faviconCache Env bms s -> mainPC s = Returned ->
  ~ step L faviconCache Env s s'.
Proof.
  intros Hr Hm Hstep.
  pose proof (reachable_Inv L faviconCache Env bms s Hr) as HI.
  assert (Hlive : forall idx t, tasks s !! idx = Some t -> live t = true -> False).
  { intros idx t Ht Hl.
    exact (Inv_live_not_returned L faviconCache Env bms s idx t HI Ht Hl Hm). }
  inversion Hstep; subst; try congruence;
    match goal with
    | H : tasks s !! _ = Some _ |- _ => exact (Hlive _ _ H eq_refl)
    end.
Qed.

Lemma run_completes bms :
  (exists N w, Env N w) ->
  forall k s, stepsLeft s = k -> reachable L faviconCache Env bms s ->
  exists m s', run L faviconCache Env m s s' /\ mainPC s' = Returned /\
               (m <= stepsLeft s)%nat.
Proof.
  intros HEnv k. induction k as [k IH] using lt_wf_ind. intros s Hk Hr.
  assert (Hgo : mainPC s <> Returned ->
                exists m s', run L faviconCache Env m s s' /\ mainPC s' = Returned /\
                             (m <= stepsLeft s)%nat).
  { intros Hm.
    destruct (step_progress L faviconCache Env bms s HEnv Hr Hm) as [s1 Hs1].
    pose proof (step_decreases L faviconCache Env s s1 Hs1) as Hlt.
    destruct (IH (stepsLeft s1)) with (s := s1) as (m & s' & Hrun & Hret & Hle);
      [lia | reflexivity | eapply reach_step; eassumption|].
    exists (S m), s'. split; [eapply run_cons; eassumption|]. split; [exact Hret | lia]. }
  destruct (mainPC s) eqn:Hm; try (apply Hgo; congruence).
  exists O, s. split; [apply run_refl|]. split; [exact Hm | lia].
Qed.
End BatchRuns.

(** X7: [fetchFaviconsParallel] always comes to its end.  After [n]
    transitions of the loop and the goroutines, in any interleaving and
    whatever the resolutions answer, [n] is at most 6 * len(bookmarks) + 2;
    as long as the function has not returned some transition is enabled
    (the semaphore and the wait group cannot block everything), and the
    run can be completed to the return within the same bound; once the
    function has returned no transition is left, so no goroutine outlives
    the call. *)
Theorem fetchFaviconsParallel_terminates (L : GoLibs) (faviconCache : bool)
        (Env : Network -> World -> Prop) (bms : list model.Bookmark)
        (n : nat) (s : Batch) :
  run L faviconCache Env n (initBatch bms) s ->
  (n + stepsLeft s <= 6 * length bms + 2)%nat /\
  (mainPC s = Returned -> forall s', ~ step L faviconCache Env s s') /\
  ((exists N w, Env N w) ->
   (mainPC s <> Returned -> exists s', step L faviconCache Env s s') /\
   exists m s', run L faviconCache Env m s s' /\ mainPC s' = Returned /\
                (n + m <= 6 * length bms + 2)%nat).
Proof.
  intros Hrun.
  pose proof (run_measure L faviconCache Env n _ s Hrun) as Hle.
  rewrite stepsLeft_init in Hle.
  assert (Hr : reachable L faviconCache Env bms s).
  { eapply run_reachable; [exact Hrun | apply reach_init]. }
  split; [exact Hle|]. split.
  - intros Hm s'. eapply returned_final; eassumption.
  - intros HEnv. split.
    + apply (step_progress L faviconCache Env bms s HEnv Hr).
    + destruct (run_completes L faviconCache Env bms HEnv (stepsLeft s) s eq_refl Hr)
        as (m & s' & Hrun' & Hret & Hm).
      exists m, s'. split; [exact Hrun'|]. split; [exact Hret | lia].
Qed.

Lemma fetchFaviconsParallel_terminates_witness :
  let Env := fun (_ : Network) (_ : World) => True in
  let s := mkBatch Wait [Acquire] 0 1 [model.mkBookmark 0 0 "t" "example.com" "" 0 0 false] [] in
  (2 + stepsLeft s <= 6 * 1 + 2)%nat /\
  (mainPC s = Returned -> forall s', ~ step Ref.libs true Env s s') /\
  ((exists N w, Env N w) ->
   (mainPC s <> Returned -> exists s', step Ref.libs true Env s s') /\
   exists m s', run Ref.libs true Env m s s' /\ mainPC s' = Returned /\
                (2 + m <= 6 * 1 + 2)%nat).
Proof.
  cbv zeta.
  apply (fetchFaviconsParallel_terminates Ref.libs true (fun _ _ => True)
           [model.mkBookmark 0 0 "t" "example.com" "" 0 0 false] 2).
  eapply run_step.
  - eapply run_step; [apply run_refl|].
    eapply (step_spawn _ _ _ _ O); [reflexivity | reflexivity | discriminate].
  - eapply step_loop_end; reflexivity.
Defined.

(** ** The import parser *)

Lemma traverseHTML_preorder L n : forall acc,
  traverseHTML L n acc = acc ++ flat_map (importedFrom L) (preorder n).
Proof.
  induction n as [ty data attrs children IH] using Node_children_ind.
  intros acc. cbn [traverseHTML preorder flat_map].
  unfold importedFrom at 1. cbn [attributes children_of].
  set (here := if is_anchor (html.mkNode ty data attrs children)
               then anchorBookmark L attrs children else []).
  assert (Hacc : (if is_anchor (html.mkNode ty data attrs children)
                  then acc ++ anchorBookmark L attrs children else acc) = acc ++ here).
  { subst here. destruct (is_anchor _); [reflexivity | rewrite app_nil_r; reflexivity]. }
  rewrite Hacc. rewrite app_assoc. generalize (acc ++ here). clear Hacc here.
  induction IH as [|c cs Hc _ IHcs]; intros acc'.
  - simpl. rewrite app_nil_r. reflexivity.
  - rewrite Hc. rewrite IHcs. rewrite flat_map_app. rewrite app_assoc. reflexivity.
Qed.

Ltac no_elem :=
  let H := fresh "H" in intros H; apply elem_of_nil in H; destruct H.

Lemma importedFrom_bookmark L n b :
  b ∈ importedFrom L n ->
  exists attrs children,
    n = html.mkNode html.ElementNode "a" attrs children /\
    b = newBookmark (firstText children) (firstHref attrs) /\
    firstHref attrs <> "" /\ is_Some (url_Parse L (firstHref attrs)).
Proof.
  unfold importedFrom. destruct n as [ty data attrs children].
  cbn [attributes children_of is_anchor].
  destruct ty; try no_elem.
  destruct (String.eqb_spec data "a") as [->|]; [|no_elem].
  unfold anchorBookmark.
  destruct (String.eqb_spec (firstHref attrs) "") as [|Hne]; simpl; [no_elem|].
  destruct (url_Parse L (firstHref attrs)) as [u|] eqn:Hp; [|no_elem].
  intros Hb. apply list_elem_of_singleton in Hb. subst b.
  exists attrs, children. repeat split; eauto.
Qed.

Lemma firstHref_first pre v rest :
  Forall (fun a => html.Key a <> "href") pre ->
  firstHref (pre ++ html.mkAttr "href" v :: rest) = v.
Proof.
  induction 1 as [|a pre Ha _ IH]; simpl; [reflexivity|].
  apply String.eqb_neq in Ha. rewrite Ha. exact IH.
Qed.

(** X8: [traverseHTML] appends to the slice, in document order (parents
    before children, siblings left to right), one bookmark for every
    [<a>] element whose first href attribute is non-empty and parses as a
    URL, and nothing for any other node; the first href decides even when
    a later one differs.  Every bookmark it creates has that href as its
    URL (non-empty, parseable), the data of the first child as its title
    when that child is a text node and the empty title otherwise, no icon
    and zero values in all other fields. *)
Theorem traverseHTML_spec (L : GoLibs) (doc : html.Node) (acc : list model.Bookmark) :
  traverseHTML L doc acc = acc ++ flat_map (importedFrom L) (preorder doc) /\
  (forall b, b ∈ flat_map (importedFrom L) (preorder doc) ->
     exists attrs children,
       html.mkNode html.ElementNode "a" attrs children ∈ preorder doc /\
       b = model.mkBookmark zeroTime zeroTime (firstText children) (firstHref attrs)
                            "" 0 0 false /\
       model.URL b <> "" /\ is_Some (url_Parse L (model.URL b))) /\
  (forall attrs children,
     html.mkNode html.ElementNode "a" attrs children ∈ preorder doc ->
     firstHref attrs <> "" -> is_Some (url_Parse L (firstHref attrs)) ->
     newBookmark (firstText children) (firstHref attrs)
     ∈ flat_map (importedFrom L) (preorder doc)) /\
  (forall pre v rest,
     Forall (fun a => html.Key a <> "href") pre ->
     firstHref (pre ++ html.mkAttr "href" v :: rest) = v).
Proof.
  split; [apply traverseHTML_preorder|]. split; [|split].
  - intros b Hb. apply list_elem_of_In, in_flat_map in Hb.
    destruct Hb as (n & Hn & Hb).
    apply list_elem_of_In in Hb. apply list_elem_of_In in Hn.
    destruct (importedFrom_bookmark L n b Hb) as (attrs & children & -> & -> & Hne & Hp).
    exists attrs, children. repeat split; assumption.
  - intros attrs children Hn Hne Hp.
    apply list_elem_of_In, in_flat_map.
    exists (html.mkNode html.ElementNode "a" attrs children).
    split; [apply list_elem_of_In, Hn|].
    unfold importedFrom. cbn [is_anchor attributes children_of String.eqb].
    unfold anchorBookmark. apply String.eqb_neq in Hne. rewrite Hne.
    destruct Hp as [u ->]. simpl. auto.
  - apply firstHref_first.
Qed.

Lemma traverseHTML_urls L doc b :
  b ∈ traverseHTML L doc [] -> model.URL b <> "".
Proof.
  rewrite traverseHTML_preorder. simpl. intros Hb.
  apply list_elem_of_In, in_flat_map in Hb. destruct Hb as (n & _ & Hb).
  apply list_elem_of_In in Hb.
  destruct (importedFrom_bookmark L n b Hb) as (attrs & children & _ & -> & Hne & _).
  exact Hne.
Qed.


(** X9: [ParseHTML] always returns (the batch it starts cannot hang).  It
    reports an error exactly when the base64 text does not decode or the
    HTML parser fails.  Otherwise it
    returns the bookmarks [traverseHTML] extracted, in the same order and
    number, each with its title and URL as extracted and with the outcome
    of one resolution of its own URL as icon: the payload, or the empty
    string when that resolution failed.  A failed resolution never drops
    or fails a bookmark. *)
Theorem ParseHTML_spec (L : GoLibs) (base64_DecodeString : string -> option string)
        (faviconCache : bool) (Env : Network -> World -> Prop) (base64Data : string) :
  ((exists N w, Env N w) ->
   exists r, ParseHTML L base64_DecodeString faviconCache Env base64Data r) /\
  (forall r, ParseHTML L base64_DecodeString faviconCache Env base64Data r ->
     (r = None <->
      base64_DecodeString base64Data = None \/
      exists data, base64_DecodeString base64Data = Some data /\
                   html_Parse L data = None)) /\
  (forall bms,
     ParseBookmarksFromHTML L base64_DecodeString faviconCache Env base64Data (Some bms) ->
     exists data doc,
       base64_DecodeString base64Data = Some data /\ html_Parse L data = Some doc /\
       length bms = length (traverseHTML L doc []) /\
       forall i b, traverseHTML L doc [] !! i = Some b ->
         exists N w,
           Env N w /\
           bms !! i =
           Some (model.mkBookmark
                   (model.CreatedAt b) (model.UpdatedAt b) (model.Title b) (model.URL b)
                   match (FetchFaviconBase64 L N faviconCache (model.URL b) w).1 with
                   | (favicon, None) => favicon
                   | (_, Some _) => ""
                   end
                   (model.ID b) (model.UserID b) (model.ShowText b))).
Proof.
  unfold ParseBookmarksFromHTML, ParseHTML.
  destruct (base64_DecodeString base64Data) as [data|].
  2:{ split; [eauto|]. split.
      - intros r ->. split; auto.
      - intros bms H. discriminate H. }
  destruct (html_Parse L data) as [doc|] eqn:Hdoc.
  2:{ split; [eauto|]. split.
      - intros r ->. split; eauto.
      - intros bms H. discriminate H. }
  split; [|split].
  - intros HEnv.
    destruct (run_completes L faviconCache Env (traverseHTML L doc []) HEnv
                (stepsLeft (initBatch (traverseHTML L doc []))) _ eq_refl
                (reach_init L faviconCache Env _)) as (m & s & Hrun & Hret & _).
    exists (Some (bookmarks s)), s. split; [|auto].
    eapply run_reachable; [exact Hrun | apply reach_init].
  - intros r (s & _ & _ & ->). split; [discriminate|].
    intros [H | (d & H & Hd)]; [discriminate|]. inversion H; subst d. congruence.
  - intros bms (s & Hr & Hm & Hbms). inversion Hbms; subst bms.
    exists data, doc. split; [reflexivity|]. split; [exact Hdoc|].
    pose proof (reachable_Inv L faviconCache Env _ s Hr) as HI.
    split; [exact (inv_bookmarks _ _ _ _ _ HI)|].
    intros i b Hb.
    assert (Hurl : model.URL b <> "").
    { apply (traverseHTML_urls L doc). eapply list_elem_of_lookup_2. exact Hb. }
    destruct (inv_slots _ _ _ _ _ HI i b Hb) as (t & b' & Ht & Hb' & Hok).
    pose proof (inv_returned _ _ _ _ _ HI Hm) as Hlive.
    pose proof (count_zero live (tasks s) i t Hlive Ht) as Hl.
    unfold slotOK, visited in Hok. rewrite Hm in Hok.
    destruct t; try discriminate Hl.
    + destruct Hok as (_ & _ & Hu). contradiction Hurl. auto.
    + destruct Hok as (_ & _ & _ & favicon & (N & w & HEnv & Hf) & ->).
      exists N, w. split; [exact HEnv|]. rewrite Hb'.
      rewrite getFavicon_result in Hf by assumption. rewrite Hf. reflexivity.
Qed.

(** ** The bookmark exporter *)

Lemma append_cons (x : ascii) (a b : string) : String x a +:+ b = String x (a +:+ b).
Proof. reflexivity. Qed.

Lemma append_assoc3 (a b c : string) : (a +:+ b) +:+ c = a +:+ (b +:+ c).
Proof.
  induction a as [|x a IH]; [reflexivity|]. rewrite !append_cons, IH. reflexivity.
Qed.

Lemma bytes_app (a b : string) : bytes (a +:+ b) = bytes a ++ bytes b.
Proof.
  induction a as [|x a IH]; [reflexivity|]. rewrite append_cons. simpl.
  f_equal. exact IH.
Qed.

Lemma length_append (a b : string) :
  String.length (a +:+ b) = (String.length a + String.length b)%nat.
Proof.
  induction a as [|x a IH]; [reflexivity|]. rewrite append_cons. simpl.
  rewrite IH. reflexivity.
Qed.

(** The six shapes of a replacement. *)
Lemma escapeByte_cases (c : ascii) :
  (c = "&"%char /\ escapeByte c = "&amp;") \/
  (c = "<"%char /\ escapeByte c = "&lt;") \/
  (c = ">"%char /\ escapeByte c = "&gt;") \/
  (c = ascii_of_nat 34 /\ escapeByte c = "&quot;") \/
  (c = "'"%char /\ escapeByte c = "&#39;") \/
  (specialByte c = false /\ escapeByte c = String c "").
Proof.
  unfold escapeByte, specialByte, markupByte.
  destruct (Ascii.eqb_spec c "&"%char) as [->|]; [auto|].
  destruct (Ascii.eqb_spec c "<"%char) as [->|]; [auto|].
  destruct (Ascii.eqb_spec c ">"%char) as [->|]; [auto 6|].
  destruct (Ascii.eqb_spec c (ascii_of_nat 34)) as [->|]; [auto 6|].
  destruct (Ascii.eqb_spec c "'"%char) as [->|]; [auto 8|].
  auto 10.
Qed.

Lemma escapeByte_clean (c x : ascii) :
  In x (bytes (escapeByte c)) -> markupByte x = false.
Proof.
  destruct (escapeByte_cases c) as [[_ ->]|[[_ ->]|[[_ ->]|[[_ ->]|[[_ ->]|[Hs ->]]]]]];
    simpl; intros Hx;
    repeat (destruct Hx as [<-|Hx]; [reflexivity|]); try contradiction.
  destruct Hx as [<-|[]]. unfold specialByte in Hs.
  apply orb_false_iff in Hs. apply Hs.
Qed.

Lemma sanitizeHTML_app (a b : string) :
  sanitizeHTML (a +:+ b) = sanitizeHTML a +:+ sanitizeHTML b.
Proof.
  induction a as [|x a IH]; [reflexivity|].
  rewrite append_cons. cbn [sanitizeHTML]. rewrite IH, append_assoc3. reflexivity.
Qed.

Lemma sanitizeHTML_length (input : string) :
  (String.length input <= String.length (sanitizeHTML input))%nat.
Proof.
  induction input as [|c rest IH]; cbn [sanitizeHTML String.length]; [lia|].
  rewrite length_append.
  destruct (escapeByte_cases c) as [[_ ->]|[[_ ->]|[[_ ->]|[[_ ->]|[[_ ->]|[_ ->]]]]]];
    simpl; lia.
Qed.

Lemma sanitizeHTML_empty (input : string) : sanitizeHTML input = "" <-> input = "".
Proof.
  split; [|intros ->; reflexivity].
  intros H. pose proof (sanitizeHTML_length input) as Hl. rewrite H in Hl.
  destruct input; [reflexivity | simpl in Hl; lia].
Qed.

(** Two replacements followed by anything agree only for the same byte. *)
Lemma escapeByte_inj (c c' : ascii) (x y : string) :
  escapeByte c +:+ x = escapeByte c' +:+ y -> c = c' /\ x = y.
Proof.
  unfold escapeByte.
  destruct (Ascii.eqb_spec c "&"%char) as [->|Hc1];
    [|destruct (Ascii.eqb_spec c "<"%char) as [->|Hc2];
      [|destruct (Ascii.eqb_spec c ">"%char) as [->|Hc3];
        [|destruct (Ascii.eqb_spec c (ascii_of_nat 34)) as [->|Hc4];
          [|destruct (Ascii.eqb_spec c "'"%char) as [->|Hc5]]]]];
    (destruct (Ascii.eqb_spec c' "&"%char) as [->|Hd1];
     [|destruct (Ascii.eqb_spec c' "<"%char) as [->|Hd2];
       [|destruct (Ascii.eqb_spec c' ">"%char) as [->|Hd3];
         [|destruct (Ascii.eqb_spec c' (ascii_of_nat 34)) as [->|Hd4];
           [|destruct (Ascii.eqb_spec c' "'"%char) as [->|Hd5]]]]]);
    cbv [append]; intros H; inversion H; subst; try (split; reflexivity);
    try congruence.
Qed.

Lemma sanitizeHTML_inj (a : string) : forall b,
  sanitizeHTML a = sanitizeHTML b -> a = b.
Proof.
  induction a as [|c a IH]; intros [|c' b] H.
  - reflexivity.
  - symmetry in H. apply (proj1 (sanitizeHTML_empty (String c' b))) in H.
    discriminate H.
  - apply (proj1 (sanitizeHTML_empty (String c a))) in H. discriminate H.
  - cbn [sanitizeHTML] in H. apply escapeByte_inj in H. destruct H as [-> H].
    f_equal. apply IH, H.
Qed.

(** X10: the output of [sanitizeHTML] contains none of the bytes that open
    or close markup or an attribute value (the angle brackets and the two
    quotes), whatever the input; it is never shorter than the input and is
    empty only for the empty input; it is the input itself exactly when
    the input has none of the five replaced bytes; and it works byte by
    byte, so the text of a concatenation is the concatenation of the
    texts.  It is not idempotent: an ampersand is escaped again. *)
Theorem sanitizeHTML_safe (input : string) :
  (forall c, In c (bytes (sanitizeHTML input)) -> markupByte c = false) /\
  (String.length input <= String.length (sanitizeHTML input))%nat /\
  (sanitizeHTML input = "" <-> input = "") /\
  (sanitizeHTML input = input <->
   forall c, In c (bytes input) -> specialByte c = false) /\
  (forall a b, sanitizeHTML (a +:+ b) = sanitizeHTML a +:+ sanitizeHTML b) /\
  sanitizeHTML (sanitizeHTML "&") = "&amp;amp;".
Proof.
  split; [|split; [apply sanitizeHTML_length|split; [apply sanitizeHTML_empty|split;
    [|split; [apply sanitizeHTML_app | reflexivity]]]]].
  - induction input as [|c rest IH]; cbn [sanitizeHTML]; [intros c []|].
    intros x Hx. rewrite bytes_app in Hx. apply in_app_or in Hx as [Hx|Hx].
    + eapply escapeByte_clean. exact Hx.
    + apply IH, Hx.
  - induction input as [|c rest IH]; cbn [sanitizeHTML].
    + split; [intros _ c [] | reflexivity].
    + split.
      * intros H.
        assert (Hc : escapeByte c = String c "" /\ sanitizeHTML rest = rest).
        { pose proof (sanitizeHTML_length rest) as Hl.
          assert (Hlen : String.length (escapeByte c +:+ sanitizeHTML rest)
                         = S (String.length rest)) by (rewrite H; reflexivity).
          rewrite length_append in Hlen.
          destruct (escapeByte_cases c)
            as [[_ E]|[[_ E]|[[_ E]|[[_ E]|[[_ E]|[_ E]]]]]];
            rewrite E in *; simpl in Hlen; try lia.
          split; [reflexivity|]. rewrite append_cons in H.
          inversion H as [H1]. rewrite H1. exact H1. }
        destruct Hc as [E Hrest]. intros x [<-|Hx].
        -- destruct (escapeByte_cases c)
             as [[-> E']|[[-> E']|[[-> E']|[[-> E']|[[-> E']|[Hs _]]]]]];
             try (rewrite E' in E; discriminate E). exact Hs.
        -- apply (proj1 IH Hrest), Hx.
      * intros Hall.
        destruct (escapeByte_cases c)
          as [[-> _]|[[-> _]|[[-> _]|[[-> _]|[[-> _]|[_ E]]]]]];
          try (specialize (Hall _ (or_introl eq_refl)); discriminate Hall).
        rewrite E, append_cons. f_equal. apply IH. intros x Hx. apply Hall. right. exact Hx.
Qed.

(** X11: [sanitizeHTML] loses nothing: two titles with the same escaped
    text are the same title. *)
Theorem sanitizeHTML_injective (a b : string) :
  sanitizeHTML a = sanitizeHTML b -> a = b.
Proof. apply sanitizeHTML_inj. Qed.

Lemma sanitizeHTML_injective_witness : "Q&A <1>" = "Q&A <1>".
Proof. apply (sanitizeHTML_injective "Q&A <1>" "Q&A <1>"). reflexivity. Defined.

Lemma exportLines_app (a b : list model.Bookmark) :
  exportLines (a ++ b) = exportLines a +:+ exportLines b.
Proof.
  induction a as [|x a IH]; [reflexivity|].
  cbn [exportLines app]. rewrite IH, append_assoc3. reflexivity.
Qed.

(** X12: [ExportToHTML] never reports an error.  What it encodes is the
    fixed header, the folder line, one anchor line per bookmark in the
    order of the slice, and the footer.  The text of an anchor is the
    escaped title, free of angle brackets and quotes, when the title is
    not empty; for an empty title it is the URL as it is, not escaped.
    The href and the icon attribute carry the URL and the icon as they
    are. *)
Theorem ExportToHTML_spec (now1 now2 : Z) (bookmarks : list model.Bookmark) :
  ExportBookmarksToHTML now1 now2 bookmarks
  = (base64_EncodeToString
       (exportHeader +:+ exportFolder now1 now2 +:+ exportLines bookmarks
        +:+ exportFooter), None) /\
  (forall a b, exportLines (a ++ b) = exportLines a +:+ exportLines b) /\
  (forall b,
     exportLine b =
     "<DT><A HREF=" +:+ dq +:+ model.URL b +:+ dq
       +:+ " ADD_DATE=" +:+ dq +:+ fmt_d (model.CreatedAt b) +:+ dq
       +:+ " LAST_MODIFIED=" +:+ dq +:+ fmt_d (model.UpdatedAt b) +:+ dq
       +:+ " ICON_URI=" +:+ dq +:+ model.Favicon b +:+ dq +:+ ">"
       +:+ (if String.eqb (model.Title b) "" then model.URL b
            else sanitizeHTML (model.Title b))
       +:+ "</A>" +:+ nl) /\
  (forall b, model.Title b <> "" ->
     anchorText b = sanitizeHTML (model.Title b) /\ anchorText b <> "" /\
     forall c, In c (bytes (anchorText b)) -> markupByte c = false) /\
  (forall b, model.Title b = "" -> anchorText b = model.URL b).
Proof.
  assert (Htext : forall b,
             anchorText b = if String.eqb (model.Title b) "" then model.URL b
                            else sanitizeHTML (model.Title b)).
  { intros b. unfold anchorText.
    destruct (String.eqb_spec (model.Title b) "") as [->|Hne]; [reflexivity|].
    destruct (String.eqb_spec (sanitizeHTML (model.Title b)) "") as [He|]; [|reflexivity].
    apply (proj1 (sanitizeHTML_empty _)) in He. contradiction. }
  split; [reflexivity|]. split; [apply exportLines_app|]. split; [|split].
  - intros b. unfold exportLine. rewrite Htext. reflexivity.
  - intros b Hne. rewrite Htext. apply String.eqb_neq in Hne. rewrite Hne.
    split; [reflexivity|]. split.
    + intros He. apply (proj1 (sanitizeHTML_empty _)) in He.
      apply String.eqb_neq in Hne. contradiction.
    + induction (model.Title b) as [|c rest IH]; cbn [sanitizeHTML];
        [intros c []|].
      intros x Hx. rewrite bytes_app in Hx. apply in_app_or in Hx as [Hx|Hx].
      * eapply escapeByte_clean. exact Hx.
      * destruct rest; [destruct Hx|]. apply IH; [reflexivity | exact Hx].
  - intros b He. rewrite Htext, He. reflexivity.
Qed.

Example export_empty_title :
  anchorText (model.mkBookmark 0 0 "" "https://example.com/?q=<b>" "" 1 1 true)
  = "https://example.com/?q=<b>".
Proof. reflexivity. Qed.

(** ** The keys of the cache repository *)

Lemma to_uint_nonnil (n : N) : N.to_uint n <> Decimal.Nil.
Proof. destruct n; [discriminate | apply DecimalPos.Unsigned.to_uint_nonnil]. Qed.

Lemma FormatUint_inj (a b : N) : strconv_FormatUint a = strconv_FormatUint b -> a = b.
Proof.
  unfold strconv_FormatUint. intros H.
  apply (f_equal NilZero.uint_of_string) in H.
  rewrite !NilZero.usu in H by apply to_uint_nonnil.
  inversion H as [H']. apply DecimalN.Unsigned.to_uint_inj, H'.
Qed.

Lemma ParseUint_FormatUint (n : N) :
  (n < 2 ^ 64)%N -> strconv_ParseUint (strconv_FormatUint n) = Some n.
Proof.
  intros Hn. unfold strconv_ParseUint, strconv_FormatUint.
  rewrite NilZero.usu by apply to_uint_nonnil.
  rewrite DecimalN.Unsigned.of_to. apply N.ltb_lt in Hn. rewrite Hn. reflexivity.
Qed.

Lemma append_inj_l (p a b : string) : p +:+ a = p +:+ b -> a = b.
Proof.
  induction p as [|c p IH]; [auto|]. rewrite !append_cons. intros H.
  inversion H. auto.
Qed.

Ltac keys_apart :=
  let a := fresh "a" in let b := fresh "b" in let H := fresh "H" in
  intros a b H;
  unfold getResetTokenKey, getEmailVerificationCodeKey, getEmailVerificationUserKey,
    getFaviconKey, getFaviconBase64Key, getVerificationAttemptsKey in H;
  cbv [append] in H; discriminate H.

(** X13: the six kinds of keys of the cache repository never meet: each
    key function is injective, and no key of one kind is a key of
    another, whatever token, code, URL or user ID it is made from.  So a
    cached icon, whose key contains a URL chosen by the user, can never
    take the place of a reset token, a verification code or an attempt
    counter, and the URL cache and the payload cache of one resource are
    different entries. *)
Theorem cache_keys_disjoint :
  (Inj (=) (=) getResetTokenKey /\ Inj (=) (=) getEmailVerificationCodeKey /\
   Inj (=) (=) getEmailVerificationUserKey /\ Inj (=) (=) getFaviconKey /\
   Inj (=) (=) getFaviconBase64Key /\ Inj (=) (=) getVerificationAttemptsKey) /\
  (apart getResetTokenKey getEmailVerificationCodeKey /\
   apart getResetTokenKey getEmailVerificationUserKey /\
   apart getResetTokenKey getFaviconKey /\
   apart getResetTokenKey getFaviconBase64Key /\
   apart getResetTokenKey getVerificationAttemptsKey /\
   apart getEmailVerificationCodeKey getEmailVerificationUserKey /\
   apart getEmailVerificationCodeKey getFaviconKey /\
   apart getEmailVerificationCodeKey getFaviconBase64Key /\
   apart getEmailVerificationCodeKey getVerificationAttemptsKey /\
   apart getEmailVerificationUserKey getFaviconKey /\
   apart getEmailVerificationUserKey getFaviconBase64Key /\
   apart getEmailVerificationUserKey getVerificationAttemptsKey /\
   apart getFaviconKey getFaviconBase64Key /\
   apart getFaviconKey getVerificationAttemptsKey /\
   apart getFaviconBase64Key getVerificationAttemptsKey).
Proof.
  split.
  - repeat split; intros a b H.
    + eapply append_inj_l, H.
    + eapply FormatUint_inj, append_inj_l, H.
    + eapply append_inj_l, H.
    + eapply append_inj_l, H.
    + eapply append_inj_l, H.
    + eapply FormatUint_inj, append_inj_l, H.
  - repeat split; keys_apart.
Qed.

(** ** The commands on a server that answers *)

Lemma R_bind_run {A B : Type} (m : R A) (f : A -> R B) (s : redis.Server) :
  (m ≫= f) s = let '(a, s') := m s in f a s'.
Proof. reflexivity. Qed.

Lemma Get_answering key s :
  answering s ->
  redis.Get key s
  = (match redis.live s key with
     | Some e => redis.Value (redis.value e)
     | None => redis.Nil
     end, s).
Proof.
  unfold answering, redis.Get, redis.roundTrip. intros H. rewrite H. cbn.
  rewrite ?H. reflexivity.
Qed.

Lemma Set_answering key v ttl s :
  answering s ->
  redis.Set_ key v ttl s
  = (None, redis.mkServer
             (<[key := redis.mkEntry v (Some (redis.clock s + ttl))]> (redis.db s))
             (redis.clock s) []).
Proof.
  unfold answering, redis.Set_, redis.roundTrip. intros H. rewrite H. cbn.
  rewrite ?H. reflexivity.
Qed.

Lemma Del_answering key s :
  answering s ->
  redis.Del key s
  = (None, redis.mkServer (delete key (redis.db s)) (redis.clock s) []).
Proof.
  unfold answering, redis.Del, redis.roundTrip. intros H. rewrite H. cbn.
  rewrite ?H. reflexivity.
Qed.

Lemma live_insert key e k d t tp :
  redis.live (redis.mkServer (<[key := e]> d) t tp) k
  = if decide (key = k)
    then match redis.expireAt e with
         | Some x => if t <? x then Some e else None
         | None => Some e
         end
    else redis.live (redis.mkServer d t tp) k.
Proof.
  unfold redis.live. simpl. destruct (decide (key = k)) as [->|Hne].
  - rewrite lookup_insert_eq. reflexivity.
  - rewrite lookup_insert_ne by exact Hne. reflexivity.
Qed.

Lemma live_delete key k d t tp :
  redis.live (redis.mkServer (delete key d) t tp) k
  = if decide (key = k) then None else redis.live (redis.mkServer d t tp) k.
Proof.
  unfold redis.live. simpl. destruct (decide (key = k)) as [->|Hne].
  - rewrite lookup_delete_eq. reflexivity.
  - rewrite lookup_delete_ne by exact Hne. reflexivity.
Qed.

Lemma userID_lookup key s :
  answering s ->
  ((r ← redis.Get key; mret (userIDReply r)) : R _) s
  = (match redis.live s key with
     | Some e => userIDReply (redis.Value (redis.value e))
     | None => (0%N, None)
     end, s).
Proof.
  intros Ha. rewrite R_bind_run, (Get_answering key s Ha).
  destruct (redis.live s key); reflexivity.
Qed.

Lemma string_lookup key s :
  answering s ->
  ((r ← redis.Get key; mret (stringReply r)) : R _) s
  = (match redis.live s key with
     | Some e => (redis.value e, None)
     | None => ("", None)
     end, s).
Proof.
  intros Ha. rewrite R_bind_run, (Get_answering key s Ha).
  destruct (redis.live s key); reflexivity.
Qed.

(** ** Reset tokens *)

(** X14: a reset token that was stored while Redis answered gives back its
    user ID until one hour after the store and the ID 0, without error,
    from then on; after [DeleteResetToken] it gives 0 at once; the
    lookups of all other tokens are what they were before the store. *)
Theorem reset_token_lifetime (s : redis.Server) (token : string) (userID : N) (t : Z) :
  (userID < 2 ^ 64)%N ->
  answering s ->
  let s1 := (StoreResetToken token userID s).2 in
  (StoreResetToken token userID s).1 = None /\
  (GetUserIDByResetToken token (at_time t s1)).1
  = (if t <? redis.clock s + 3600 then userID else 0%N, None) /\
  (GetUserIDByResetToken token (DeleteResetToken token (at_time t s1)).2).1
  = (0%N, None) /\
  (forall other, other <> token ->
     (GetUserIDByResetToken other (at_time t s1)).1
     = (GetUserIDByResetToken other (at_time t s)).1).
Proof.
  intros Hid Ha s1. subst s1. unfold StoreResetToken.
  rewrite (Set_answering _ _ _ s Ha). cbn [fst snd]. unfold at_time. cbn [redis.db redis.tape].
  split; [reflexivity|].
  assert (Ha' : forall d t0, answering (redis.mkServer d t0 [])) by reflexivity.
  unfold GetUserIDByResetToken, DeleteResetToken. split; [|split].
  - rewrite userID_lookup by apply Ha'. rewrite live_insert.
    rewrite decide_True by reflexivity. cbn [redis.expireAt fst].
    unfold PasswordResetTokenTTL, Hour.
    destruct (t <? redis.clock s + 3600); [|reflexivity].
    unfold userIDReply. cbn [redis.value]. rewrite ParseUint_FormatUint by exact Hid.
    reflexivity.
  - rewrite Del_answering by apply Ha'. cbn [snd redis.db redis.clock].
    rewrite userID_lookup by apply Ha'. rewrite live_delete.
    rewrite decide_True by reflexivity. reflexivity.
  - intros other Hne. rewrite !userID_lookup; [|rewrite Ha; reflexivity|apply Ha'].
    rewrite live_insert. rewrite decide_False.
    + cbn [fst]. rewrite Ha. reflexivity.
    + intros Hk. apply append_inj_l in Hk. congruence.
Qed.

Lemma reset_token_lifetime_witness :
  let s := redis.mkServer ∅ 1000 [] in
  let s1 := (StoreResetToken "abc" 7 s).2 in
  (StoreResetToken "abc" 7 s).1 = None /\
  (GetUserIDByResetToken "abc" (at_time 4599 s1)).1
  = (if 4599 <? redis.clock s + 3600 then 7%N else 0%N, None) /\
  (GetUserIDByResetToken "abc" (DeleteResetToken "abc" (at_time 4599 s1)).2).1
  = (0%N, None) /\
  (forall other, other <> "abc" ->
     (GetUserIDByResetToken other (at_time 4599 s1)).1
     = (GetUserIDByResetToken other (at_time 4599 s)).1).
Proof.
  cbv zeta.
  apply (reset_token_lifetime (redis.mkServer ∅ 1000 []) "abc" 7 4599).
  - reflexivity.
  - reflexivity.
Defined.

(** ** Verification codes *)

Lemma codeKey_userKey (userID : N) (code : string) :
  getEmailVerificationCodeKey userID <> getEmailVerificationUserKey code.
Proof. revert userID code. keys_apart. Qed.

Lemma codeKey_inj (a b : N) :
  getEmailVerificationCodeKey a = getEmailVerificationCodeKey b -> a = b.
Proof. intros H. eapply FormatUint_inj, append_inj_l, H. Qed.

Lemma userKey_inj (a b : string) :
  getEmailVerificationUserKey a = getEmailVerificationUserKey b -> a = b.
Proof. apply append_inj_l. Qed.

Lemma answering_mk d t : answering (redis.mkServer d t []).
Proof. reflexivity. Qed.

Lemma StoreEmailVerificationCode_answering userID code s :
  answering s ->
  StoreEmailVerificationCode userID code s
  = (None,
     redis.mkServer
       (<[getEmailVerificationUserKey code :=
            redis.mkEntry (strconv_FormatUint userID)
                          (Some (redis.clock s + EmailVerificationCodeTTL))]>
          (<[getEmailVerificationCodeKey userID :=
               redis.mkEntry code (Some (redis.clock s + EmailVerificationCodeTTL))]>
             (redis.db s)))
       (redis.clock s) []).
Proof.
  intros Ha. unfold StoreEmailVerificationCode.
  rewrite R_bind_run, (Set_answering _ _ _ s Ha).
  rewrite Set_answering by apply answering_mk. reflexivity.
Qed.

Lemma DeleteEmailVerificationCode_answering userID s :
  answering s ->
  DeleteEmailVerificationCode userID s
  = match redis.live s (getEmailVerificationCodeKey userID) with
    | Some e =>
        if String.eqb (redis.value e) "" then (None, s)
        else (None,
              redis.mkServer
                (delete (getEmailVerificationUserKey (redis.value e))
                        (delete (getEmailVerificationCodeKey userID) (redis.db s)))
                (redis.clock s) [])
    | None => (None, s)
    end.
Proof.
  intros Ha. unfold DeleteEmailVerificationCode, GetEmailVerificationCode.
  rewrite R_bind_run, (string_lookup _ s Ha).
  destruct (redis.live s (getEmailVerificationCodeKey userID)) as [e|]; [|reflexivity].
  destruct (String.eqb (redis.value e) ""); [reflexivity|].
  rewrite R_bind_run, (Del_answering _ s Ha).
  rewrite Del_answering by apply answering_mk. reflexivity.
Qed.

(** X15: a verification code that was stored while Redis answered can be
    looked up in both directions, the code by the user ID and the user ID
    by the code, until 24 hours after the store; from then on both
    lookups give the empty answer (the empty string, the ID 0) without
    error.  [DeleteEmailVerificationCode] removes both directions
    together. *)
Theorem verification_code_lifetime (s : redis.Server) (userID : N) (code : string)
        (t : Z) :
  (userID < 2 ^ 64)%N ->
  answering s ->
  let s1 := (StoreEmailVerificationCode userID code s).2 in
  (StoreEmailVerificationCode userID code s).1 = None /\
  (GetEmailVerificationCode userID (at_time t s1)).1
  = (if t <? redis.clock s + 86400 then code else "", None) /\
  (GetUserIDByVerificationCode code (at_time t s1)).1
  = (if t <? redis.clock s + 86400 then userID else 0%N, None) /\
  (code <> "" -> t < redis.clock s + 86400 ->
   let s2 := (DeleteEmailVerificationCode userID (at_time t s1)).2 in
   (DeleteEmailVerificationCode userID (at_time t s1)).1 = None /\
   (GetEmailVerificationCode userID s2).1 = ("", None) /\
   (GetUserIDByVerificationCode code s2).1 = (0%N, None)).
Proof.
  intros Hid Ha s1. subst s1.
  rewrite (StoreEmailVerificationCode_answering userID code s Ha).
  cbn [fst snd]. unfold at_time. cbn [redis.db redis.tape].
  change EmailVerificationCodeTTL with 86400.
  split; [reflexivity|].
  unfold GetEmailVerificationCode, GetUserIDByVerificationCode.
  split; [|split].
  - rewrite string_lookup by apply answering_mk. cbn [fst].
    rewrite live_insert, decide_False by (apply not_eq_sym, codeKey_userKey).
    rewrite live_insert, decide_True by reflexivity. cbn [redis.expireAt].
    destruct (t <? redis.clock s + 86400); reflexivity.
  - rewrite userID_lookup by apply answering_mk. cbn [fst].
    rewrite live_insert, decide_True by reflexivity. cbn [redis.expireAt].
    destruct (t <? redis.clock s + 86400); [|reflexivity].
    unfold userIDReply. cbn [redis.value]. rewrite ParseUint_FormatUint by exact Hid.
    reflexivity.
  - intros Hcode Ht. cbv zeta.
    rewrite DeleteEmailVerificationCode_answering by apply answering_mk.
    rewrite live_insert, decide_False by (apply not_eq_sym, codeKey_userKey).
    rewrite live_insert, decide_True by reflexivity. cbn [redis.expireAt].
    apply Z.ltb_lt in Ht. rewrite Ht. cbn [redis.value].
    apply String.eqb_neq in Hcode. rewrite Hcode. cbn [fst snd redis.db redis.clock].
    split; [reflexivity|]. split.
    + rewrite string_lookup by apply answering_mk. cbn [fst].
      rewrite live_delete, decide_False by (apply not_eq_sym, codeKey_userKey).
      rewrite live_delete, decide_True by reflexivity. reflexivity.
    + rewrite userID_lookup by apply answering_mk. cbn [fst].
      rewrite live_delete, decide_True by reflexivity. reflexivity.
Qed.

Lemma verification_code_lifetime_witness :
  let s := redis.mkServer ∅ 0 [] in
  let s1 := (StoreEmailVerificationCode 7 "123456" s).2 in
  (StoreEmailVerificationCode 7 "123456" s).1 = None /\
  (GetEmailVerificationCode 7 (at_time 86399 s1)).1
  = (if 86399 <? redis.clock s + 86400 then "123456" else "", None) /\
  (GetUserIDByVerificationCode "123456" (at_time 86399 s1)).1
  = (if 86399 <? redis.clock s + 86400 then 7%N else 0%N, None) /\
  ("123456" <> "" -> 86399 < redis.clock s + 86400 ->
   let s2 := (DeleteEmailVerificationCode 7 (at_time 86399 s1)).2 in
   (DeleteEmailVerificationCode 7 (at_time 86399 s1)).1 = None /\
   (GetEmailVerificationCode 7 s2).1 = ("", None) /\
   (GetUserIDByVerificationCode "123456" s2).1 = (0%N, None)).
Proof.
  cbv zeta.
  apply (verification_code_lifetime (redis.mkServer ∅ 0 []) 7 "123456" 86399).
  - reflexivity.
  - reflexivity.
Defined.

Lemma StoreEmailVerificationCode_half userID code d c :
  StoreEmailVerificationCode userID code (redis.mkServer d c [true; false])
  = (Some redis.ConnError,
     redis.mkServer
       (<[getEmailVerificationCodeKey userID :=
            redis.mkEntry code (Some (c + EmailVerificationCodeTTL))]> d) c []).
Proof. reflexivity. Qed.

(** X16: the two directions of a verification code are separate entries
    and each store overwrites only its own two.  When a user gets a
    second code, the first code still leads to the user, also after
    [DeleteEmailVerificationCode]; when two users get the same code, the
    code leads to the user who got it last while the first user still
    holds it; and when the second write of [StoreEmailVerificationCode]
    fails, the function reports the error but the user already holds the
    code, which leads to nobody. *)
Theorem verification_code_overwrite (s : redis.Server) (userID other : N)
        (code1 code2 : string) :
  (userID < 2 ^ 64)%N -> (other < 2 ^ 64)%N ->
  answering s ->
  code1 <> code2 -> code2 <> "" -> userID <> other ->
  let again := (StoreEmailVerificationCode userID code2
                  (StoreEmailVerificationCode userID code1 s).2).2 in
  let shared := (StoreEmailVerificationCode other code1
                   (StoreEmailVerificationCode userID code1 s).2).2 in
  let half := StoreEmailVerificationCode userID code1
                (redis.mkServer (redis.db s) (redis.clock s) [true; false]) in
  ((GetEmailVerificationCode userID again).1 = (code2, None) /\
   (GetUserIDByVerificationCode code1 again).1 = (userID, None) /\
   (GetUserIDByVerificationCode code1
      (DeleteEmailVerificationCode userID again).2).1 = (userID, None)) /\
  ((GetEmailVerificationCode userID shared).1 = (code1, None) /\
   (GetUserIDByVerificationCode code1 shared).1 = (other, None)) /\
  (half.1 = Some redis.ConnError /\
   (GetEmailVerificationCode userID half.2).1 = (code1, None) /\
   (GetUserIDByVerificationCode code1 half.2).1
   = (GetUserIDByVerificationCode code1 s).1).
Proof.
  intros Hid Hother Ha Hcodes Hcode2 Husers again shared half.
  subst again shared half.
  assert (Halive : forall c : Z, (c <? c + EmailVerificationCodeTTL) = true).
  { intros c. apply Z.ltb_lt. unfold EmailVerificationCodeTTL, Hour. lia. }
  assert (Hck : forall a b, a <> b ->
             getEmailVerificationCodeKey a <> getEmailVerificationCodeKey b).
  { intros a b Hab Hk. apply Hab, codeKey_inj, Hk. }
  assert (Huk : forall a b, a <> b ->
             getEmailVerificationUserKey a <> getEmailVerificationUserKey b).
  { intros a b Hab Hk. apply Hab, userKey_inj, Hk. }
  rewrite (StoreEmailVerificationCode_answering userID code1 s Ha). cbn [snd].
  rewrite !StoreEmailVerificationCode_answering by apply answering_mk.
  cbn [fst snd redis.db redis.clock].
  unfold GetEmailVerificationCode, GetUserIDByVerificationCode.
  split; [|split].
  - split; [|split].
    + rewrite string_lookup by apply answering_mk. cbn [fst].
      rewrite live_insert, decide_False by (apply not_eq_sym, codeKey_userKey).
      rewrite live_insert, decide_True by reflexivity. cbn [redis.expireAt].
      rewrite Halive. reflexivity.
    + rewrite userID_lookup by apply answering_mk. cbn [fst].
      rewrite live_insert, decide_False by (apply Huk; congruence).
      rewrite live_insert, decide_False by apply codeKey_userKey.
      rewrite live_insert, decide_True by reflexivity. cbn [redis.expireAt].
      rewrite Halive. unfold userIDReply. cbn [redis.value].
      rewrite ParseUint_FormatUint by exact Hid. reflexivity.
    + rewrite DeleteEmailVerificationCode_answering by apply answering_mk.
      rewrite live_insert, decide_False by (apply not_eq_sym, codeKey_userKey).
      rewrite live_insert, decide_True by reflexivity. cbn [redis.expireAt].
      rewrite Halive. cbn [redis.value].
      apply String.eqb_neq in Hcode2. rewrite Hcode2. cbn [snd redis.db redis.clock].
      rewrite userID_lookup by apply answering_mk. cbn [fst].
      rewrite live_delete, decide_False by (apply Huk; congruence).
      rewrite live_delete, decide_False by apply codeKey_userKey.
      rewrite live_insert, decide_False by (apply Huk; congruence).
      rewrite live_insert, decide_False by apply codeKey_userKey.
      rewrite live_insert, decide_True by reflexivity. cbn [redis.expireAt].
      rewrite Halive. unfold userIDReply. cbn [redis.value].
      rewrite ParseUint_FormatUint by exact Hid. reflexivity.
  - split.
    + rewrite string_lookup by apply answering_mk. cbn [fst].
      rewrite live_insert, decide_False by (apply not_eq_sym, codeKey_userKey).
      rewrite live_insert, decide_False by (apply Hck; congruence).
      rewrite live_insert, decide_False by (apply not_eq_sym, codeKey_userKey).
      rewrite live_insert, decide_True by reflexivity. cbn [redis.expireAt].
      rewrite Halive. reflexivity.
    + rewrite userID_lookup by apply answering_mk. cbn [fst].
      rewrite live_insert, decide_True by reflexivity. cbn [redis.expireAt].
      rewrite Halive. unfold userIDReply. cbn [redis.value].
      rewrite ParseUint_FormatUint by exact Hother. reflexivity.
  - rewrite StoreEmailVerificationCode_half. cbn [fst snd].
    split; [reflexivity|]. split.
    + rewrite string_lookup by apply answering_mk. cbn [fst].
      rewrite live_insert, decide_True by reflexivity. cbn [redis.expireAt].
      rewrite Halive. reflexivity.
    + rewrite !userID_lookup; [|exact Ha|apply answering_mk]. cbn [fst].
      rewrite live_insert, decide_False by apply codeKey_userKey.
      unfold redis.live. cbn [redis.db redis.clock]. reflexivity.
Qed.

Lemma verification_code_overwrite_witness :
  (GetUserIDByVerificationCode "111111"
     (DeleteEmailVerificationCode 7
        (StoreEmailVerificationCode 7 "222222"
           (StoreEmailVerificationCode 7 "111111" (redis.mkServer ∅ 0 [])).2).2).2).1
  = (7%N, None).
Proof.
  pose proof (verification_code_overwrite (redis.mkServer ∅ 0 []) 7 8
                "111111" "222222" eq_refl eq_refl eq_refl
                ltac:(discriminate) ltac:(discriminate) ltac:(discriminate)) as H.
  cbv zeta in H. destruct H as [(_ & _ & H) _]. exact H.
Defined.

(** ** The attempt counter *)

Lemma to_int_nonnil (n : Z) :
  Z.to_int n <> Decimal.Pos Decimal.Nil /\ Z.to_int n <> Decimal.Neg Decimal.Nil.
Proof.
  destruct n as [|p|p]; simpl; split; try discriminate;
    intros H; inversion H as [H']; exact (DecimalPos.Unsigned.to_uint_nonnil p H').
Qed.

Lemma int_of_string_fmt_d (n : Z) :
  option_map Z.of_int (NilZero.int_of_string (fmt_d n)) = Some n.
Proof.
  unfold fmt_d. destruct (to_int_nonnil n) as [H1 H2].
  rewrite NilZero.isi by assumption. simpl. rewrite DecimalZ.of_to. reflexivity.
Qed.

Lemma integer_fmt_d (n : Z) :
  - 2 ^ 63 <= n < 2 ^ 63 -> redis.integer (fmt_d n) = Some n.
Proof.
  intros Hn. unfold redis.integer. rewrite int_of_string_fmt_d.
  fold (fmt_d n). rewrite String.eqb_refl.
  destruct (Z.leb_spec (- 2 ^ 63) n); [|lia].
  destruct (Z.ltb_spec n (2 ^ 63)); [|lia]. reflexivity.
Qed.

Lemma fmt_d_head (n : Z) :
  0 <= n -> exists c rest, fmt_d n = String c rest /\ c <> "+"%char.
Proof.
  intros Hn. unfold fmt_d. destruct n as [|p|p]; [| |lia].
  - exists "0"%char, "". split; [reflexivity | discriminate].
  - simpl. pose proof (DecimalPos.Unsigned.to_uint_nonnil p) as Hnil.
    destruct (Pos.to_uint p); [contradiction | ..]; simpl;
      eexists; eexists; (split; [reflexivity | discriminate]).
Qed.

Lemma Atoi_fmt_d (n : Z) : 0 <= n < 2 ^ 63 -> strconv_Atoi (fmt_d n) = Some n.
Proof.
  intros Hn. unfold strconv_Atoi.
  destruct (fmt_d_head n) as (c & rest & Hs & Hc); [lia|].
  pose proof (int_of_string_fmt_d n) as Hp. rewrite Hs in *.
  apply Ascii.eqb_neq in Hc. rewrite Hc, Hp.
  destruct (Z.leb_spec (- 2 ^ 63) n); [|lia].
  destruct (Z.ltb_spec n (2 ^ 63)); [|lia]. reflexivity.
Qed.

(** One attempt: the counter of a user is absent or expired, or it is
    alive at [n]. *)
Lemma Track_first userID s t :
  answering s ->
  redis.live (at_time t s) (getVerificationAttemptsKey userID) = None ->
  exists d,
    (TrackVerificationAttempt userID (at_time t s)) = (None, redis.mkServer d t []) /\
    d !! getVerificationAttemptsKey userID = Some (redis.mkEntry (fmt_d 1) (Some (t + 3600))).
Proof.
  intros Ha Hl. unfold TrackVerificationAttempt, redis.IncrExpire.
  assert (Hrt : redis.roundTrip (at_time t s) = (true, redis.mkServer (redis.db s) t []))
    by (unfold redis.roundTrip, at_time; cbn; rewrite Ha; reflexivity).
  rewrite Hrt. cbn iota.
  unfold at_time in Hl. rewrite Ha in Hl. unfold redis.incr. rewrite Hl.
  cbn [redis.clock redis.tape]. unfold redis.expire.
  rewrite live_insert, decide_True by reflexivity. cbn [redis.expireAt redis.value].
  eexists. split; [reflexivity|]. cbn [redis.db redis.clock].
  rewrite lookup_insert_eq. reflexivity.
Qed.

Lemma Track_next userID s t n prev :
  answering s ->
  redis.db s !! getVerificationAttemptsKey userID
  = Some (redis.mkEntry (fmt_d n) (Some (prev + 3600))) ->
  t < prev + 3600 -> 0 <= n -> n + 1 < 2 ^ 63 ->
  exists d,
    (TrackVerificationAttempt userID (at_time t s)) = (None, redis.mkServer d t []) /\
    d !! getVerificationAttemptsKey userID
    = Some (redis.mkEntry (fmt_d (n + 1)) (Some (t + 3600))).
Proof.
  intros Ha He Ht Hn Hmax. unfold TrackVerificationAttempt, redis.IncrExpire.
  assert (Hrt : redis.roundTrip (at_time t s) = (true, redis.mkServer (redis.db s) t []))
    by (unfold redis.roundTrip, at_time; cbn; rewrite Ha; reflexivity).
  rewrite Hrt. cbn iota.
  assert (Hl : redis.live (redis.mkServer (redis.db s) t [])
                          (getVerificationAttemptsKey userID)
               = Some (redis.mkEntry (fmt_d n) (Some (prev + 3600)))).
  { unfold redis.live. cbn [redis.db redis.clock]. rewrite He. cbn [redis.expireAt].
    apply Z.ltb_lt in Ht. rewrite Ht. reflexivity. }
  unfold redis.incr. rewrite Hl. cbn [redis.value redis.expireAt].
  rewrite integer_fmt_d by lia.
  destruct (Z.ltb_spec n (2 ^ 63 - 1)); [|lia].
  cbn [redis.clock redis.tape redis.db]. unfold redis.expire.
  rewrite live_insert, decide_True by reflexivity. cbn [redis.expireAt redis.value].
  apply Z.ltb_lt in Ht. rewrite Ht.
  eexists. split; [reflexivity|]. cbn [redis.db redis.clock].
  rewrite lookup_insert_eq. reflexivity.
Qed.

Lemma last_cons (l : list Z) : forall x a, List.last (x :: l) a = List.last l x.
Proof.
  induction l as [|y l IH]; intros x a; [reflexivity|].
  change (List.last (x :: y :: l) a) with (List.last (y :: l) a).
  rewrite (IH y a), (IH y x). reflexivity.
Qed.

Lemma attemptsAt_chain userID times : forall s n prev,
  answering s ->
  redis.db s !! getVerificationAttemptsKey userID
  = Some (redis.mkEntry (fmt_d n) (Some (prev + 3600))) ->
  withinAnHour prev times -> 0 <= n -> n + Z.of_nat (length times) < 2 ^ 63 ->
  exists d,
    attemptsAt userID times s = redis.mkServer d (List.last times (redis.clock s)) [] /\
    d !! getVerificationAttemptsKey userID
    = Some (redis.mkEntry (fmt_d (n + Z.of_nat (length times)))
                          (Some (List.last times prev + 3600))).
Proof.
  induction times as [|t rest IH]; intros s n prev Ha He Hch Hn Hmax.
  - exists (redis.db s). simpl. rewrite Z.add_0_r. split; [|exact He].
    destruct s as [d c tp]. unfold answering in Ha. simpl in *. subst tp. reflexivity.
  - destruct Hch as [[Hle Hlt] Hch]. cbn [length] in Hmax.
    destruct (Track_next userID s t n prev Ha He Hlt Hn) as (d1 & Hrun & Hd1); [lia|].
    cbn [attemptsAt]. rewrite Hrun. cbn [snd].
    destruct (IH (redis.mkServer d1 t []) (n + 1) t) as (d & Hall & Hd);
      [reflexivity | exact Hd1 | exact Hch | lia | lia |].
    exists d. split.
    + rewrite Hall. cbn [redis.clock]. rewrite last_cons. reflexivity.
    + rewrite Hd, last_cons. cbn [length].
      replace (n + Z.of_nat (S (length rest))) with (n + 1 + Z.of_nat (length rest))
        by lia.
      reflexivity.
Qed.

(** X17: the attempt counter of a user counts the attempts of a row in
    which each comes less than an hour after the one before, and every
    attempt moves its expiry to one hour after that attempt.  So after
    such a row, started when the counter was absent or expired,
    [IsVerificationRateLimited] answers true exactly when the row has at
    least five attempts, until one hour after the last of them, and false
    from then on. *)
Theorem rate_limit_window (s : redis.Server) (userID : N) (first : Z)
        (rest : list Z) (t : Z) :
  answering s ->
  redis.live (at_time first s) (getVerificationAttemptsKey userID) = None ->
  withinAnHour first rest ->
  Z.of_nat (S (length rest)) < 2 ^ 63 ->
  let s' := attemptsAt userID (first :: rest) s in
  answering s' /\
  (IsVerificationRateLimited userID (at_time t s')).1
  = (if t <? List.last rest first + 3600
     then 5 <=? Z.of_nat (S (length rest)) else false, None).
Proof.
  intros Ha Hl Hch Hmax s'. subst s'. cbn [attemptsAt].
  destruct (Track_first userID s first Ha Hl) as (d1 & Hrun & Hd1).
  rewrite Hrun. cbn [snd].
  destruct (attemptsAt_chain userID rest (redis.mkServer d1 first []) 1 first)
    as (d & Hall & Hd); [reflexivity | exact Hd1 | exact Hch | lia | lia |].
  rewrite Hall. split; [reflexivity|].
  unfold IsVerificationRateLimited, at_time. cbn [redis.db redis.tape].
  rewrite R_bind_run, Get_answering by reflexivity.
  unfold redis.live. cbn [redis.db redis.clock]. rewrite Hd. cbn [redis.expireAt].
  destruct (t <? List.last rest first + 3600); [|reflexivity].
  cbn [redis.value]. rewrite Atoi_fmt_d by lia.
  unfold maxAttempts. cbn [fst].
  replace (1 + Z.of_nat (length rest)) with (Z.of_nat (S (length rest))) by lia.
  reflexivity.
Qed.

Lemma rate_limit_window_witness :
  let s := redis.mkServer ∅ 0 [] in
  let s' := attemptsAt 7 [0; 10; 20; 30; 3500] s in
  answering s' /\
  (IsVerificationRateLimited 7 (at_time 7000 s')).1
  = (if 7000 <? List.last [10; 20; 30; 3500] 0 + 3600
     then 5 <=? Z.of_nat (S (length [10; 20; 30; 3500])) else false, None).
Proof.
  cbv zeta.
  apply (rate_limit_window (redis.mkServer ∅ 0 []) 7 0 [10; 20; 30; 3500] 7000).
  - reflexivity.
  - reflexivity.
  - cbn. lia.
  - cbn. lia.
Defined.

(** ** The service: verification and password reset *)

Lemma Get_db key s : redis.db (redis.Get key s).2 = redis.db s.
Proof.
  unfold redis.Get, redis.roundTrip. destruct (redis.tape s) as [|[] tp]; reflexivity.
Qed.

Lemma Del_db key s k :
  k <> key -> redis.db (redis.Del key s).2 !! k = redis.db s !! k.
Proof.
  intros Hk. unfold redis.Del, redis.roundTrip.
  destruct (redis.tape s) as [|[] tp]; cbn [snd redis.db]; try reflexivity;
    apply lookup_delete_ne; congruence.
Qed.

Lemma GetUserIDByVerificationCode_db code s :
  redis.db (GetUserIDByVerificationCode code s).2 = redis.db s.
Proof.
  unfold GetUserIDByVerificationCode. rewrite R_bind_run.
  pose proof (Get_db (getEmailVerificationUserKey code) s) as H.
  destruct (redis.Get (getEmailVerificationUserKey code) s) as [r s1]. exact H.
Qed.

Lemma GetUserIDByResetToken_db token s :
  redis.db (GetUserIDByResetToken token s).2 = redis.db s.
Proof.
  unfold GetUserIDByResetToken. rewrite R_bind_run.
  pose proof (Get_db (getResetTokenKey token) s) as H.
  destruct (redis.Get (getResetTokenKey token) s) as [r s1]. exact H.
Qed.

Lemma attempts_codeKey (a b : N) :
  getVerificationAttemptsKey a <> getEmailVerificationCodeKey b.
Proof. revert a b. keys_apart. Qed.

Lemma attempts_userKey (a : N) (c : string) :
  getVerificationAttemptsKey a <> getEmailVerificationUserKey c.
Proof. revert a c. keys_apart. Qed.

Lemma IsVerificationRateLimited_db userID s :
  redis.db (IsVerificationRateLimited userID s).2 = redis.db s.
Proof.
  unfold IsVerificationRateLimited. rewrite R_bind_run.
  pose proof (Get_db (getVerificationAttemptsKey userID) s) as H.
  destruct (redis.Get (getVerificationAttemptsKey userID) s) as [r s1]. exact H.
Qed.

Lemma DeleteEmailVerificationCode_attempts userID s uid :
  attemptCounter (DeleteEmailVerificationCode userID s).2 uid = attemptCounter s uid.
Proof.
  unfold attemptCounter, DeleteEmailVerificationCode, GetEmailVerificationCode.
  rewrite !R_bind_run.
  pose proof (Get_db (getEmailVerificationCodeKey userID) s) as H.
  destruct (redis.Get (getEmailVerificationCodeKey userID) s) as [r s1].
  cbn [snd] in H. unfold mret, R_ret.
  destruct (stringReply r) as [code [e|]]; cbn [snd]; [rewrite H; reflexivity|].
  destruct (String.eqb code ""); cbn [snd]; [rewrite H; reflexivity|].
  rewrite R_bind_run.
  pose proof (Del_db (getEmailVerificationCodeKey userID) s1
                (getVerificationAttemptsKey uid) (attempts_codeKey uid userID)) as H1.
  destruct (redis.Del (getEmailVerificationCodeKey userID) s1) as [[e|] s2];
    cbn [snd] in *; [rewrite H1, H; reflexivity|].
  rewrite Del_db by apply attempts_userKey. rewrite H1, H. reflexivity.
Qed.

Lemma Svc_bind_run {B : Backing} {A C : Type} (m : Svc B A) (f : A -> Svc B C)
      (b : Backend B) :
  (m ≫= f) b = let '(a, b') := m b in f a b'.
Proof. reflexivity. Qed.

Ltac counters_kept :=
  cbn [fst snd cache database]; unfold attemptCounter; congruence.

(** The course of [VerifyEmail], call by call. *)
Lemma VerifyEmail_run (B : Backing) (code : string) (b : Backend B) :
  VerifyEmail B code b =
  let '((userID, err), c1) := GetUserIDByVerificationCode code (cache B b) in
  match err with
  | Some e => ((("", "", None), Some (CacheError B e)), mkBackend B c1 (database B b))
  | None =>
      if (userID =? 0)%N
      then ((("", "", None),
             Some (Coded B CodeInvalidVerificationCode "Invalid verification code")),
            mkBackend B c1 (database B b))
      else
        let '((isLimited, err), c2) := IsVerificationRateLimited userID c1 in
        if match err with Some _ => false | None => isLimited end
        then ((("", "", None),
               Some (Coded B CodeTooManyRequests
                       "Too many verification attempts. Please try again later.")),
              mkBackend B c2 (database B b))
        else
          match repo_GetUserByID B userID (database B b) with
          | inl e =>
              ((("", "", None), Some (Other B e)),
               mkBackend B (TrackVerificationAttempt userID c2).2 (database B b))
          | inr user =>
              if account.IsVerified user
              then ((("", "", None),
                     Some (Coded B CodeInvalidRequest "Email already verified")),
                    mkBackend B c2 (database B b))
              else
                let user := account.verified user in
                let c3 := (DeleteEmailVerificationCode (account.ID user) c2).2 in
                let '(err, d) := repo_SaveUser B user (database B b) in
                match err with
                | Some e => ((("", "", None), Some (Other B e)), mkBackend B c3 d)
                | None =>
                    match jwt_GenerateAccessToken B (account.ID user)
                                                  (account.Username user) with
                    | inl e => ((("", "", None), Some (Other B e)), mkBackend B c3 d)
                    | inr accessToken =>
                        match jwt_GenerateRefreshToken B (account.ID user)
                                (account.RefreshTokenVersion user)
                                (account.Username user) with
                        | inl e =>
                            ((("", "", None), Some (Other B e)), mkBackend B c3 d)
                        | inr refreshToken =>
                            (((accessToken, refreshToken, Some user), None),
                             mkBackend B c3 d)
                        end
                    end
                end
          end
  end.
Proof.
  unfold VerifyEmail, inCache, GetUserByID, SaveUser, refused, mbind, Svc_bind,
    mret, Svc_ret.
  destruct (GetUserIDByVerificationCode code (cache B b)) as [[uid [e|]] c1];
    [reflexivity|].
  destruct (uid =? 0)%N; [reflexivity|]. cbn [cache database].
  destruct (IsVerificationRateLimited uid c1) as [[lim err] c2].
  destruct (match err with Some _ => false | None => lim end); [reflexivity|].
  cbn [cache database].
  destruct (repo_GetUserByID B uid (database B b)) as [e|user].
  { cbn [cache database].
    destruct (TrackVerificationAttempt uid c2) as [x c3]. reflexivity. }
  destruct (account.IsVerified user); [reflexivity|]. cbn [cache database].
  destruct (DeleteEmailVerificationCode (account.ID (account.verified user)) c2)
    as [x c3]. cbn [cache database snd].
  destruct (repo_SaveUser B (account.verified user) (database B b)) as [[e|] d];
    [reflexivity|].
  destruct (jwt_GenerateAccessToken B _ _); [reflexivity|].
  destruct (jwt_GenerateRefreshToken B _ _ _); reflexivity.
Qed.

(** X18: [VerifyEmail] counts an attempt in one case only: the code leads
    to a user ID and the user repository fails to load that user.  In
    every other run the attempt counters are left as they were; while
    Redis answers, a code that leads to no user is refused as invalid and
    changes nothing at all, in Redis or in the database, so wrong guesses
    are not counted.
    When the call succeeds the user it returns is the loaded user marked
    as verified, that user was not verified before and has been saved. *)
Theorem VerifyEmail_attempts (B : Backing) (code : string) (b : Backend B) :
  let r := VerifyEmail B code b in
  ((exists id e,
       repo_GetUserByID B id (database B b) = inl e /\
       r.1 = (("", "", None), Some (Other B e))) \/
   (forall uid, attemptCounter (cache B r.2) uid = attemptCounter (cache B b) uid)) /\
  (answering (cache B b) ->
   redis.live (cache B b) (getEmailVerificationUserKey code) = None ->
   r = ((("", "", None),
         Some (Coded B CodeInvalidVerificationCode "Invalid verification code")), b)) /\
  (forall v, r.1 = (v, None) ->
     exists id access refresh before,
       repo_GetUserByID B id (database B b) = inr before /\
       account.IsVerified before = false /\
       v = (access, refresh, Some (account.verified before)) /\
       repo_SaveUser B (account.verified before) (database B b)
       = (None, database B r.2)).
Proof.
  cbv zeta. rewrite VerifyEmail_run. split; [|split].
  - pose proof (GetUserIDByVerificationCode_db code (cache B b)) as H1.
    destruct (GetUserIDByVerificationCode code (cache B b)) as [[uid [e|]] c1];
      cbn [snd] in H1.
    { right. intros u. counters_kept. }
    destruct (uid =? 0)%N.
    { right. intros u. counters_kept. }
    pose proof (IsVerificationRateLimited_db uid c1) as H2.
    destruct (IsVerificationRateLimited uid c1) as [[lim err] c2]; cbn [snd] in H2.
    destruct (match err with Some _ => false | None => lim end).
    { right. intros u. counters_kept. }
    destruct (repo_GetUserByID B uid (database B b)) as [e|user] eqn:Hload.
    { left. exists uid, e. split; [exact Hload | reflexivity]. }
    right. intros u. destruct (account.IsVerified user); [counters_kept|].
    cbv zeta.
    pose proof (DeleteEmailVerificationCode_attempts
                  (account.ID (account.verified user)) c2 u) as H3.
    unfold attemptCounter in H3.
    destruct (repo_SaveUser B (account.verified user) (database B b)) as [[e|] d];
      [counters_kept|].
    destruct (jwt_GenerateAccessToken B _ _); [counters_kept|].
    destruct (jwt_GenerateRefreshToken B _ _ _); counters_kept.
  - intros Ha Hl. unfold GetUserIDByVerificationCode.
    rewrite (userID_lookup _ _ Ha), Hl. cbn [fst snd]. rewrite N.eqb_refl.
    destruct b; reflexivity.
  - intros v.
    destruct (GetUserIDByVerificationCode code (cache B b)) as [[uid [e|]] c1];
      [discriminate|].
    destruct (uid =? 0)%N; [discriminate|].
    destruct (IsVerificationRateLimited uid c1) as [[lim err] c2].
    destruct (match err with Some _ => false | None => lim end); [discriminate|].
    destruct (repo_GetUserByID B uid (database B b)) as [e|user] eqn:Hload;
      [discriminate|].
    destruct (account.IsVerified user) eqn:Hv; [discriminate|]. cbv zeta.
    destruct (repo_SaveUser B (account.verified user) (database B b)) as [[e|] d] eqn:Hs;
      [discriminate|].
    destruct (jwt_GenerateAccessToken B _ _) as [e|access]; [discriminate|].
    destruct (jwt_GenerateRefreshToken B _ _ _) as [e|refresh]; [discriminate|].
    cbn [fst snd database]. intros Hr. inversion Hr; subst v.
    exists uid, access, refresh, user. auto.
Qed.

(** The course of [ResetPassword], call by call. *)
Lemma ResetPassword_run (B : Backing) (token : string) (hashed : option string)
      (b : Backend B) :
  ResetPassword B token hashed b =
  let '((userID, err), c1) := GetUserIDByResetToken token (cache B b) in
  match err with
  | Some _ =>
      (Some (Coded B CodeInternalError "Failed to process password reset"),
       mkBackend B c1 (database B b))
  | None =>
      if (userID =? 0)%N
      then (Some (Coded B CodeInvalidRequest "Invalid or expired reset token"),
            mkBackend B c1 (database B b))
      else
        match repo_GetUserByID B userID (database B b) with
        | inl e => (Some (Other B e), mkBackend B c1 (database B b))
        | inr user =>
            match hashed with
            | None =>
                (Some (Coded B CodeInternalError "Failed to reset password"),
                 mkBackend B c1 (database B b))
            | Some hashPassword =>
                let '(err, d) :=
                  repo_SaveUser B (account.rehashed hashPassword user) (database B b) in
                match err with
                | Some e => (Some (Other B e), mkBackend B c1 d)
                | None => (None, mkBackend B (DeleteResetToken token c1).2 d)
                end
            end
        end
  end.
Proof.
  unfold ResetPassword, inCache, GetUserByID, SaveUser, mbind, Svc_bind, mret, Svc_ret.
  destruct (GetUserIDByResetToken token (cache B b)) as [[uid [e|]] c1];
    [reflexivity|].
  destruct (uid =? 0)%N; [reflexivity|]. cbn [cache database].
  destruct (repo_GetUserByID B uid (database B b)) as [e|user]; [reflexivity|].
  destruct hashed as [h|]; [|reflexivity]. cbn [cache database].
  destruct (repo_SaveUser B (account.rehashed h user) (database B b)) as [[e|] d];
    [reflexivity|].
  cbn [cache database]. destruct (DeleteResetToken token c1) as [x c2]. reflexivity.
Qed.

(** X19: while Redis answers, [ResetPassword] refuses a token that leads
    to no user as invalid and changes nothing.  When it succeeds, the user the token leads to
    has been saved with the new hash and the next token version.  The
    token is deleted only after that and the outcome of the deletion is
    not looked at: when Redis answers, the token leads to nobody
    afterwards (it can be used once); when the deletion fails, the call
    still succeeds and the token entry is what it was, so the same token
    resets the password again until it expires. *)
Theorem ResetPassword_token (B : Backing) (token : string) (hashed : option string)
        (b : Backend B) :
  let r := ResetPassword B token hashed b in
  (answering (cache B b) ->
   redis.live (cache B b) (getResetTokenKey token) = None ->
   r = (Some (Coded B CodeInvalidRequest "Invalid or expired reset token"), b)) /\
  (r.1 = None ->
   exists userID user hashPassword,
     hashed = Some hashPassword /\
     (GetUserIDByResetToken token (cache B b)).1 = (userID, None) /\ userID <> 0%N /\
     repo_GetUserByID B userID (database B b) = inr user /\
     repo_SaveUser B (account.rehashed hashPassword user) (database B b)
     = (None, database B r.2)) /\
  (r.1 = None -> answering (cache B b) ->
   (GetUserIDByResetToken token (cache B r.2)).1 = (0%N, None)) /\
  (r.1 = None -> forall rest,
   redis.tape (cache B b) = true :: false :: rest ->
   cache B r.2 = redis.mkServer (redis.db (cache B b)) (redis.clock (cache B b)) rest).
Proof.
  cbv zeta. rewrite ResetPassword_run. split; [|split; [|split]].
  - intros Ha Hl. unfold GetUserIDByResetToken.
    rewrite (userID_lookup _ _ Ha), Hl. cbn [fst snd]. rewrite N.eqb_refl.
    destruct b; reflexivity.
  - destruct (GetUserIDByResetToken token (cache B b)) as [[uid [e|]] c1];
      [discriminate|].
    destruct (N.eqb_spec uid 0); [discriminate|].
    destruct (repo_GetUserByID B uid (database B b)) as [e|user] eqn:Hload;
      [discriminate|].
    destruct hashed as [h|]; [|discriminate].
    destruct (repo_SaveUser B (account.rehashed h user) (database B b)) as [[e|] d] eqn:Hs;
      [discriminate|].
    intros _. exists uid, user, h. cbn [fst snd database]. repeat split; assumption.
  - intros Hr Ha. revert Hr.
    assert (Hget : GetUserIDByResetToken token (cache B b)
                   = (match redis.live (cache B b) (getResetTokenKey token) with
                      | Some e => userIDReply (redis.Value (redis.value e))
                      | None => (0%N, None)
                      end, cache B b))
      by (apply userID_lookup, Ha).
    rewrite Hget. clear Hget.
    destruct (redis.live (cache B b) (getResetTokenKey token)) as [en|];
      [|cbn [fst snd]; rewrite N.eqb_refl; discriminate].
    destruct (userIDReply (redis.Value (redis.value en))) as [uid [e|]];
      [discriminate|].
    destruct (uid =? 0)%N; [discriminate|].
    destruct (repo_GetUserByID B uid (database B b)) as [e|user]; [discriminate|].
    destruct hashed as [h|]; [|discriminate].
    destruct (repo_SaveUser B (account.rehashed h user) (database B b)) as [[e|] d];
      [discriminate|].
    intros _. cbn [fst snd cache]. unfold DeleteResetToken.
    rewrite (Del_answering _ _ Ha). cbn [snd].
    unfold GetUserIDByResetToken. rewrite userID_lookup by apply answering_mk.
    rewrite live_delete, decide_True by reflexivity. reflexivity.
  - intros Hr rest Htape. revert Hr.
    assert (Hget : GetUserIDByResetToken token (cache B b)
                   = (match redis.live (cache B b) (getResetTokenKey token) with
                      | Some e => userIDReply (redis.Value (redis.value e))
                      | None => (0%N, None)
                      end,
                      redis.mkServer (redis.db (cache B b)) (redis.clock (cache B b))
                                     (false :: rest))).
    { unfold GetUserIDByResetToken. rewrite R_bind_run.
      unfold redis.Get, redis.roundTrip. rewrite Htape.
      unfold redis.live. cbn [redis.db redis.clock].
      destruct (redis.db (cache B b) !! getResetTokenKey token) as [en|];
        [|reflexivity].
      destruct (redis.expireAt en) as [x|]; [|reflexivity].
      destruct (redis.clock (cache B b) <? x); reflexivity. }
    rewrite Hget. clear Hget.
    destruct (redis.live (cache B b) (getResetTokenKey token)) as [en|];
      [|cbn [fst snd]; rewrite N.eqb_refl; discriminate].
    destruct (userIDReply (redis.Value (redis.value en))) as [uid [e|]];
      [discriminate|].
    destruct (uid =? 0)%N; [discriminate|].
    destruct (repo_GetUserByID B uid (database B b)) as [e|user]; [discriminate|].
    destruct hashed as [h|]; [|discriminate].
    destruct (repo_SaveUser B (account.rehashed h user) (database B b)) as [[e|] d];
      [discriminate|].
    intros _. reflexivity.
Qed.

(** ** The service: bookmarks *)

(** A resolution gives a payload exactly when it gives no error. *)
Lemma FetchFaviconBase64_payload (L : GoLibs) (N : Network) (cacheRepo : bool)
      (resourceURL : string) (w : World) :
  (FetchFaviconBase64 L N cacheRepo resourceURL w).1.1 = "" <->
  (FetchFaviconBase64 L N cacheRepo resourceURL w).1.2 <> None.
Proof.
  destruct (cacheLookup N cacheRepo (normalizeURL L resourceURL) w).1 as [v|] eqn:Hl.
  - pose proof (FetchFaviconBase64_cases L N cacheRepo resourceURL w) as Hc.
    cbv zeta in Hc. rewrite Hl in Hc. destruct Hc as [Hr _]. rewrite Hr.
    destruct (cacheLookup_spec N cacheRepo (normalizeURL L resourceURL) w) as [_ Hhit].
    destruct (Hhit v Hl) as (Hv & _). simpl. split; [contradiction|].
    intros H. contradiction H. reflexivity.
  - pose proof (FetchFaviconBase64_miss_resolved L N cacheRepo resourceURL w Hl) as Hres.
    unfold resolved in Hres.
    destruct ((FetchFaviconBase64 L N cacheRepo resourceURL w).1.2) as [e|].
    + destruct Hres as [Hv _]. split; [discriminate | intros _; exact Hv].
    + destruct Hres as [Hv _]. split; [contradiction|].
      intros H. contradiction H. reflexivity.
Qed.

(** X20: [AddBookmark] resolves the icon of the URL once, with the cache,
    and hands one record to the repository whatever the resolution gave:
    the icon of the record is the payload, and it is empty exactly when
    the resolution failed.  Only the repository can fail the call; a
    failed resolution never does.  The record carries the user ID, title,
    URL and flag given, the two clock readings and the ID 0. *)
Theorem AddBookmark_icon (L : GoLibs) (Net : Network) (B : Backing)
        (now1 now2 : Z) (userID : N) (title url : string) (showText : bool)
        (w : World) (d : DB B) :
  let resolution := FetchFaviconBase64 L Net true url w in
  let bookmark :=
    model.mkBookmark now1 now2 title url resolution.1.1 0 userID showText in
  let r := AddBookmark L Net B now1 now2 userID title url showText (w, d) in
  r.2 = (resolution.2, (repo_AddBookmark B bookmark d).2) /\
  r.1 = match (repo_AddBookmark B bookmark d).1 with
        | inl err => inl (Other B err)
        | inr stored => inr stored
        end /\
  (model.Favicon bookmark = "" <-> resolution.1.2 <> None).
Proof.
  cbv zeta. unfold AddBookmark, iconOf.
  pose proof (FetchFaviconBase64_payload L Net true url w) as Hp.
  destruct (FetchFaviconBase64 L Net true url w) as [res w1]. cbn [fst snd] in *.
  destruct (repo_AddBookmark B _ d) as [[err|stored] d1]; cbn [fst snd];
    (split; [reflexivity|]); (split; [reflexivity|]); exact Hp.
Qed.

(** X21: [PatchBookmark] touches nothing when the bookmark cannot be loaded
    or belongs to another user.  Otherwise it writes one record: title,
    URL and flag are replaced where the patch has them, the modification
    time is the clock reading, and the creation time, ID and owner are
    those of the stored bookmark.  The icon is resolved again only when
    the patch has a URL; then the icon of the record is what that
    resolution gave, the empty string when it failed, and the icon
    stored before is not kept.  Without a URL in the patch nothing is
    sent or read and the icon stays. *)
Theorem PatchBookmark_icon (L : GoLibs) (Net : Network) (B : Backing)
        (now : Z) (userID bookmarkID : N) (patch : api.PatchBookmarkRequest)
        (w : World) (d : DB B) :
  let r := PatchBookmark L Net B now userID bookmarkID patch (w, d) in
  match repo_GetBookmarkByID B bookmarkID d with
  | inl err => r = (inl (Other B err), (w, d))
  | inr stored =>
      if (model.UserID stored =? userID)%N then
        let resolution :=
          match api.URL patch with
          | Some url => FetchFaviconBase64 L Net true url w
          | None => ((model.Favicon stored, None), w)
          end in
        let written :=
          model.mkBookmark
            (model.CreatedAt stored) now
            (default (model.Title stored) (api.Title patch))
            (default (model.URL stored) (api.URL patch))
            resolution.1.1
            (model.ID stored) (model.UserID stored)
            (default (model.ShowText stored) (api.ShowText patch)) in
        r.2 = (resolution.2, (repo_UpdateBookmark B written d).2) /\
        r.1 = match (repo_UpdateBookmark B written d).1 with
              | inl err => inl (Other B err)
              | inr saved => inr saved
              end /\
        (forall url, api.URL patch = Some url ->
           (model.Favicon written = "" <-> resolution.1.2 <> None))
      else
        r = (inl (Coded B CodeForbidden "Bookmark doesn't belong to user"), (w, d))
  end.
Proof.
  cbv zeta. unfold PatchBookmark, GetBookmarkByID, iconOf.
  destruct (repo_GetBookmarkByID B bookmarkID d) as [err|stored]; [reflexivity|].
  destruct (model.UserID stored =? userID)%N; [|reflexivity]. cbn [negb].
  destruct patch as [[title|] [url|] [showText|]]; cbn [api.Title api.URL api.ShowText default];
    try (pose proof (FetchFaviconBase64_payload L Net true url w) as Hp;
         destruct (FetchFaviconBase64 L Net true url w) as [res w1];
         cbn [fst snd] in * );
    unfold setTitle, setURL, setShowText, setUpdatedAt, model.setFavicon;
    cbn [model.CreatedAt model.UpdatedAt model.Title model.URL model.Favicon
         model.ID model.UserID model.ShowText];
    (destruct (repo_UpdateBookmark B _ d) as [[err|saved] d1]; cbn [fst snd];
     (split; [reflexivity|]); (split; [reflexivity|]);
     intros u Hu; first [discriminate Hu | exact Hp]).
Qed.

Section ImportV2.
Context (L : GoLibs) (Net : Network) (B : Backing) (clock : nat -> Z * Z) (userID : N).




End ImportV2.




(** ** Verification codes *)

Lemma of_lu_bound (d : Decimal.uint) :
  (DecimalPos.Unsigned.of_lu d < 10 ^ DecimalPos.Unsigned.usize d)%N.
Proof.
  induction d; cbn [DecimalPos.Unsigned.of_lu DecimalPos.Unsigned.usize];
    try (rewrite N.pow_succ_r by apply N.le_0_l; lia).
  simpl. lia.
Qed.

Lemma usize_revapp (d : Decimal.uint) : forall d',
  DecimalPos.Unsigned.usize (Decimal.revapp d d')
  = (DecimalPos.Unsigned.usize d + DecimalPos.Unsigned.usize d')%N.
Proof.
  induction d; intros d'; cbn [Decimal.revapp DecimalPos.Unsigned.usize];
    try (rewrite IHd; cbn [DecimalPos.Unsigned.usize]; lia).
  reflexivity.
Qed.

Lemma usize_nb_digits (d : Decimal.uint) :
  DecimalPos.Unsigned.usize d = N.of_nat (Decimal.nb_digits d).
Proof.
  induction d; cbn [DecimalPos.Unsigned.usize Decimal.nb_digits];
    try (rewrite IHd; lia).
  reflexivity.
Qed.

Lemma string_of_uint_length (d : Decimal.uint) :
  String.length (NilEmpty.string_of_uint d) = Decimal.nb_digits d.
Proof. induction d; simpl; congruence. Qed.

Lemma nzhead_head (d : Decimal.uint) : forall u, Decimal.nzhead d <> Decimal.D0 u.
Proof. induction d; intros u; simpl; try discriminate. apply IHd. Qed.

(** The digits of a positive number: the first is not zero, and their number
    is fixed by the powers of ten around the number. *)
Lemma to_uint_size (p : positive) :
  exists u,
    Decimal.nb_digits (Pos.to_uint p) = S u /\
    (10 ^ N.of_nat u <= N.pos p < 10 ^ N.of_nat (S u))%N.
Proof.
  pose proof (DecimalPos.Unsigned.of_to p) as Hof.
  pose proof (DecimalPos.Unsigned.to_of (Pos.to_uint p)) as Hto.
  rewrite Hof in Hto. cbn [N.to_uint] in Hto.
  pose proof (DecimalPos.Unsigned.to_uint_nonzero p) as Hnz.
  rewrite DecimalPos.Unsigned.of_uint_alt in Hof.
  destruct (Pos.to_uint p) as [|r|r|r|r|r|r|r|r|r|r] eqn:Hd;
    [ exfalso; exact (DecimalPos.Unsigned.to_uint_nonnil p Hd)
    | exfalso; unfold Decimal.unorm in Hto;
      destruct (Decimal.nzhead (Decimal.D0 r)) eqn:Hh; try discriminate;
      [ inversion Hto; subst; contradiction | exact (nzhead_head _ _ Hh) ]
    | .. ];
    (exists (Decimal.nb_digits r); split; [reflexivity|];
     unfold Decimal.rev in Hof; cbn [Decimal.revapp] in Hof;
     rewrite DecimalPos.Unsigned.of_lu_revapp in Hof;
     pose proof (of_lu_bound (Decimal.rev r)) as Hb;
     unfold Decimal.rev in Hb at 2; rewrite usize_revapp in Hb;
     cbn [DecimalPos.Unsigned.usize DecimalPos.Unsigned.of_lu] in Hof, Hb;
     rewrite N.add_0_r in Hb; rewrite usize_nb_digits in Hof, Hb;
     rewrite Nat2N.inj_succ, N.pow_succ_r by apply N.le_0_l;
     rewrite <- Hof; nia).
Qed.

(** A number between two powers of ten is printed with as many digits as the
    upper one has zeros. *)
Lemma Itoa_length (c : Z) (k : nat) :
  10 ^ Z.of_nat k <= c < 10 ^ Z.of_nat (S k) ->
  String.length (strconv_Itoa c) = S k.
Proof.
  intros [Hlo Hhi].
  assert (Hpos : 0 < c) by (pose proof (Z.pow_pos_nonneg 10 (Z.of_nat k)); lia).
  destruct c as [|p|p]; try lia.
  unfold strconv_Itoa. cbn [Z.to_int NilZero.string_of_int].
  destruct (to_uint_size p) as (u & Hn & Hlo' & Hhi').
  assert (Hs : NilZero.string_of_uint (Pos.to_uint p)
               = NilEmpty.string_of_uint (Pos.to_uint p)).
  { destruct (Pos.to_uint p); try reflexivity. discriminate Hn. }
  rewrite Hs, string_of_uint_length, Hn. f_equal.
  assert (H1 : 10 ^ Z.of_nat u <= Z.pos p < 10 ^ Z.of_nat (S u)).
  { change 10 with (Z.of_N 10). rewrite <- !nat_N_Z, <- !N2Z.inj_pow.
    change (Z.pos p) with (Z.of_N (N.pos p)). lia. }
  destruct (Nat.lt_trichotomy u k) as [Hlt|[->|Hgt]]; [|reflexivity|].
  - assert (10 ^ Z.of_nat (S u) <= 10 ^ Z.of_nat k)
      by (apply Z.pow_le_mono_r; lia). lia.
  - assert (10 ^ Z.of_nat (S k) <= 10 ^ Z.of_nat u)
      by (apply Z.pow_le_mono_r; lia). lia.
Qed.

Lemma int_of_byte_range (b : Byte.byte) : 0 <= int_of_byte b < 256.
Proof. unfold int_of_byte. pose proof (Byte.to_N_bounded b). lia. Qed.

Lemma byte_of_int (x : Z) : 0 <= x < 256 -> exists b, int_of_byte b = x.
Proof.
  intros Hx. destruct (Byte.of_N (Z.to_N x)) as [b|] eqn:Hb.
  - exists b. unfold int_of_byte. apply Byte.to_of_N in Hb. lia.
  - apply Byte.of_N_None_iff in Hb. lia.
Qed.

(** Shifting left and filling the freed bits is multiplying and adding. *)
Lemma shiftl_lor_add (a b k : Z) :
  0 <= k -> 0 <= b < 2 ^ k -> Z.lor (Z.shiftl a k) b = a * 2 ^ k + b.
Proof.
  intros Hk Hb. rewrite <- Z.lxor_lor, <- Z.add_nocarry_lxor, Z.shiftl_mul_pow2;
    try assumption; try reflexivity.
  all: apply Z.bits_inj'; intros n Hn; rewrite Z.land_spec, Z.bits_0.
  all: destruct (Z.lt_ge_cases n k) as [Hlt|Hge];
    [rewrite Z.shiftl_spec_low by assumption; reflexivity|].
  all: destruct (Z.eq_dec b 0) as [->|Hb0];
    [rewrite Z.bits_0; apply andb_false_r|].
  all: rewrite (Z.bits_above_log2 b n), andb_false_r; try reflexivity; try lia.
  all: apply Z.log2_lt_pow2; try lia.
  all: assert (2 ^ k <= 2 ^ n) by (apply Z.pow_le_mono_r; lia); lia.
Qed.

(** The 24-bit number made of three bytes. *)
Lemma three_bytes (b0 b1 b2 : Byte.byte) :
  Z.lor (Z.lor (Z.shiftl (int_of_byte b0) 16) (Z.shiftl (int_of_byte b1) 8))
        (int_of_byte b2)
  = int_of_byte b0 * 65536 + int_of_byte b1 * 256 + int_of_byte b2.
Proof.
  pose proof (int_of_byte_range b0). pose proof (int_of_byte_range b1).
  pose proof (int_of_byte_range b2).
  replace (Z.shiftl (int_of_byte b0) 16)
    with (Z.shiftl (Z.shiftl (int_of_byte b0) 8) 8)
    by (rewrite Z.shiftl_shiftl by lia; reflexivity).
  rewrite <- Z.shiftl_lor.
  rewrite (shiftl_lor_add (int_of_byte b0) (int_of_byte b1) 8) by (simpl; lia).
  rewrite shiftl_lor_add by (simpl; lia).
  change (2 ^ 8) with 256. lia.
Qed.

(** What [generateSecureVerificationCode] makes of three bytes. *)
Lemma code_of_bytes (E : Type) (b0 b1 b2 : Byte.byte) :
  exists n,
    generateSecureVerificationCode (E := E) (inr (b0, b1, b2)) = inr (strconv_Itoa n) /\
    100000 <= n <= 999999.
Proof.
  eexists. split; [reflexivity|]. rewrite three_bytes.
  pose proof (int_of_byte_range b0). pose proof (int_of_byte_range b1).
  pose proof (int_of_byte_range b2).
  set (v := int_of_byte b0 * 65536 + int_of_byte b1 * 256 + int_of_byte b2).
  assert (Hr : 0 <= Z.rem v 900000 < 900000)
    by (apply Z.rem_bound_pos; unfold v; lia).
  lia.
Qed.

Lemma code_six (n : Z) :
  100000 <= n <= 999999 -> String.length (strconv_Itoa n) = 6%nat.
Proof.
  intros Hn. apply (Itoa_length _ 5). change (10 ^ Z.of_nat 5) with 100000.
  change (10 ^ Z.of_nat 6) with 1000000. lia.
Qed.

Lemma code_inv (E : Type) (rand : E + (Byte.byte * Byte.byte * Byte.byte)) (c : string) :
  generateSecureVerificationCode rand = inr c ->
  exists b0 b1 b2 n, rand = inr (b0, b1, b2) /\ c = strconv_Itoa n /\ 100000 <= n <= 999999.
Proof.
  destruct rand as [e|[[b0 b1] b2]]; [discriminate|].
  destruct (code_of_bytes E b0 b1 b2) as (n & Hc & Hn). rewrite Hc.
  intros [= <-]. exists b0, b1, b2, n. auto.
Qed.

(** X24: [generateSecureVerificationCode] passes on the error of the random
    source; from any three random bytes it makes the decimal writing of a
    number between 100000 and 999999, which has exactly six characters and
    is read back by [strconv.Atoi] as that number; and every number of that
    range is the code of some three bytes. *)
Theorem generateSecureVerificationCode_six_digits :
  (forall (E : Type) (err : E), generateSecureVerificationCode (inl err) = inl err) /\
  (forall (E : Type) b0 b1 b2,
     exists n,
       generateSecureVerificationCode (E := E) (inr (b0, b1, b2)) = inr (strconv_Itoa n) /\
       100000 <= n <= 999999 /\
       String.length (strconv_Itoa n) = 6%nat /\
       strconv_Atoi (strconv_Itoa n) = Some n) /\
  (forall (E : Type) n,
     100000 <= n <= 999999 ->
     exists b0 b1 b2,
       generateSecureVerificationCode (E := E) (inr (b0, b1, b2)) = inr (strconv_Itoa n)).
Proof.
  split; [reflexivity|]. split.
  - intros E b0 b1 b2. destruct (code_of_bytes E b0 b1 b2) as (n & Hc & Hn).
    exists n. split; [exact Hc|]. split; [exact Hn|]. split.
    + apply code_six, Hn.
    + apply Atoi_fmt_d. change (2 ^ 63) with 9223372036854775808. lia.
  - intros E n Hn. set (v := n - 100000).
    assert (Hv : 0 <= v < 900000) by (unfold v; lia).
    pose proof (Z.div_mod v 256 ltac:(lia)) as H1.
    pose proof (Z.mod_pos_bound v 256 ltac:(lia)) as H2.
    pose proof (Z.div_mod (v / 256) 256 ltac:(lia)) as H3.
    pose proof (Z.mod_pos_bound (v / 256) 256 ltac:(lia)) as H4.
    assert (H5 : 0 <= v / 256 / 256 < 256).
    { split; [apply Z.div_pos; [apply Z.div_pos|]; lia|].
      apply Z.div_lt_upper_bound; [lia|]. apply Z.div_lt_upper_bound; lia. }
    destruct (byte_of_int (v / 256 / 256) H5) as [b0 Hb0].
    destruct (byte_of_int ((v / 256) mod 256) H4) as [b1 Hb1].
    destruct (byte_of_int (v mod 256) H2) as [b2 Hb2].
    exists b0, b1, b2. unfold generateSecureVerificationCode.
    rewrite three_bytes, Hb0, Hb1, Hb2.
    replace (v / 256 / 256 * 65536 + (v / 256) mod 256 * 256 + v mod 256)
      with v by lia.
    rewrite Z.rem_small by lia. unfold v. f_equal. f_equal. lia.
Qed.

(** ** Registration and the verification mail *)

(** X25: [sendVerificationEmailAsync] calls the mailer at least once and at
    most three times, always with the same address, code and user name; it
    stops at the first call that succeeds; it sleeps two seconds after the
    first failure and four after the second, six seconds at most, and never
    after its last call. *)
Theorem sendVerificationEmailAsync_retries (email code username : string)
        (userID : N) (outcomes : list bool) :
  let evs := sendVerificationEmailAsync email code username userID outcomes in
  (forall c, In c (sends evs) -> c.1 = mkMail email code username) /\
  (exists m ok, List.last evs (Slept 0) = Sent m ok) /\
  ((map snd (sends evs) = [true] /\ slept evs = 0) \/
   (map snd (sends evs) = [false; true] /\ slept evs = 2 * Second) \/
   (map snd (sends evs) = [false; false; true] /\ slept evs = 6 * Second) \/
   (map snd (sends evs) = [false; false; false] /\ slept evs = 6 * Second)) /\
  (forall k, (k < length (sends evs))%nat ->
     nth k (map snd (sends evs)) true = nth k outcomes true).
Proof.
  cbv zeta. unfold sendVerificationEmailAsync.
  change (Z.to_nat maxRetries) with 3%nat.
  destruct outcomes as [|[] [|[] [|[] rest]]]; vm_compute.
  all: split;
    [intros c Hc; repeat (destruct Hc as [<-|Hc]; [reflexivity|]); destruct Hc|].
  all: split; [eexists; eexists; reflexivity|].
  all: split; [auto 6|].
  all: intros k Hk; do 3 (destruct k as [|k]; [first [reflexivity | lia]|]); lia.
Qed.

(** X26: [SendEmailVerificationCode] never changes the database; a mail is
    sent only together with the answer [nil], to the address and name of the
    unverified user found for the e-mail, and with a code that is not empty.
    While Redis answers: if a code of the user is still alive, that very
    code is mailed again and nothing in Redis changes, not even the time at
    which the code expires; if there is none, a new six-digit code is made
    of the random bytes, mailed, and stored in both directions for 24
    hours. *)
Theorem SendEmailVerificationCode_resend (B : Backing) (E : Type)
        (repo_GetUserByEmail : string -> DB B -> OtherError B + account.User)
        (email : string) (rand : E + (Byte.byte * Byte.byte * Byte.byte))
        (b : Backend B) :
  let r := SendEmailVerificationCode B repo_GetUserByEmail email rand b in
  database B r.2 = database B b /\
  (forall m, r.1.2 = Some m ->
     r.1.1 = None /\
     exists user,
       repo_GetUserByEmail email (database B b) = inr user /\
       account.IsVerified user = false /\
       mailTo m = account.Email user /\
       mailUsername m = account.Username user /\
       mailCode m <> "") /\
  (forall user,
     repo_GetUserByEmail email (database B b) = inr user ->
     account.IsVerified user = false ->
     answering (cache B b) ->
     match redis.live (cache B b) (getEmailVerificationCodeKey (account.ID user)) with
     | Some e =>
         redis.value e <> "" ->
         r = (None, Some (mkMail (account.Email user) (redis.value e)
                                 (account.Username user)), b)
     | None =>
         forall b0 b1 b2, rand = inr (b0, b1, b2) ->
         exists n,
           100000 <= n <= 999999 /\
           r.1 = (None, Some (mkMail (account.Email user) (strconv_Itoa n)
                                     (account.Username user))) /\
           redis.db (cache B r.2)
           = <[getEmailVerificationUserKey (strconv_Itoa n) :=
                 redis.mkEntry (strconv_FormatUint (account.ID user))
                               (Some (redis.clock (cache B b) + 86400))]>
               (<[getEmailVerificationCodeKey (account.ID user) :=
                    redis.mkEntry (strconv_Itoa n)
                                  (Some (redis.clock (cache B b) + 86400))]>
                  (redis.db (cache B b)))
     end).
Proof.
  cbv zeta. unfold SendEmailVerificationCode, GetUserByEmail.
  rewrite Svc_bind_run. cbv zeta.
  destruct (repo_GetUserByEmail email (database B b)) as [e|user] eqn:Hload.
  { split; [reflexivity|]. split; [discriminate|]. discriminate. }
  destruct (account.IsVerified user) eqn:Hv.
  { split; [reflexivity|]. split; [discriminate|].
    intros user' [= <-] Hv'. congruence. }
  rewrite !Svc_bind_run. unfold inCache.
  destruct (GetEmailVerificationCode (account.ID user) (cache B b))
    as [[code err] c] eqn:Hget.
  cbn [database].
  assert (Hnonempty : forall n, 100000 <= n <= 999999 -> strconv_Itoa n <> "").
  { intros n Hn Hq. apply code_six in Hn. rewrite Hq in Hn. discriminate Hn. }
  split; [|split].
  - destruct err as [e|]; [reflexivity|].
    destruct (String.eqb code ""); [|reflexivity].
    destruct (generateSecureVerificationCode rand) as [e|secureCode]; [reflexivity|].
    rewrite !Svc_bind_run.
    destruct (StoreEmailVerificationCode _ _ _) as [[e|] c']; reflexivity.
  - intros m. destruct err as [e|]; [discriminate|].
    destruct (String.eqb code "") eqn:Hcode.
    + destruct (generateSecureVerificationCode rand) as [e|secureCode] eqn:Hgen;
        [discriminate|].
      rewrite !Svc_bind_run.
      destruct (StoreEmailVerificationCode _ _ _) as [[e|] c']; [discriminate|].
      cbn. intros [= <-]. split; [reflexivity|]. exists user.
      destruct (code_inv _ _ _ Hgen) as (b0 & b1 & b2 & n & _ & -> & Hn).
      repeat split; try reflexivity; try exact Hv. cbn. apply Hnonempty, Hn.
    + cbn. intros [= <-]. split; [reflexivity|]. exists user.
      repeat split; try reflexivity; try exact Hv. cbn. apply String.eqb_neq, Hcode.
  - intros user' [= <-] _ Ha.
    unfold GetEmailVerificationCode in Hget.
    rewrite string_lookup in Hget by exact Ha.
    destruct (redis.live (cache B b) (getEmailVerificationCodeKey (account.ID user)))
      as [e|].
    + injection Hget as <- <- <-. intros Hne.
      apply String.eqb_neq in Hne. rewrite Hne. destruct b; reflexivity.
    + injection Hget as <- <- <-. intros b0 b1 b2 ->.
      destruct (code_of_bytes E b0 b1 b2) as (n & Hc & Hn).
      change (String.eqb "" "") with true. cbv iota. rewrite Hc.
      rewrite !Svc_bind_run.
      rewrite (StoreEmailVerificationCode_answering _ _ _ Ha).
      exists n. split; [exact Hn|]. split; reflexivity.
Qed.

(** X27: [Register].  An error comes with the ID 0 and without mail, and
    leaves Redis as it was; when hashing the password or making the code
    fails, the repository is not called either.  Once the repository has
    taken the user, who is handed over unverified, not premium and with the
    hash as password, [Register] answers the new ID without error and mails
    a six-digit code to the address of the request, whatever Redis does:
    when Redis answers, the code leads to the new user for the 24 hours that
    follow; when the first round trip fails, nothing is stored, and the
    mailed code is of no use. *)
Theorem Register_spec (B : Backing) (E : Type)
        (repo_Register : account.User -> DB B -> (OtherError B + account.User) * DB B)
        (req : RegisterRequest) (hashed : option string)
        (rand : E + (Byte.byte * Byte.byte * Byte.byte)) (b : Backend B) :
  let r := Register B repo_Register req hashed rand b in
  (forall e, r.1.1.2 = Some e ->
     r.1.1.1 = 0%N /\ r.1.2 = None /\ cache B r.2 = cache B b) /\
  (hashed = None \/ (exists e, rand = inl e) -> r.2 = b) /\
  (forall h b0 b1 b2 user d,
     hashed = Some h -> rand = inr (b0, b1, b2) ->
     repo_Register (account.mkUser (reqEmail req) (reqUsername req) h 0 0 0 false false)
                   (database B b) = (inr user, d) ->
     exists n,
       100000 <= n <= 999999 /\
       r.1 = (account.ID user, None,
              Some (mkMail (reqEmail req) (strconv_Itoa n) (reqUsername req))) /\
       database B r.2 = d /\
       (answering (cache B b) -> (account.ID user < 2 ^ 64)%N ->
        forall t, t < redis.clock (cache B b) + 86400 ->
          (GetUserIDByVerificationCode (strconv_Itoa n) (at_time t (cache B r.2))).1
          = (account.ID user, None)) /\
       (forall rest, redis.tape (cache B b) = false :: rest ->
          redis.db (cache B r.2) = redis.db (cache B b))).
Proof.
  cbv zeta. unfold Register. split; [|split].
  - intros e. destruct hashed as [h|]; [|cbn; auto].
    destruct (generateSecureVerificationCode rand) as [e'|c]; [cbn; auto|].
    cbv zeta. rewrite Svc_bind_run. unfold RegisterUser.
    destruct (repo_Register _ (database B b)) as [[e'|user] d]; [cbn; auto|].
    rewrite Svc_bind_run. unfold inCache.
    destruct (StoreEmailVerificationCode _ _ _) as [x c']. cbn. discriminate.
  - intros [->|[e ->]]; [reflexivity|]. destruct hashed; reflexivity.
  - intros h b0 b1 b2 user d -> -> Hreg.
    destruct (code_of_bytes E b0 b1 b2) as (n & Hc & Hn). rewrite Hc.
    cbv zeta. rewrite Svc_bind_run. unfold RegisterUser. rewrite Hreg.
    rewrite Svc_bind_run. unfold inCache. cbn [cache database].
    exists n. split; [exact Hn|].
    destruct (StoreEmailVerificationCode (account.ID user) (strconv_Itoa n) (cache B b))
      as [x c'] eqn:Hstore.
    cbn [fst snd cache database mret Svc_ret].
    split; [reflexivity|]. split; [reflexivity|]. split.
    + intros Ha Hid t Ht.
      rewrite (StoreEmailVerificationCode_answering _ _ _ Ha) in Hstore.
      injection Hstore as <- <-.
      unfold GetUserIDByVerificationCode, at_time. cbn [redis.db redis.tape].
      rewrite userID_lookup by apply answering_mk. cbn [fst].
      rewrite live_insert, decide_True by reflexivity. cbn [redis.expireAt].
      change EmailVerificationCodeTTL with 86400.
      apply Z.ltb_lt in Ht. rewrite Ht.
      unfold userIDReply. cbn [redis.value].
      rewrite ParseUint_FormatUint by exact Hid. reflexivity.
    + intros rest Htape. unfold StoreEmailVerificationCode in Hstore.
      rewrite R_bind_run in Hstore. unfold redis.Set_ at 1, redis.roundTrip in Hstore.
      rewrite Htape in Hstore. cbn in Hstore. injection Hstore as <- <-.
      reflexivity.
Qed.
